(** * Internet Folks API

    A shallow embedding of the request pipeline of the community backend:
    the error model, the session codec, the declarative request validator,
    the session resolver, the authorization gates and the resource
    operations on users, roles, communities and members, together with the
    properties the specification states about them.

    Conventions of the embedding.
    - A JavaScript string is a [string]: a sequence of code units, each
      below 256 (the Latin-1 range of UTF-16).
    - A JavaScript object is an association list in property order.
    - A table of the datastore is the list of its rows in insertion order.
    - An [async] handler is a function from the request and the datastore
      to an outcome and the datastore afterwards; [throw] inside [try] and
      [next(error)] are the [Fail] outcome.
    - Calls into libraries that are not part of the repository (token
      signing, password hashing, identifier generation, the clock) are
      operations of an interface or explicit arguments. *)

From Stdlib Require Import String Ascii List ZArith Lia Bool Arith.
From Stdlib Require Import DecimalString DecimalZ.
Import ListNotations.
Local Open Scope string_scope.
Set Warnings "-register-all".

(** ** JavaScript values *)

Module Js.

(** [String.prototype.toLowerCase] on one code unit below 256: the ASCII
    capitals and the Latin-1 capitals (U+00C0 to U+00DE, without the
    multiplication sign U+00D7) move up by 32. *)
Definition lower_unit (c : ascii) : ascii :=
  let n := N_of_ascii c in
  if ((65 <=? n) && (n <=? 90))%N
     || ((192 <=? n) && (n <=? 222) && negb (n =? 215))%N
  then ascii_of_N (n + 32) else c.

Fixpoint toLowerCase (s : string) : string :=
  match s with
  | EmptyString => EmptyString
  | String c s' => String (lower_unit c) (toLowerCase s')
  end.

Inductive JsVal : Type :=
| JUndef
| JNull
| JBool (b : bool)
| JNum (z : Z)
| JStr (s : string)
| JArr (items : list JsVal)
| JObj (fields : list (string * JsVal)).

(** An object: its own enumerable properties, in property order. *)
Definition Obj := list (string * JsVal).

(** [o[k]] *)
Fixpoint obj_get (o : Obj) (k : string) : JsVal :=
  match o with
  | [] => JUndef
  | (k', v) :: o' => if k' =? k then v else obj_get o' k
  end.

(** [k in o] for own properties *)
Fixpoint obj_has (o : Obj) (k : string) : bool :=
  match o with
  | [] => false
  | (k', _) :: o' => (k' =? k) || obj_has o' k
  end.

(** [o[k] = v]: an existing property keeps its place, a new one goes
    last. *)
Fixpoint obj_set (o : Obj) (k : string) (v : JsVal) : Obj :=
  match o with
  | [] => [(k, v)]
  | (k', v') :: o' =>
      if k' =? k then (k', v) :: o' else (k', v') :: obj_set o' k v
  end.

Definition obj_keys (o : Obj) : list string := map fst o.

(** What [JSON.stringify] keeps of a value, as [res.json] sends it: a
    property whose value is [undefined] is dropped, an [undefined] array
    item becomes [null]. *)
Fixpoint jsonify (v : JsVal) : JsVal :=
  match v with
  | JArr items =>
      JArr (map (fun x => match x with
                          | JUndef => JNull
                          | _ => jsonify x
                          end) items)
  | JObj fields =>
      JObj ((fix go (fs : list (string * JsVal)) : list (string * JsVal) :=
               match fs with
               | [] => []
               | (k, JUndef) :: fs' => go fs'
               | (k, x) :: fs' => (k, jsonify x) :: go fs'
               end) fields)
  | _ => v
  end.

(** The result of [Number(x)] on a request field, for whole numbers:
    [NaN] when the field is absent or not numeric. *)
Inductive JsNumber : Type :=
| NaN
| Int (z : Z).

End Js.
Import Js.

(** ** Error model ([errors/]) *)

Module Errors.

(** What a handler can throw. [ParametricError] and [NonParametricError]
    are the two subclasses of [CustomError]; [RuntimeError] stands for
    any other [Error] (a [TypeError], a rejected query), its message
    being indicative: no handler reads it. The error lists are the
    constructor arguments, kept as objects: [validateRequest] passes
    objects with more properties than [IParametricError] has. *)
Inductive Thrown : Type :=
| ParametricError (errors : list Obj)
| NonParametricError (errors : list Obj)
| RuntimeError (message : string).

Definition isCustomError (e : Thrown) : bool :=
  match e with
  | RuntimeError _ => false
  | _ => true
  end.

(** [serializeErrors()] of the two subclasses. *)
Definition serializeErrors (e : Thrown) : list Obj :=
  match e with
  | ParametricError errors =>
      map (fun err => [("param", obj_get err "param");
                       ("message", obj_get err "message");
                       ("code", obj_get err "code")]) errors
  | NonParametricError errors =>
      map (fun err => [("message", obj_get err "message");
                       ("code", obj_get err "code")]) errors
  | RuntimeError _ => []
  end.

(** The object literals the handlers throw. *)
Definition parametric (param message code : string) : Obj :=
  [("param", JStr param); ("message", JStr message); ("code", JStr code)].

Definition nonParametric (message code : string) : Obj :=
  [("message", JStr message); ("code", JStr code)].

End Errors.
Import Errors.

(** ** Datastore ([models/], [db]) *)

Module Models.

Record User : Type := mkUser {
  user_id : string;
  user_name : string;
  user_email : string;
  user_password : string;
  user_createdAt : Z;
  user_updatedAt : Z
}.

Record Role : Type := mkRole {
  role_id : string;
  role_name : string;
  role_createdAt : Z;
  role_updatedAt : Z
}.

Record Community : Type := mkCommunity {
  community_id : string;
  community_name : string;
  community_slug : string;
  community_ownerId : string;
  community_createdAt : Z;
  community_updatedAt : Z
}.

Record Member : Type := mkMember {
  member_id : string;
  member_communityId : string;
  member_userId : string;
  member_roleId : string;
  member_createdAt : Z;
  member_updatedAt : Z
}.

Record Db : Type := mkDb {
  users : list User;
  roles : list Role;
  communities : list Community;
  members : list Member
}.

(** A value given to a query: [None] is [undefined]. *)
Definition Arg := option string.

(** [column = arg] in a [where] clause. No row has an undefined column. *)
Definition col_eq (column : string) (arg : Arg) : bool :=
  match arg with
  | Some v => column =? v
  | None => false
  end.

(** [Model.findByPk(id)]: [null] for [undefined], else the row with that
    primary key. *)
Definition findByPk {A : Type} (pk : A -> string) (rows : list A) (id : Arg)
  : option A :=
  match id with
  | None => None
  | Some v => find (fun r => pk r =? v) rows
  end.

(** [Model.findOne({ where })], [Model.findAll({ where, limit, offset })]
    and [Model.count({ where })] over the rows that satisfy [where]. *)
Definition findOne {A : Type} (where_ : A -> bool) (rows : list A) : option A :=
  find where_ rows.

Definition findAll {A : Type} (where_ : A -> bool) (limit offset : nat)
  (rows : list A) : list A :=
  firstn limit (skipn offset (filter where_ rows)).

Definition count {A : Type} (where_ : A -> bool) (rows : list A) : nat :=
  length (filter where_ rows).

(** The primary key is unique: an insert with a key already in the table
    is rejected. *)
Definition pk_free {A : Type} (pk : A -> string) (rows : list A) (id : string)
  : bool :=
  negb (existsb (fun r => pk r =? id) rows).

(** [community.getOwner()] *)
Definition getOwner (db : Db) (c : Community) : option User :=
  findByPk user_id (users db) (Some (community_ownerId c)).

Definition set_users (db : Db) (us : list User) : Db :=
  mkDb us (roles db) (communities db) (members db).
Definition set_roles (db : Db) (rs : list Role) : Db :=
  mkDb (users db) rs (communities db) (members db).
Definition set_communities (db : Db) (cs : list Community) : Db :=
  mkDb (users db) (roles db) cs (members db).
Definition set_members (db : Db) (ms : list Member) : Db :=
  mkDb (users db) (roles db) (communities db) ms.

End Models.
Import Models.

(** ** Libraries and configuration the repository calls into *)

Module Lib.

(** [UserPayloadForJwt]: what the controllers sign. *)
Record UserPayloadForJwt : Type := mkUserPayloadForJwt {
  payload_id : string
}.

(** [JwtPayload]: what a verified token decodes to. [jwt.sign] adds the
    issue time [iat]; a token signed elsewhere with the same secret may
    lack [id]. *)
Record JwtPayload : Type := mkJwtPayload {
  jwt_id : Arg;
  jwt_iat : option Z
}.

(** The collaborators, as operations. A [None] result is a thrown error.
    - [JWT_SECRET] is the constant of [config].
    - [jwt_sign payload secret now] is [jwt.sign(payload, secret)] at time
      [now]; [jwt_verify token secret] is [jwt.verify(token, secret)].
    - [bcrypt_hash data rounds salt] is [bcrypt.hash(data, rounds)] when
      the library draws [salt]; [bcrypt_compare data hash] is
      [bcrypt.compare(data, hash)].
    - [isEmail] is the e-mail check of the validator library.
    - [where_undefined_throws] says whether the query layer rejects a
      [where] clause with an [undefined] value (otherwise the clause
      matches no row). *)
Class Libraries : Type := {
  JWT_SECRET : string;
  jwt_sign : UserPayloadForJwt -> string -> Z -> option string;
  jwt_verify : string -> string -> option JwtPayload;
  bcrypt_hash : string -> nat -> string -> string;
  bcrypt_compare : string -> string -> option bool;
  isEmail : string -> bool;
  where_undefined_throws : bool
}.

(** The contract of the token library: with a secret that is not empty,
    signing succeeds, and verifying the signed token under the same secret
    gives the payload back, with its issue time. *)
Definition JwtContract (L : Libraries) : Prop :=
  forall (p : UserPayloadForJwt) (secret : string) (now : Z),
    secret <> "" ->
    exists token,
      jwt_sign p secret now = Some token /\
      jwt_verify token secret = Some (mkJwtPayload (Some (payload_id p)) (Some now)).

End Lib.
Import Lib.

(** ** Requests, responses and the middleware chain *)

Module Http.

Record Session : Type := mkSession {
  session_jwt : Arg
}.

(** [req.currentUser] *)
Record UserPayload : Type := mkUserPayload {
  currentUser_id : Arg
}.

(** The parts of an Express request the handlers read or write. Body
    properties are strings; [Number(req.body.page)] and
    [Number(req.query.page)] are given as numbers. [req_validation] holds
    the errors the validation chains have recorded on the request, as
    [validationResult(req).array()] lists them. *)
Record Request : Type := mkRequest {
  req_body : list (string * string);
  req_body_page : JsNumber;
  req_query_page : JsNumber;
  req_params_id : Arg;
  req_session : option Session;
  req_currentUser : option UserPayload;
  req_validation : list Obj
}.

(** [req.body[k]] *)
Fixpoint assoc (l : list (string * string)) (k : string) : Arg :=
  match l with
  | [] => None
  | (k', v) :: l' => if k' =? k then Some v else assoc l' k
  end.

Definition body (req : Request) (k : string) : Arg := assoc (req_body req) k.

Definition with_currentUser (req : Request) (u : UserPayload) : Request :=
  mkRequest (req_body req) (req_body_page req) (req_query_page req)
    (req_params_id req) (req_session req) (Some u) (req_validation req).

Definition with_session (req : Request) (s : option Session) : Request :=
  mkRequest (req_body req) (req_body_page req) (req_query_page req)
    (req_params_id req) s (req_currentUser req) (req_validation req).

Definition with_validation (req : Request) (errs : list Obj) : Request :=
  mkRequest (req_body req) (req_body_page req) (req_query_page req)
    (req_params_id req) (req_session req) (req_currentUser req) errs.

(** [res.status(s).json(b)], with the session the response cookie
    carries. *)
Record Response : Type := mkResponse {
  res_status : Z;
  res_body : JsVal;
  res_session : option Session
}.

(** What a middleware does with a request: [next()], [next(err)] (or an
    uncaught [throw], which Express routes the same way), or a reply. *)
Inductive Step : Type :=
| Next (req : Request)
| Fail (err : Thrown)
| Send (res : Response).

Definition Middleware : Type := Request -> Db -> Step * Db.

(** The body of a [try] block: it reads and writes the datastore and
    either returns or throws. Writes made before a throw stay: no handler
    opens a transaction. *)
Definition Try (A : Type) : Type := Db -> (Thrown + A) * Db.

Definition ret {A : Type} (a : A) : Try A := fun db => (inr a, db).

Definition throw {A : Type} (e : Thrown) : Try A := fun db => (inl e, db).

Definition bind {A B : Type} (m : Try A) (k : A -> Try B) : Try B :=
  fun db =>
    match m db with
    | (inl e, db') => (inl e, db')
    | (inr a, db') => k a db'
    end.

(** A read of the datastore. *)
Definition query {A : Type} (q : Db -> A) : Try A := fun db => (inr (q db), db).

(** [try { ... } catch (error) { next(error) }] *)
Definition try_catch_next (block : Try Step) : Db -> Step * Db :=
  fun db =>
    match block db with
    | (inl e, db') => (Fail e, db')
    | (inr s, db') => (s, db')
    end.

End Http.
Import Http.

Declare Scope try_scope.
Delimit Scope try_scope with try.
Notation "x <- m ;; k" := (bind m (fun x => k))
  (at level 61, m at next level, right associativity) : try_scope.
Notation "m ;;; k" := (bind m (fun _ => k))
  (at level 61, right associativity) : try_scope.
Local Open Scope try_scope.

(** ** Utilities ([utils/]) *)

Module Utils.

Definition KeyMap := list (string * string).

(** [keyMap[key] || key]: an absent or empty new name keeps the key. *)
Definition renamed (keyMap : KeyMap) (key : string) : string :=
  match assoc keyMap key with
  | Some newKey => if newKey =? "" then key else newKey
  | None => key
  end.

(** [renameKeys(obj, keyMap)] *)
Definition renameKeys (obj : Obj) (keyMap : KeyMap) : Obj :=
  let newObj :=
    fold_left (fun newObj key => obj_set newObj (renamed keyMap key) (obj_get obj key))
              (obj_keys obj) [] in
  obj_set newObj "code" (JStr "INVALID_INPUT").

Section WithLibraries.
Context {L : Libraries}.

(** [encryptSession(payload)] at time [now]; [None] when signing throws. *)
Definition encryptSession (payload : UserPayloadForJwt) (now : Z) : option string :=
  jwt_sign payload JWT_SECRET now.

(** [decryptSession(jwtToken)]: the [id] of the verified payload, or the
    error thrown in the [catch] branch. *)
Definition decryptSession (jwtToken : string) : Thrown + Arg :=
  match jwt_verify jwtToken JWT_SECRET with
  | Some payload => inr (jwt_id payload)
  | None =>
      inl (ParametricError
             [[("message", JStr "User not found."); ("param", JStr "user");
               ("code", JStr "RESOURCE_NOT_FOUND")]])
  end.

(** [hashPassword(password)] with the salt the library draws. *)
Definition hashPassword (password salt : string) : string :=
  let saltRounds := 10%nat in
  bcrypt_hash password saltRounds salt.

(** [comparePasswords(inputPassword, hashedPassword)]: the library rejects
    a missing argument. *)
Definition comparePasswords (inputPassword : Arg) (hashedPassword : string)
  : Thrown + bool :=
  let failed :=
    inl (ParametricError
           [parametric "password" "Password does not match." "INVALID_INPUT"]) in
  match inputPassword with
  | None => failed
  | Some p =>
      match bcrypt_compare p hashedPassword with
      | Some matched => inr matched
      | None => failed
      end
  end.

End WithLibraries.

End Utils.
Import Utils.

(** ** The validation chains ([middlewares/route-validations/]) *)

Module Validation.

(** The validators the routes use. [exists()] fails on [undefined],
    [exists({ values: "falsy" })] on every falsy value, [isString()] on
    what is not a string; [isLength] and [isEmail] look at the value as a
    string, [undefined] being the empty string. A failed validator records
    one error and the chain goes on. *)
Inductive Check : Type :=
| Exists
| ExistsFalsy
| IsString
| IsLength (min : nat)
| IsEmail.

Record Validator : Type := mkValidator {
  validator_check : Check;
  validator_message : option string
}.

Inductive Location : Type :=
| InBody
| InParams.

Record Chain : Type := mkChain {
  chain_location : Location;
  chain_path : string;
  chain_validators : list Validator
}.

Definition body_ (path : string) : Chain := mkChain InBody path [].
Definition param_ (path : string) : Chain := mkChain InParams path [].

Definition add_check (c : Check) (ch : Chain) : Chain :=
  mkChain (chain_location ch) (chain_path ch)
    (chain_validators ch ++ [mkValidator c None]).

Definition exists_ : Chain -> Chain := add_check Exists.
Definition exists_falsy : Chain -> Chain := add_check ExistsFalsy.
Definition isString : Chain -> Chain := add_check IsString.
Definition isLength (min : nat) : Chain -> Chain := add_check (IsLength min).
Definition isEmail_ : Chain -> Chain := add_check IsEmail.

(** [.withMessage(m)] words the validator added last. *)
Fixpoint word_last (m : string) (vs : list Validator) : list Validator :=
  match vs with
  | [] => []
  | [v] => [mkValidator (validator_check v) (Some m)]
  | v :: vs' => v :: word_last m vs'
  end.

Definition withMessage (m : string) (ch : Chain) : Chain :=
  mkChain (chain_location ch) (chain_path ch) (word_last m (chain_validators ch)).

Definition to_string (v : Arg) : string :=
  match v with
  | Some s => s
  | None => ""
  end.

Section WithLibraries.
Context {L : Libraries}.

Definition passes (c : Check) (v : Arg) : bool :=
  match c with
  | Exists => match v with Some _ => true | None => false end
  | ExistsFalsy => match v with Some s => negb (s =? "") | None => false end
  | IsString => match v with Some _ => true | None => false end
  | IsLength min => (min <=? String.length (to_string v))%nat
  | IsEmail => isEmail (to_string v)
  end.

Definition field_value (req : Request) (ch : Chain) : Arg :=
  match chain_location ch with
  | InBody => body req (chain_path ch)
  | InParams =>
      if chain_path ch =? "id" then req_params_id req else None
  end.

Definition location_name (l : Location) : string :=
  match l with
  | InBody => "body"
  | InParams => "params"
  end.

(** The error a failed validator records. *)
Definition field_error (ch : Chain) (value : Arg) (v : Validator) : Obj :=
  [("type", JStr "field");
   ("value", match value with Some s => JStr s | None => JUndef end);
   ("msg", JStr (match validator_message v with
                 | Some m => m
                 | None => "Invalid value"
                 end));
   ("path", JStr (chain_path ch));
   ("location", JStr (location_name (chain_location ch)))].

(** [rule.run(req)] *)
Definition run_chain (req : Request) (ch : Chain) : list Obj :=
  let value := field_value req ch in
  map (field_error ch value)
      (filter (fun v => negb (passes (validator_check v) value))
              (chain_validators ch)).

(** [Promise.all(validationRules.map((rule) => rule.run(req)))] followed
    by [next()]: the errors are recorded in the order of the rules. *)
Definition run_rules (validationRules : list Chain) : Middleware :=
  fun req db =>
    (Next (with_validation req
             (req_validation req ++ flat_map (run_chain req) validationRules)),
     db).

End WithLibraries.

End Validation.
Import Validation.

Notation "x |> f" := (f x) (at level 45, left associativity, only parsing).

Module RouteValidations.
Section WithLibraries.
Context {L : Libraries}.

Definition signupUserVal : Middleware :=
  run_rules
    [ body_ "name" |> exists_ |> isString |> isLength 2
        |> withMessage "Name must be at least 2 characters long.";
      body_ "email" |> exists_ |> isEmail_
        |> withMessage "Please provide a valid email address.";
      body_ "password" |> exists_ |> isString |> isLength 2
        |> withMessage "Password should be at least 2 characters." ].

Definition signinUserVal : Middleware :=
  run_rules
    [ body_ "email" |> exists_ |> isEmail_
        |> withMessage "Please provide a valid email address.";
      body_ "password" |> exists_ |> isString |> isLength 2
        |> withMessage "Password should be at least 2 characters." ].

Definition createRoleVal : Middleware :=
  run_rules
    [ body_ "name" |> exists_ |> isString |> isLength 2
        |> withMessage "Name should be at least 2 characters." ].

Definition createCommunityVal : Middleware :=
  run_rules
    [ body_ "name" |> exists_ |> isString |> isLength 2
        |> withMessage "Name must be at least 2 characters long." ].

Definition getAllMembersVal : Middleware :=
  run_rules
    [ param_ "id" |> exists_falsy |> isString
        |> withMessage "Please specify community id." ].

Definition addMemberVal : Middleware :=
  run_rules
    [ body_ "community"
        |> exists_falsy |> withMessage "Community ID must be provided."
        |> isString |> withMessage "Community ID must be a string.";
      body_ "user"
        |> exists_falsy |> withMessage "User ID must be provided."
        |> isString |> withMessage "User ID must be a string.";
      body_ "role"
        |> exists_falsy |> withMessage "Role ID must be provided."
        |> isString |> withMessage "Role ID must be a string." ].

Definition deleteMemberVal : Middleware :=
  run_rules
    [ param_ "id"
        |> exists_falsy |> withMessage "User ID must be provided."
        |> isString |> withMessage "User ID must be a string." ].

End WithLibraries.
End RouteValidations.
Import RouteValidations.

(** ** Middlewares ([middlewares/]) *)

Module Middlewares.
Section WithLibraries.
Context {L : Libraries}.

Definition keyMap : KeyMap := [("msg", "message"); ("path", "param")].

(** [errors.array().filter((err) => err.msg.toLowerCase() !== "invalid value")]:
    [None] when some [msg] is not a string, so that [toLowerCase] is not a
    function. *)
Fixpoint worded (errors : list Obj) : option (list Obj) :=
  match errors with
  | [] => Some []
  | err :: rest =>
      match obj_get err "msg" with
      | JStr msg =>
          match worded rest with
          | Some kept =>
              Some (if toLowerCase msg =? "invalid value" then kept
                    else err :: kept)
          | None => None
          end
      | _ => None
      end
  end.

(** [validateRequest]: it throws outside any [try], and Express hands the
    error to the error handler. *)
Definition validateRequest : Middleware :=
  fun req db =>
    let errors := req_validation req in
    match errors with
    | [] => (Next req, db)
    | _ :: _ =>
        match worded errors with
        | Some kept =>
            let errorsArr := map (fun err => renameKeys err keyMap) kept in
            (Fail (ParametricError errorsArr), db)
        | None =>
            (Fail (RuntimeError "err.msg.toLowerCase is not a function"), db)
        end
    end.

(** [currentUser] *)
Definition currentUser : Middleware :=
  fun req db =>
    match req_session req with
    | None => (Next req, db)
    | Some session =>
        match session_jwt session with
        | None => (Next req, db)
        | Some token =>
            if token =? "" then (Next req, db)
            else
              match decryptSession token with
              | inr payload =>
                  (Next (with_currentUser req (mkUserPayload payload)), db)
              | inl _ => (Next req, db)
              end
        end
    end.

Definition notAllowed : Thrown :=
  NonParametricError
    [nonParametric "You are not authorized to perform this action."
                   "NOT_ALLOWED_ACCESS"].

(** [isLoggedIn] *)
Definition isLoggedIn : Middleware :=
  fun req db =>
    match req_currentUser req with
    | None => (Fail notAllowed, db)
    | Some _ => (Next req, db)
    end.

(** [const { id: userId } = req.currentUser!]: destructuring [undefined]
    throws. *)
Definition currentUserId (req : Request) : Try Arg :=
  match req_currentUser req with
  | Some u => ret (currentUser_id u)
  | None =>
      throw (RuntimeError "Cannot destructure property 'id' of 'req.currentUser' as it is undefined.")
  end.

(** [x!.id] on a row that may be [null]. *)
Definition deref {A : Type} (x : option A) : Try A :=
  match x with
  | Some a => ret a
  | None => throw (RuntimeError "Cannot read properties of null (reading 'id')")
  end.

(** A [where] clause built from the given values reaches the query layer. *)
Definition where_values (args : list Arg) : Try unit :=
  if where_undefined_throws
     && existsb (fun a => match a with None => true | Some _ => false end) args
  then throw (RuntimeError "Invalid value received for the where option: undefined")
  else ret tt.

(** [isCommunityAdmin] *)
Definition isCommunityAdmin : Middleware :=
  fun req =>
    try_catch_next (
      userId <- currentUserId req ;;
      let community := body req "community" in
      user <- query (fun db => findByPk user_id (users db) userId) ;;
      match user with
      | None => throw notAllowed
      | Some _ =>
          comm <- query (fun db => findByPk community_id (communities db) community) ;;
          match comm with
          | None =>
              throw (ParametricError
                       [parametric "community" "Community not found."
                                   "RESOURCE_NOT_FOUND"])
          | Some comm =>
              commOwner <- query (fun db => getOwner db comm) ;;
              commOwner <- deref commOwner ;;
              if negb (col_eq (user_id commOwner) userId)
              then throw notAllowed
              else ret (Next req)
          end
      end).

(** [community.id] where [community] is the string read from the request
    body: a string has no property [id], the expression is [undefined]. *)
Definition id_of_string (community : string) : Arg := None.

(** [isCommunityModerator] *)
Definition isCommunityModerator : Middleware :=
  fun req =>
    try_catch_next (
      userId <- currentUserId req ;;
      let community := body req "community" in
      user <- query (fun db => findByPk user_id (users db) userId) ;;
      match user with
      | None => throw notAllowed
      | Some user =>
          comm <- query (fun db => findByPk community_id (communities db) community) ;;
          match comm with
          | None => throw notAllowed
          | Some comm =>
              commOwner <- query (fun db => getOwner db comm) ;;
              role <- query (fun db =>
                        findOne (fun r => role_name r =? "Community Moderator")
                                (roles db)) ;;
              let w_userId := Some (user_id user) in
              let w_communityId :=
                match community with
                | Some c => id_of_string c
                | None => None
                end in
              role <- deref role ;;
              let w_roleId := Some (role_id role) in
              where_values [w_userId; w_communityId; w_roleId] ;;;
              membership <- query (fun db =>
                              findOne (fun m =>
                                         col_eq (member_userId m) w_userId
                                         && col_eq (member_communityId m) w_communityId
                                         && col_eq (member_roleId m) w_roleId)
                                      (members db)) ;;
              commOwner <- deref commOwner ;;
              if negb (col_eq (user_id commOwner) userId)
                 && match membership with None => true | Some _ => false end
              then throw notAllowed
              else ret (Next req)
          end
      end).

(** [globalErrorHandler] *)
Definition globalErrorHandler (err : Thrown) (req : Request) : Response :=
  match err with
  | RuntimeError message =>
      mkResponse 400
        (jsonify (JObj [("status", JBool false); ("message", JStr message)]))
        (req_session req)
  | _ =>
      mkResponse 400
        (jsonify (JObj [("status", JBool false);
                        ("errors", JArr (map JObj (serializeErrors err)))]))
        (req_session req)
  end.

End WithLibraries.
End Middlewares.
Import Middlewares.

(** ** Controllers ([controllers/]) *)

Module Controllers.

(** What the environment supplies during one request: the clock, the
    identifiers [Snowflake.generate()] returns (the [k]-th call of the
    request returns [snowflake k]) and the salt of the password hash. *)
Record Draws : Type := mkDraws {
  now : Z;
  snowflake : nat -> string;
  salt : string
}.

(** A [Date] in a response is its time value. *)
Definition date (t : Z) : JsVal := JNum t.

(** [DataTypes.STRING] is a column of at most 255 characters,
    [DataTypes.STRING(n)] of at most [n]. *)
Definition fits (n : nat) (s : string) : bool := (String.length s <=? n)%nat.

Definition rejected {A : Type} (why : string) : Try A := throw (RuntimeError why).

Section WithLibraries.
Context {L : Libraries}.

(** [User.create]: the attributes are validated ([NotNull], [IsEmail]),
    the [BeforeCreate] hook hashes the password, the row is inserted under
    the primary key and the unique e-mail. *)
Definition User_create (d : Draws) (id : string) (name email password : Arg)
  : Try User :=
  match email, password with
  | Some email, Some password =>
      if negb (isEmail email) then rejected "Validation error"
      else
        let name := match name with Some n => n | None => "" end in
        let user := mkUser id name email (hashPassword password (salt d))
                           (now d) (now d) in
        fun db =>
          if pk_free user_id (users db) id
             && negb (existsb (fun u => user_email u =? email) (users db))
             && fits 255 id && fits 255 name && fits 255 email
          then (inr user, set_users db (users db ++ [user]))
          else (inl (RuntimeError "Validation error"), db)
  | _, _ => rejected "notNull Violation"
  end.

Definition Role_create (d : Draws) (id : string) (name : Arg) : Try Role :=
  match name with
  | Some name =>
      let role := mkRole id name (now d) (now d) in
      fun db =>
        if pk_free role_id (roles db) id && fits 255 id && fits 255 name
        then (inr role, set_roles db (roles db ++ [role]))
        else (inl (RuntimeError "Validation error"), db)
  | None => rejected "notNull Violation"
  end.

Definition Community_create (d : Draws) (id name slug : string) (ownerId : Arg)
  : Try Community :=
  match ownerId with
  | Some ownerId =>
      let community := mkCommunity id name slug ownerId (now d) (now d) in
      fun db =>
        if pk_free community_id (communities db) id
           && fits 255 id && fits 128 name && fits 255 slug
        then (inr community, set_communities db (communities db ++ [community]))
        else (inl (RuntimeError "Validation error"), db)
  | None => rejected "notNull Violation"
  end.

Definition Member_create (d : Draws) (id : string) (userId communityId roleId : Arg)
  : Try Member :=
  match userId, communityId, roleId with
  | Some userId, Some communityId, Some roleId =>
      let member := mkMember id communityId userId roleId (now d) (now d) in
      fun db =>
        if pk_free member_id (members db) id && fits 255 id
        then (inr member, set_members db (members db ++ [member]))
        else (inl (RuntimeError "Validation error"), db)
  | _, _, _ => rejected "notNull Violation"
  end.

(** [Model.findOne({ where: { column: value, ... } })] *)
Definition findOne_where {A : Type} (table : Db -> list A)
  (clause : list ((A -> string) * Arg)) : Try (option A) :=
  where_values (map snd clause) ;;;
  query (fun db =>
           findOne (fun r => forallb (fun c => col_eq (fst c r) (snd c)) clause)
                   (table db)).

(** The user object of the sign-up, sign-in and current-user replies. *)
Definition user_data (user : User) : JsVal :=
  JObj [("id", JStr (user_id user));
        ("name", JStr (user_name user));
        ("email", JStr (user_email user));
        ("created_at", date (user_createdAt user))].

Definition ok (req : Request) (content : JsVal) : Step :=
  Send (mkResponse 200
          (jsonify (JObj [("status", JBool true); ("content", content)]))
          (req_session req)).

(** [encryptSession] inside a [try] block. *)
Definition signed (payload : UserPayloadForJwt) (d : Draws) : Try string :=
  match encryptSession payload (now d) with
  | Some token => ret token
  | None => rejected "secretOrPrivateKey must have a value"
  end.

Definition of_sum {A : Type} (r : Thrown + A) : Try A :=
  match r with
  | inl e => throw e
  | inr a => ret a
  end.

(** [signupUser] *)
Definition signupUser (d : Draws) : Middleware :=
  fun req =>
    try_catch_next (
      let name := body req "name" in
      let email := body req "email" in
      let password := body req "password" in
      let id := snowflake d 0 in
      existingUser <- findOne_where users [(user_email, email)] ;;
      match existingUser with
      | Some _ =>
          throw (ParametricError
                   [parametric "email" "User with this email address already exists."
                               "RESOURCE_EXISTS"])
      | None =>
          user <- User_create d id name email password ;;
          let payload := mkUserPayloadForJwt (user_id user) in
          encSession <- signed payload d ;;
          let req := with_session req (Some (mkSession (Some encSession))) in
          ret (ok req (JObj [("data", user_data user);
                             ("meta", JObj [("access_token", JStr encSession)])]))
      end).

(** [signoutUser] *)
Definition signoutUser : Middleware :=
  fun req =>
    try_catch_next (
      let isPopulated :=
        match req_session req with
        | Some (mkSession (Some _)) => true
        | _ => false
        end in
      if negb isPopulated
      then throw (NonParametricError
                    [nonParametric "You need to sign in to proceed." "NOT_SIGNEDIN"])
      else
        let req := with_session req None in
        ret (ok req (JObj [("message", JStr "Logged out!")]))).

(** [signinUser] *)
Definition signinUser (d : Draws) : Middleware :=
  fun req =>
    try_catch_next (
      let email := body req "email" in
      let password := body req "password" in
      user <- findOne_where users [(user_email, email)] ;;
      match user with
      | None =>
          throw (ParametricError
                   [parametric "user" "User not found." "RESOURCE_NOT_FOUND"])
      | Some user =>
          isMatched <- of_sum (comparePasswords password (user_password user)) ;;
          if negb isMatched
          then throw (ParametricError
                        [parametric "password"
                                    "The credentials you provided are invalid."
                                    "INVALID_CREDENTIALS"])
          else
            let payload := mkUserPayloadForJwt (user_id user) in
            encSession <- signed payload d ;;
            let req := with_session req (Some (mkSession (Some encSession))) in
            ret (ok req (JObj [("data", user_data user);
                               ("meta", JObj [("access_token", JStr encSession)])]))
      end).

(** [!req.currentUser?.id] *)
Definition no_currentUser_id (req : Request) : bool :=
  match req_currentUser req with
  | Some (mkUserPayload (Some id)) => id =? ""
  | _ => true
  end.

(** [getMe] *)
Definition getMe : Middleware :=
  fun req =>
    try_catch_next (
      if no_currentUser_id req
      then throw (NonParametricError
                    [nonParametric "You need to sign in to proceed." "NOT_SIGNEDIN"])
      else
        userId <- currentUserId req ;;
        user <- findOne_where users [(user_id, userId)] ;;
        match user with
        | None =>
            throw (ParametricError
                     [parametric "user" "User not found." "RESOURCE_NOT_FOUND"])
        | Some user => ret (ok req (JObj [("data", user_data user)]))
        end).

Definition role_json (r : Role) : JsVal :=
  JObj [("id", JStr (role_id r)); ("name", JStr (role_name r));
        ("createdAt", date (role_createdAt r));
        ("updatedAt", date (role_updatedAt r))].

(** [createRole] *)
Definition createRole (d : Draws) : Middleware :=
  fun req =>
    try_catch_next (
      let name := body req "name" in
      role <- Role_create d (snowflake d 0) name ;;
      ret (ok req (JObj [("data",
                          JObj [("id", JStr (role_id role));
                                ("name", JStr (role_name role));
                                ("created_at", date (role_createdAt role));
                                ("updated_at", date (role_updatedAt role))])]))).

(** [let page = Number(...); if (!page) { page = 1; }]: [NaN] and [0] are
    falsy. *)
Definition page_or_1 (n : JsNumber) : Z :=
  match n with
  | NaN => 1
  | Int z => if (z =? 0)%Z then 1 else z
  end.

(** [Number(page) <= 1 ? 0 : (Number(page) - 1) * 10] *)
Definition page_offset (page : Z) : Z :=
  if (page <=? 1)%Z then 0 else (page - 1) * 10.

(** [page <= 1 ? 1 : page] *)
Definition page_shown (page : Z) : Z :=
  if (page <=? 1)%Z then 1 else page.

(** [Math.ceil(total / 10)] *)
Definition ceil_tenth (total : nat) : Z := (- ((- Z.of_nat total) / 10))%Z.

Definition page_meta (total : nat) (page : Z) : JsVal :=
  JObj [("total", JNum (Z.of_nat total));
        ("pages", JNum (ceil_tenth total));
        ("page", JNum (page_shown page))].

(** [getAllRole]: the page is read from the request body. *)
Definition getAllRole : Middleware :=
  fun req =>
    try_catch_next (
      let page := page_or_1 (req_body_page req) in
      roles <- query (fun db =>
                 findAll (fun _ => true) 10 (Z.to_nat (page_offset page)) (roles db)) ;;
      total <- query (fun db => count (fun _ => true) (Models.roles db)) ;;
      ret (ok req (JObj [("meta", page_meta total page);
                         ("data", JArr (map role_json roles))]))).

(** The character class [[\s\W-]] of the slug pattern. [\s] is white
    space, [\W] is every character that is not an ASCII letter, a digit or
    the underscore. *)
Definition is_space (c : ascii) : bool :=
  let n := N_of_ascii c in
  (((9 <=? n) && (n <=? 13)) || (n =? 32) || (n =? 160))%N.

Definition is_word (c : ascii) : bool :=
  let n := N_of_ascii c in
  (((48 <=? n) && (n <=? 57)) || ((65 <=? n) && (n <=? 90))
   || ((97 <=? n) && (n <=? 122)) || (n =? 95))%N.

Definition slug_class (c : ascii) : bool :=
  is_space c || negb (is_word c) || Ascii.eqb c "-".

(** [s.replace(/[...]+/g, "-")] for a character class: scanning from the
    left, each longest run of characters of the class becomes one "-".
    [in_run] says that the character before belongs to the run being
    replaced. *)
Fixpoint replace_runs (class : ascii -> bool) (in_run : bool) (s : string)
  : string :=
  match s with
  | EmptyString => EmptyString
  | String c s' =>
      if class c
      then if in_run then replace_runs class true s'
           else String "-" (replace_runs class true s')
      else String c (replace_runs class false s')
  end.

(** [name.toLowerCase().replace(/[\s\W-]+/g, "-")] *)
Definition slug_of (name : string) : string :=
  replace_runs slug_class false (toLowerCase name).

(** [createCommunity] *)
Definition createCommunity (d : Draws) : Middleware :=
  fun req =>
    try_catch_next (
      userId <- currentUserId req ;;
      user <- query (fun db => findByPk user_id (users db) userId) ;;
      match user with
      | None =>
          throw (ParametricError
                   [parametric "user" "User not found." "RESOURCE_NOT_FOUND"])
      | Some _ =>
          let name := body req "name" in
          let id := snowflake d 0 in
          match name with
          | None =>
              rejected "Cannot read properties of undefined (reading 'toLowerCase')"
          | Some name =>
              community <- Community_create d id name (slug_of name) userId ;;
              role <- query (fun db =>
                        findOne (fun r => role_name r =? "Community Admin")
                                (roles db)) ;;
              role_and_next <-
                match role with
                | Some role => ret (role, 1%nat)
                | None =>
                    role <- Role_create d (snowflake d 1) (Some "Community Admin") ;;
                    ret (role, 2%nat)
                end ;;
              let role := fst role_and_next in
              member <- Member_create d (snowflake d (snd role_and_next))
                          userId (Some (community_id community))
                          (Some (role_id role)) ;;
              ret (ok req
                     (JObj [("data",
                             JObj [("id", JStr (community_id community));
                                   ("name", JStr (community_name community));
                                   ("slug", JStr (community_slug community));
                                   ("owner", JStr (community_ownerId community));
                                   ("created_at", date (community_createdAt community));
                                   ("updated_at", date (community_updatedAt community))])]))
          end
      end).

(** [addMember] *)
Definition addMember (d : Draws) : Middleware :=
  fun req =>
    try_catch_next (
      let community := body req "community" in
      let role := body req "role" in
      let user := body req "user" in
      roleDoc <- query (fun db => findByPk role_id (roles db) role) ;;
      match roleDoc with
      | None =>
          throw (ParametricError
                   [parametric "role" "Role not found." "RESOURCE_NOT_FOUND"])
      | Some _ =>
          userDoc <- query (fun db => findByPk user_id (users db) user) ;;
          match userDoc with
          | None =>
              throw (ParametricError
                       [parametric "user" "User not found." "RESOURCE_NOT_FOUND"])
          | Some _ =>
              isMember <- findOne_where members
                            [(member_userId, user);
                             (member_communityId, community);
                             (member_roleId, role)] ;;
              match isMember with
              | Some _ =>
                  throw (NonParametricError
                           [nonParametric "User is already added in the community."
                                          "RESOURCE_EXISTS"])
              | None =>
                  isMember <- Member_create d (snowflake d 0) user community role ;;
                  ret (ok req
                         (JObj [("data",
                                 JObj [("id", JStr (member_id isMember));
                                       ("community", JStr (member_communityId isMember));
                                       ("user", JStr (member_userId isMember));
                                       ("role", JStr (member_roleId isMember));
                                       ("created_at", date (member_createdAt isMember))])]))
              end
          end
      end).

(** [removeMember] *)
Definition removeMember : Middleware :=
  fun req =>
    try_catch_next (
      userId <- currentUserId req ;;
      let id := req_params_id req in
      roles <- query (fun db =>
                 filter (fun r => (role_name r =? "Community Admin")
                                  || (role_name r =? "Community Moderator"))
                        (roles db)) ;;
      where_values [userId] ;;;
      communities <- query (fun db =>
                       filter (fun m =>
                                 col_eq (member_userId m) userId
                                 && existsb (fun rl => member_roleId m =? role_id rl) roles)
                              (members db)) ;;
      where_values [id] ;;;
      let targeted (m : Member) : bool :=
        col_eq (member_userId m) id
        && existsb (fun cm => member_communityId m =? member_communityId cm)
                   communities in
      member <- query (fun db => filter targeted (members db)) ;;
      match member with
      | [] =>
          throw (NonParametricError
                   [nonParametric "Member not found." "RESOURCE_NOT_FOUND"])
      | _ :: _ =>
          (fun db =>
             (inr tt,
              set_members db
                (filter (fun m =>
                           negb (existsb (fun mm => member_id m =? member_id mm) member))
                        (members db)))) ;;;
          ret (Send (mkResponse 200 (jsonify (JObj [("status", JBool true)]))
                       (req_session req)))
      end).

End WithLibraries.
End Controllers.
Import Controllers.

(** ** Routes ([routes/], [providers/]) *)

Module Routes.

(** The request as Express hands it to the first middleware of a route:
    nothing is resolved or validated yet. *)
Definition arriving (req : Request) : Request :=
  mkRequest (req_body req) (req_body_page req) (req_query_page req)
    (req_params_id req) (req_session req) None [].

Section WithLibraries.
Context {L : Libraries}.

(** A chain of middlewares: the first that replies ends the request, the
    first that fails hands it to [globalErrorHandler]. [None]: the chain
    is exhausted without a reply. *)
Fixpoint run (chain : list Middleware) (req : Request) (db : Db)
  : option Response * Db :=
  match chain with
  | [] => (None, db)
  | m :: chain' =>
      match m req db with
      | (Next req', db') => run chain' req' db'
      | (Fail err, db') => (Some (globalErrorHandler err req), db')
      | (Send res, db') => (Some res, db')
      end
  end.

Definition route (chain : list Middleware) (req : Request) (db : Db)
  : option Response * Db :=
  run chain (arriving req) db.

(** [authRouter] *)
Definition post_auth_signup (d : Draws) :=
  route [signupUserVal; validateRequest; signupUser d].
Definition post_auth_signout := route [signoutUser].
Definition post_auth_signin (d : Draws) :=
  route [signinUserVal; validateRequest; signinUser d].
Definition get_auth_me := route [currentUser; getMe].

(** [roleRouter] *)
Definition post_role (d : Draws) :=
  route [createRoleVal; validateRequest; createRole d].
Definition get_role := route [getAllRole].

(** [communityRouter] *)
Definition post_community (d : Draws) :=
  route [currentUser; isLoggedIn; createCommunityVal; validateRequest;
         createCommunity d].

(** [memberRouter] *)
Definition post_member (d : Draws) :=
  route [addMemberVal; validateRequest; currentUser; isLoggedIn;
         isCommunityAdmin; addMember d].
Definition delete_member :=
  route [deleteMemberVal; validateRequest; currentUser; isLoggedIn;
         isCommunityModerator; removeMember].

End WithLibraries.
End Routes.
Import Routes.

(** ** A reference implementation of the libraries

    Compact three-part tokens [tag.iat.id], the tag being a keyed digest
    of the rest; salted password hashes [salt$digest]. The digest is a
    stand-in: nothing below depends on which one it is. *)

Module Reference.

(** Decimal numerals. *)
Definition decimal (n : N) : string :=
  NilEmpty.string_of_uint (N.to_uint n).

Definition decimal_Z (z : Z) : string :=
  NilEmpty.string_of_int (Z.to_int z).

Definition parse_decimal_Z (s : string) : option Z :=
  match NilEmpty.int_of_string s with
  | Some d => Some (Z.of_int d)
  | None => None
  end.

(** The text before the first "." and the text after it. *)
Fixpoint split_dot (s : string) : option (string * string) :=
  match s with
  | EmptyString => None
  | String c s' =>
      if Ascii.eqb c "." then Some (EmptyString, s')
      else match split_dot s' with
           | Some (a, b) => Some (String c a, b)
           | None => None
           end
  end.

Fixpoint checksum (acc : N) (s : string) : N :=
  match s with
  | EmptyString => acc
  | String c s' => checksum ((acc * 257 + N_of_ascii c + 1) mod 4294967291) s'
  end.

Definition digest (key data : string) : string :=
  decimal (checksum 0 (key ++ "/" ++ data)).

Definition ref_sign (p : UserPayloadForJwt) (secret : string) (now : Z)
  : option string :=
  if secret =? "" then None
  else
    let claims := decimal_Z now ++ "." ++ payload_id p in
    Some (digest secret claims ++ "." ++ claims).

Definition ref_verify (token secret : string) : option JwtPayload :=
  match split_dot token with
  | Some (tag, claims) =>
      if tag =? digest secret claims then
        match split_dot claims with
        | Some (iat, id) =>
            match parse_decimal_Z iat with
            | Some t => Some (mkJwtPayload (Some id) (Some t))
            | None => None
            end
        | None => None
        end
      else None
  | None => None
  end.

Fixpoint split_dollar (s : string) : option (string * string) :=
  match s with
  | EmptyString => None
  | String c s' =>
      if Ascii.eqb c "$" then Some (EmptyString, s')
      else match split_dollar s' with
           | Some (a, b) => Some (String c a, b)
           | None => None
           end
  end.

Definition ref_hash (data : string) (rounds : nat) (salt : string) : string :=
  salt ++ "$" ++ digest salt data.

Definition ref_compare (data hash : string) : option bool :=
  match split_dollar hash with
  | Some (salt, d) => Some (d =? digest salt data)
  | None => Some false
  end.

(** An address has an "@" with text on both sides. *)
Fixpoint has_at (seen : bool) (s : string) : bool :=
  match s with
  | EmptyString => false
  | String c s' =>
      if Ascii.eqb c "@"
      then seen && negb (s' =? "")
      else has_at true s'
  end.

#[export] Instance RefLib : Libraries := {
  JWT_SECRET := "s3cret";
  jwt_sign := ref_sign;
  jwt_verify := ref_verify;
  bcrypt_hash := ref_hash;
  bcrypt_compare := ref_compare;
  isEmail := has_at false;
  where_undefined_throws := true
}.

End Reference.

(** ** Notions used in the statements *)

Module Statements.

(** The token a request carries: [req.session?.jwt] when it is truthy. *)
Definition token_of (req : Request) : Arg :=
  match req_session req with
  | Some session =>
      match session_jwt session with
      | Some token => if token =? "" then None else Some token
      | None => None
      end
  | None => None
  end.

Definition has_code (code : string) (err : Obj) : Prop :=
  obj_get err "code" = JStr code.

(** A serialized error is field-scoped when it has a [param]. *)
Definition has_param (err : Obj) : Prop :=
  obj_get err "param" <> JUndef.

(** The serialized error of a token that does not verify. *)
Definition user_not_found : Obj :=
  [("param", JStr "user"); ("message", JStr "User not found.");
   ("code", JStr "RESOURCE_NOT_FOUND")].

Fixpoint all_chars (p : ascii -> bool) (s : string) : bool :=
  match s with
  | EmptyString => true
  | String c s' => p c && all_chars p s'
  end.

(** [s] is empty or begins with a character that is kept. *)
Definition starts_kept (keep : ascii -> bool) (s : string) : Prop :=
  match s with
  | EmptyString => True
  | String c _ => keep c = true
  end.

(** [Collapsed keep s t]: [t] is [s] with every maximal run of characters
    that are not kept replaced by one "-". *)
Inductive Collapsed (keep : ascii -> bool) : string -> string -> Prop :=
| Collapsed_end : Collapsed keep "" ""
| Collapsed_keep (c : ascii) (s t : string) :
    keep c = true -> Collapsed keep s t ->
    Collapsed keep (String c s) (String c t)
| Collapsed_run (r s t : string) :
    r <> "" -> all_chars (fun c => negb (keep c)) r = true ->
    starts_kept keep s -> Collapsed keep s t ->
    Collapsed keep (r ++ s) (String "-" t).

(** No "-" follows a "-"; [after_dash] says that a "-" comes just before
    [s]. *)
Fixpoint dashes_apart (after_dash : bool) (s : string) : bool :=
  match s with
  | EmptyString => true
  | String c s' =>
      if Ascii.eqb c "-" then negb after_dash && dashes_apart true s'
      else dashes_apart false s'
  end.

(** ASCII letters and digits: the alphanumeric characters of the
    specification. *)
Definition is_alnum (c : ascii) : bool :=
  let n := N_of_ascii c in
  (((48 <=? n) && (n <=? 57)) || ((65 <=? n) && (n <=? 90))
   || ((97 <=? n) && (n <=? 122)))%N.

(** What a slug is made of: lower-case ASCII letters, digits, "_", "-". *)
Definition is_slug_char (c : ascii) : bool :=
  let n := N_of_ascii c in
  (((48 <=? n) && (n <=? 57)) || ((97 <=? n) && (n <=? 122))
   || (n =? 95) || (n =? 45))%N.

Definition is_upper (c : ascii) : bool :=
  let n := N_of_ascii c in ((65 <=? n) && (n <=? 90))%N.

(** The leading run of characters of a class, and what follows it. *)
Fixpoint run_of (class : ascii -> bool) (s : string) : string :=
  match s with
  | EmptyString => EmptyString
  | String c s' => if class c then String c (run_of class s') else EmptyString
  end.

Fixpoint after_run (class : ascii -> bool) (s : string) : string :=
  match s with
  | EmptyString => EmptyString
  | String c s' => if class c then after_run class s' else s
  end.

(** A block keeps a part of the datastore when no run of it changes that
    part. *)
Definition keeps {A T : Type} (proj : Db -> T) (m : Try A) : Prop :=
  forall db r db', m db = (r, db') -> proj db' = proj db.

(** Some property of the value is named [key], at any depth. *)
Fixpoint mentions_key (key : string) (v : JsVal) : bool :=
  match v with
  | JArr items => existsb (mentions_key key) items
  | JObj fields =>
      existsb (fun f => (fst f =? key) || mentions_key key (snd f)) fields
  | _ => false
  end.

(** The body of a reply that carries the user [u], with the token [meta]
    when there is one. *)
Definition user_reply (u : User) (token : option string) : JsVal :=
  JObj [("status", JBool true);
        ("content",
         JObj (("data",
                JObj [("id", JStr (user_id u)); ("name", JStr (user_name u));
                      ("email", JStr (user_email u));
                      ("created_at", JNum (user_createdAt u))])
               :: match token with
                  | Some t => [("meta", JObj [("access_token", JStr t)])]
                  | None => []
                  end))].

(** An argument that is a string and not empty. *)
Definition present (a : Arg) : bool :=
  match a with
  | Some s => negb (s =? "")
  | None => false
  end.

(** The rows of a (user, community, role) triple. *)
Definition of_triple (user community role : string) (m : Member) : bool :=
  (member_userId m =? user) && (member_communityId m =? community)
  && (member_roleId m =? role).

(** The reply to a caller who is not allowed. *)
Definition not_allowed_reply : JsVal :=
  JObj [("status", JBool false);
        ("errors",
         JArr [JObj [("message", JStr "You are not authorized to perform this action.");
                     ("code", JStr "NOT_ALLOWED_ACCESS")]])].

(** The reply to a second add of the same triple. *)
Definition already_member_reply : JsVal :=
  JObj [("status", JBool false);
        ("errors",
         JArr [JObj [("message", JStr "User is already added in the community.");
                     ("code", JStr "RESOURCE_EXISTS")]])].

(** The reply to an add that went through. *)
Definition member_reply (m : Member) : JsVal :=
  JObj [("status", JBool true);
        ("content",
         JObj [("data",
                JObj [("id", JStr (member_id m));
                      ("community", JStr (member_communityId m));
                      ("user", JStr (member_userId m));
                      ("role", JStr (member_roleId m));
                      ("created_at", JNum (member_createdAt m))])])].

(** The community row the handler inserts, if it inserts one. *)
Definition inserted_community (d : Draws) (req : Request) (db : Db)
  : list Community :=
  match req_currentUser req, body req "name" with
  | Some (mkUserPayload (Some uid)), Some name =>
      match findByPk user_id (users db) (Some uid) with
      | Some _ =>
          if pk_free community_id (communities db) (snowflake d 0)
             && fits 255 (snowflake d 0) && fits 128 name
             && fits 255 (slug_of name)
          then [mkCommunity (snowflake d 0) name (slug_of name) uid
                            (now d) (now d)]
          else []
      | None => []
      end
  | _, _ => []
  end.

Fixpoint no_dot (s : string) : bool :=
  match s with
  | EmptyString => true
  | String c s' => negb (Ascii.eqb c ".") && no_dot s'
  end.

(** The reference libraries with a query layer that lets an [undefined]
    value of a [where] clause through. *)
Definition LenientLib : Libraries := {|
  JWT_SECRET := "s3cret";
  jwt_sign := Reference.ref_sign;
  jwt_verify := Reference.ref_verify;
  bcrypt_hash := Reference.ref_hash;
  bcrypt_compare := Reference.ref_compare;
  isEmail := Reference.has_at false;
  where_undefined_throws := false
|}.

End Statements.
Import Statements.

(** ** A small datastore and some requests *)

Module Example.

Definition draws : Draws :=
  mkDraws 1000 (fun k => "90" ++ Reference.decimal (N.of_nat k)) "salt".

Definition ann : User := mkUser "u1" "Ann" "ann@example.org" "salt$1" 1 1.
Definition bob : User := mkUser "u2" "Bob" "bob@example.org" "salt$2" 1 1.
Definition chess : Community := mkCommunity "c1" "Chess" "chess" "u1" 1 1.
Definition moderator : Role := mkRole "r1" "Community Moderator" 1 1.
Definition plain_member : Role := mkRole "r2" "Community Member" 1 1.
Definition bob_moderates : Member := mkMember "m1" "c1" "u2" "r1" 1 1.

(** Ann owns the community; Bob moderates it. *)
Definition db : Db :=
  mkDb [ann; bob] [moderator; plain_member] [chess] [bob_moderates].

(** The tokens the reference library signs for Ann and for Bob at time
    1700, and Ann's token altered to name Bob. *)
Definition ann_token : string := "528126259.1700.u1".
Definition bob_token : string := "528126260.1700.u2".
Definition forged_token : string := "528126259.1700.u2".

Definition request (fields : list (string * string)) (params_id : Arg)
  (token : Arg) : Request :=
  mkRequest fields NaN NaN params_id (Some (mkSession token)) None [].

End Example.

(** ** Listings ([controllers/community.ts]) and the remaining routes *)

Module Listings.

(** [await Promise.all(rows.map(async (row) => ...))] over reads of the
    datastore: the results in the order of the rows, or the first error. *)
Fixpoint for_each {A B : Type} (f : A -> Try B) (rows : list A) : Try (list B) :=
  match rows with
  | [] => ret []
  | row :: rows' =>
      b <- f row ;;
      bs <- for_each f rows' ;;
      ret (b :: bs)
  end.

(** A community as [res.json] sends the model instance. *)
Definition community_json (c : Community) : JsVal :=
  JObj [("id", JStr (community_id c)); ("name", JStr (community_name c));
        ("slug", JStr (community_slug c));
        ("createdAt", date (community_createdAt c));
        ("updatedAt", date (community_updatedAt c));
        ("ownerId", JStr (community_ownerId c))].

Section WithLibraries.
Context {L : Libraries}.

(** [Model.findAll({ where: { column: value, ... }, limit, offset })] and
    [Model.count({ where: { column: value, ... } })] *)
Definition findAll_where {A : Type} (table : Db -> list A)
  (clause : list ((A -> string) * Arg)) (limit offset : nat) : Try (list A) :=
  where_values (map snd clause) ;;;
  query (fun db =>
           findAll (fun r => forallb (fun c => col_eq (fst c r) (snd c)) clause)
                   limit offset (table db)).

Definition count_where {A : Type} (table : Db -> list A)
  (clause : list ((A -> string) * Arg)) : Try nat :=
  where_values (map snd clause) ;;;
  query (fun db =>
           count (fun r => forallb (fun c => col_eq (fst c r) (snd c)) clause)
                 (table db)).

(** [getAllCommunities] *)
Definition getAllCommunities : Middleware :=
  fun req =>
    try_catch_next (
      let page := page_or_1 (req_query_page req) in
      roles <- query (fun db =>
                 findAll (fun _ => true) 10 (Z.to_nat (page_offset page))
                         (communities db)) ;;
      total <- query (fun db => count (fun _ => true) (communities db)) ;;
      ret (ok req (JObj [("meta", page_meta total page);
                         ("data", JArr (map community_json roles))]))).

(** [getMyOwnedCommunities] *)
Definition getMyOwnedCommunities : Middleware :=
  fun req =>
    try_catch_next (
      userId <- currentUserId req ;;
      let page := page_or_1 (req_query_page req) in
      total <- count_where communities [(community_ownerId, userId)] ;;
      myCommunities <- findAll_where communities [(community_ownerId, userId)]
                         10 (Z.to_nat (page_offset page)) ;;
      ret (ok req (JObj [("meta", page_meta total page);
                         ("data", JArr (map community_json myCommunities))]))).

(** [roleId: { [Op.in]: ids }] *)
Definition role_in (ids : list string) (m : Member) : bool :=
  existsb (fun id => member_roleId m =? id) ids.

(** One entry of [communitiesWithOwners]. *)
Definition joined_entry (mem : Member) : Try JsVal :=
  community <- query (fun db =>
                 findByPk community_id (communities db)
                          (Some (member_communityId mem))) ;;
  community <- deref community ;;
  owner <- query (fun db => getOwner db community) ;;
  ret (JObj [("id", JStr (community_id community));
             ("name", JStr (community_name community));
             ("slug", JStr (community_slug community));
             ("owner", match owner with
                       | Some owner =>
                           JObj [("id", JStr (user_id owner));
                                 ("name", JStr (user_name owner))]
                       | None => JNull
                       end);
             ("created_at", date (community_createdAt community));
             ("updated_at", date (community_updatedAt community))]).

(** [getMyJoinedCommunities] *)
Definition getMyJoinedCommunities : Middleware :=
  fun req =>
    try_catch_next (
      let page := page_or_1 (req_query_page req) in
      userId <- currentUserId req ;;
      memberRole <- query (fun db =>
                      filter (fun r => (role_name r =? "Community Member")
                                       || (role_name r =? "Community Moderator"))
                             (roles db)) ;;
      match memberRole with
      | [] =>
          throw (ParametricError
                   [parametric "role" "Community Member role not found."
                               "RESOURCE_NOT_FOUND";
                    parametric "role" "Community Admin role not found."
                               "RESOURCE_NOT_FOUND"])
      | _ :: _ =>
          let roleId := map role_id memberRole in
          where_values [userId] ;;;
          myMembership <- query (fun db =>
                            findAll (fun m => col_eq (member_userId m) userId
                                              && role_in roleId m)
                                    10 (Z.to_nat (page_offset page)) (members db)) ;;
          where_values [userId] ;;;
          myMemberShipCount <- query (fun db =>
                                 count (fun m => col_eq (member_userId m) userId
                                                 && role_in roleId m)
                                       (members db)) ;;
          communitiesWithOwners <- for_each joined_entry myMembership ;;
          ret (ok req (JObj [("meta", page_meta myMemberShipCount page);
                             ("data", JArr communitiesWithOwners)]))
      end).

(** One entry of [membersExtended]. *)
Definition member_entry (mem : Member) : Try JsVal :=
  role <- query (fun db => findByPk role_id (roles db) (Some (member_roleId mem))) ;;
  user <- query (fun db => findByPk user_id (users db) (Some (member_userId mem))) ;;
  user <- deref user ;;
  role <- deref role ;;
  ret (JObj [("id", JStr (member_id mem));
             ("community", JStr (member_communityId mem));
             ("user", JObj [("id", JStr (user_id user));
                            ("name", JStr (user_name user))]);
             ("role", JObj [("id", JStr (role_id role));
                            ("name", JStr (role_name role))])]).

(** [getAllMembers] *)
Definition getAllMembers : Middleware :=
  fun req =>
    try_catch_next (
      let id := req_params_id req in
      let page := page_or_1 (req_query_page req) in
      members <- findAll_where members [(member_communityId, id)]
                   10 (Z.to_nat (page_offset page)) ;;
      totalMembers <- count_where Models.members [(member_communityId, id)] ;;
      membersExtended <- for_each member_entry members ;;
      ret (ok req (JObj [("meta", page_meta totalMembers page);
                         ("data", JArr membersExtended)]))).

(** [communityRouter], the listings *)
Definition get_community := route [getAllCommunities].
Definition get_community_me_owner :=
  route [currentUser; isLoggedIn; getMyOwnedCommunities].
Definition get_community_members :=
  route [getAllMembersVal; validateRequest; getAllMembers].
Definition get_community_me_member :=
  route [currentUser; isLoggedIn; getMyJoinedCommunities].

End WithLibraries.
End Listings.
Import Listings.

(** ** More notions used in the statements *)

Module MoreStatements.

(** An error as the validation chains record it. *)
Definition recorded (value : JsVal) (msg path location : string) : Obj :=
  [("type", JStr "field"); ("value", value); ("msg", JStr msg);
   ("path", JStr path); ("location", JStr location)].

Definition is_recorded (err : Obj) : Prop :=
  exists value msg path location, err = recorded value msg path location.

(** The message of a recorded error is the default one, in any case of
    letters. *)
Definition default_message (err : Obj) : bool :=
  match obj_get err "msg" with
  | JStr msg => toLowerCase msg =? "invalid value"
  | _ => false
  end.

(** What the reply says of a recorded error. *)
Definition reported (err : Obj) : Obj :=
  [("param", obj_get err "path"); ("message", obj_get err "msg");
   ("code", JStr "INVALID_INPUT")].

(** The body of a reply with a list of errors. *)
Definition errors_reply (errors : list Obj) : JsVal :=
  JObj [("status", JBool false); ("errors", JArr (map JObj errors))].

Definition field_error_reply (param message code : string) : JsVal :=
  errors_reply [parametric param message code].

Definition general_error_reply (message code : string) : JsVal :=
  errors_reply [nonParametric message code].

Definition not_signed_in_reply : JsVal :=
  general_error_reply "You need to sign in to proceed." "NOT_SIGNEDIN".

(** A request with another page number in its body, in its query. *)
Definition with_body_page (req : Request) (n : JsNumber) : Request :=
  mkRequest (req_body req) n (req_query_page req) (req_params_id req)
    (req_session req) (req_currentUser req) (req_validation req).

Definition with_query_page (req : Request) (n : JsNumber) : Request :=
  mkRequest (req_body req) (req_body_page req) n (req_params_id req)
    (req_session req) (req_currentUser req) (req_validation req).

(** [content.data] of a reply, when it is an array. *)
Definition data_of (res : option Response) : list JsVal :=
  match res with
  | Some res =>
      match res_body res with
      | JObj fields =>
          match obj_get fields "content" with
          | JObj content =>
              match obj_get content "data" with
              | JArr items => items
              | _ => []
              end
          | _ => []
          end
      | _ => []
      end
  | None => []
  end.

(** The pages [1 .. n]. *)
Definition pages_upto (n : nat) : list Z := map (fun k => Z.of_nat (S k)) (seq 0 n).

(** The body of a listing reply. *)
Definition listing_reply (total : nat) (page : Z) (data : list JsVal) : JsVal :=
  JObj [("status", JBool true);
        ("content",
         JObj [("meta",
                JObj [("total", JNum (Z.of_nat total));
                      ("pages", JNum (ceil_tenth total));
                      ("page", JNum page)]);
               ("data", JArr data)])].

(** The page a request asks for, at least 1. *)
Definition page_asked (n : JsNumber) : Z :=
  match n with
  | NaN => 1%Z
  | Int z => Z.max 1 z
  end.

(** The rows of page [page], ten to a page. *)
Definition page_rows {A : Type} (page : Z) (rows : list A) : list A :=
  firstn 10 (skipn (Z.to_nat (10 * (page - 1))) rows).

(** Primary keys are unique in every table, and so are e-mails. *)
Definition keys_unique (db : Db) : Prop :=
  NoDup (map user_id (users db))
  /\ NoDup (map user_email (users db))
  /\ NoDup (map role_id (roles db))
  /\ NoDup (map community_id (communities db))
  /\ NoDup (map member_id (members db)).

(** A middleware keeps a property of the datastore. *)
Definition preserves (P : Db -> Prop) (m : Middleware) : Prop :=
  forall req db step db', P db -> m req db = (step, db') -> P db'.

Definition try_preserves {A : Type} (P : Db -> Prop) (m : Try A) : Prop :=
  forall db r db', P db -> m db = (r, db') -> P db'.

(** A reply is a success (status 200, [status: true]) or a failure
    (status 400, [status: false]). *)
Definition success (res : Response) : Prop :=
  res_status res = 200%Z
  /\ exists fields, res_body res = JObj (("status", JBool true) :: fields).

Definition failure (res : Response) : Prop :=
  res_status res = 400%Z
  /\ exists fields, res_body res = JObj (("status", JBool false) :: fields).

(** What a [try] block returns, when it does not throw. *)
Definition try_returns (Q : Step -> Prop) (block : Try Step) : Prop :=
  forall db step db', block db = (inr step, db') -> Q step.

(** What a middleware does, when it does not fail. *)
Definition returns (Q : Step -> Prop) (m : Middleware) : Prop :=
  forall req db step db',
    m req db = (step, db') -> (exists err, step = Fail err) \/ Q step.

Definition passing (step : Step) : Prop := exists req, step = Next req.

Definition replying (step : Step) : Prop :=
  exists res, step = Send res /\ success res.

(** A field that is a string of two characters or more. *)
Definition long_enough (a : Arg) : bool :=
  match a with
  | Some s => (2 <=? String.length s)%nat
  | None => false
  end.

(** A field that is an e-mail address. *)
Definition accepts_email {L : Libraries} (a : Arg) : bool :=
  match a with
  | Some e => isEmail e
  | None => false
  end.

(** Some user has the e-mail address. *)
Definition email_taken (db : Db) (email : string) : bool :=
  existsb (fun u => user_email u =? email) (users db).

(** A request that carries the session a reply has set. *)
Definition with_session_of (req : Request) (res : Response) : Request :=
  with_session req (res_session res).

(** The caller a request resolves to: the [id] of its token, when the
    token verifies and the [id] is a string that is not empty. *)
Definition caller_id {L : Libraries} (req : Request) : Arg :=
  match token_of req with
  | Some token =>
      match jwt_verify token JWT_SECRET with
      | Some payload =>
          match jwt_id payload with
          | Some id => if id =? "" then None else Some id
          | None => None
          end
      | None => None
      end
  | None => None
  end.

(** The token of the request verifies. *)
Definition signed_in {L : Libraries} (req : Request) : bool :=
  match token_of req with
  | Some token =>
      match jwt_verify token JWT_SECRET with
      | Some _ => true
      | None => false
      end
  | None => false
  end.


(** A role that manages a community: one named Community Admin or
    Community Moderator. *)
Definition managing_role (db : Db) (roleId : string) : bool :=
  existsb (fun r => (role_id r =? roleId)
                    && ((role_name r =? "Community Admin")
                        || (role_name r =? "Community Moderator")))
          (roles db).

(** The caller manages the community: some Member row gives the caller a
    managing role in it. *)
Definition manages (db : Db) (caller community : string) : bool :=
  existsb (fun m => (member_userId m =? caller)
                    && (member_communityId m =? community)
                    && managing_role db (member_roleId m))
          (members db).

(** The rows of user [id] in the communities the caller manages. *)
Definition targeted (db : Db) (caller id : string) (m : Member) : bool :=
  (member_userId m =? id) && manages db caller (member_communityId m).











(** The replies to a community and to a role that were created. *)
Definition community_reply (c : Community) : JsVal :=
  JObj [("status", JBool true);
        ("content",
         JObj [("data",
                JObj [("id", JStr (community_id c));
                      ("name", JStr (community_name c));
                      ("slug", JStr (community_slug c));
                      ("owner", JStr (community_ownerId c));
                      ("created_at", JNum (community_createdAt c));
                      ("updated_at", JNum (community_updatedAt c))])])].

Definition role_reply (r : Role) : JsVal :=
  JObj [("status", JBool true);
        ("content",
         JObj [("data",
                JObj [("id", JStr (role_id r));
                      ("name", JStr (role_name r));
                      ("created_at", JNum (role_createdAt r));
                      ("updated_at", JNum (role_updatedAt r))])])].

(** An identifier that can be the key of a new row of a table. *)
Definition new_key {A : Type} (pk : A -> string) (rows : list A) (id : string)
  : Prop :=
  pk_free pk rows id = true /\ fits 255 id = true.

(** The role named Community Admin, if there is one. *)
Definition admin_role (db : Db) : option Role :=
  find (fun r => role_name r =? "Community Admin") (roles db).

(** The routes of the application, and those that only read. *)
Definition Route : Type := Request -> Db -> option Response * Db.

Definition reading_routes {L : Libraries} (d : Draws) : list Route :=
  [post_auth_signout; post_auth_signin d; get_auth_me; get_role; get_community;
   get_community_me_owner; get_community_members; get_community_me_member].

Definition all_routes {L : Libraries} (d : Draws) : list Route :=
  [post_auth_signup d; post_role d; post_community d; post_member d;
   delete_member] ++ reading_routes d.

End MoreStatements.
Import MoreStatements.

(** ** More example data *)

Module MoreExamples.

(** A later request: another time, other identifiers. *)
Definition later : Draws :=
  mkDraws 2000 (fun k => "91" ++ Reference.decimal (N.of_nat k)) "salt".

(** Cat signs up. *)
Definition cat_signs_up : Request :=
  Example.request
    [("name", "Cat"); ("email", "cat@example.org"); ("password", "pw-cat")]
    None None.

Definition cat_token : string := "222449070.1000.900".
Definition cat_token_later : string := "897236574.2000.900".

(** The example datastore before any role or member is created. *)
Definition without_roles : Db :=
  mkDb [Example.ann; Example.bob] [] [Example.chess] [].

End MoreExamples.

(** ** Objects *)

Lemma obj_get_set_same (o : Obj) (k : string) (v : JsVal) :
  obj_get (obj_set o k v) k = v.
Proof.
  induction o as [|[k' v'] o IH]; simpl.
  - now rewrite String.eqb_refl.
  - destruct (k' =? k) eqn:E; simpl; rewrite E; auto.
Qed.

Lemma renameKeys_code (obj : Obj) (keyMap : KeyMap) :
  obj_get (renameKeys obj keyMap) "code" = JStr "INVALID_INPUT".
Proof. unfold renameKeys. apply obj_get_set_same. Qed.

(** ** The request validator *)

Section Validator.

Lemma validateRequest_outcome (req : Request) (db : Db) :
  validateRequest req db =
    (match req_validation req with
     | [] => Next req
     | _ :: _ =>
         match worded (req_validation req) with
         | Some kept => Fail (ParametricError (map (fun err => renameKeys err keyMap) kept))
         | None => Fail (RuntimeError "err.msg.toLowerCase is not a function")
         end
     end, db).
Proof.
  unfold validateRequest. destruct (req_validation req); [reflexivity|].
  destruct (worded _); reflexivity.
Qed.

(** C10. Whatever error [validateRequest] raises, every error it serializes
    carries the code INVALID_INPUT: the raised error is the batch of the
    surviving validation errors with their keys renamed, and [renameKeys]
    sets [code] to "INVALID_INPUT" on each of them, whatever the object
    and the key map are. (The only other error it can raise is the
    [TypeError] of a message that is not a string; it serializes to
    nothing.) *)
Theorem validation_errors_carry_INVALID_INPUT
  (req : Request) (db db' : Db) (err : Thrown)
  (H : validateRequest req db = (Fail err, db')) :
  Forall (has_code "INVALID_INPUT") (serializeErrors err)
  /\ match err with
     | ParametricError errors =>
         Forall (has_code "INVALID_INPUT") errors
         /\ exists kept, worded (req_validation req) = Some kept
                         /\ errors = map (fun e => renameKeys e keyMap) kept
     | NonParametricError _ => False
     | RuntimeError _ => worded (req_validation req) = None
     end
  /\ forall (obj : Obj) (km : KeyMap), has_code "INVALID_INPUT" (renameKeys obj km).
Proof.
  rewrite validateRequest_outcome in H.
  assert (R : forall kept,
             Forall (has_code "INVALID_INPUT")
                    (map (fun e => renameKeys e keyMap) kept)).
  { intros kept. apply Forall_forall. intros e He.
    apply in_map_iff in He. destruct He as [x [<- _]]. apply renameKeys_code. }
  destruct (req_validation req) as [|e0 es] eqn:Ev; [discriminate|].
  destruct (worded (e0 :: es)) as [kept|] eqn:Ew; inversion H; subst; clear H.
  - split; [|split].
    + simpl. apply Forall_forall. intros o Ho.
      apply in_map_iff in Ho. destruct Ho as [x [<- Hx]].
      unfold has_code. simpl.
      apply in_map_iff in Hx. destruct Hx as [y [<- _]]. apply renameKeys_code.
    + split; [apply R|]. exists kept. split; reflexivity.
    + intros; apply renameKeys_code.
  - split; [constructor|split; [reflexivity|]]. intros; apply renameKeys_code.
Qed.

End Validator.

(** ** The session codec and the session resolver *)

Section Codec.
Context {L : Libraries}.

(** C4, as the code has it. For every token on which verification fails,
    [decryptSession] raises a field-scoped error: a [ParametricError]
    whose serialization is the single entry with param "user", message
    "User not found." and code RESOURCE_NOT_FOUND. *)
Theorem decryptSession_failure_is_field_error
  (token : string) (H : jwt_verify token JWT_SECRET = None) :
  exists err,
    decryptSession token = inl err
    /\ (exists errors, err = ParametricError errors)
    /\ serializeErrors err = [user_not_found]
    /\ Forall has_param (serializeErrors err).
Proof.
  unfold decryptSession. rewrite H.
  eexists. split; [reflexivity|]. split; [eexists; reflexivity|].
  split; [reflexivity|]. simpl. repeat constructor. discriminate.
Qed.

(** C5. Under the contract of the token library and a secret that is not
    empty, encoding the payload [{ id }] succeeds and decoding the token
    it gives returns [id]. *)
Theorem decryptSession_encryptSession
  (contract : JwtContract L) (secret : JWT_SECRET <> "")
  (id : string) (now : Z) :
  exists token,
    encryptSession (mkUserPayloadForJwt id) now = Some token
    /\ decryptSession token = inr (Some id).
Proof.
  destruct (contract (mkUserPayloadForJwt id) JWT_SECRET now secret)
    as [token [Hs Hv]].
  exists token. split; [exact Hs|].
  unfold decryptSession. rewrite Hv. reflexivity.
Qed.

Lemma currentUser_outcome (req : Request) (db : Db) :
  currentUser req db =
    (Next match token_of req with
          | None => req
          | Some token =>
              match jwt_verify token JWT_SECRET with
              | Some payload =>
                  with_currentUser req (mkUserPayload (jwt_id payload))
              | None => req
              end
          end, db).
Proof.
  unfold currentUser, token_of.
  destruct (req_session req) as [[[token|]]|]; simpl; try reflexivity.
  destruct (token =? ""); [reflexivity|].
  unfold decryptSession. destruct (jwt_verify token JWT_SECRET); reflexivity.
Qed.

(** C3. The session resolver never rejects: on every request it calls
    [next()] without an error and leaves the datastore alone. Without a
    token the request goes on as it came; with a token that does not
    verify the error is swallowed and the request goes on as it came;
    only with a token that verifies is an identity put on the request. *)
Theorem currentUser_never_rejects (req : Request) (db : Db) :
  exists req',
    currentUser req db = (Next req', db)
    /\ match token_of req with
       | None => req' = req
       | Some token =>
           match jwt_verify token JWT_SECRET with
           | None => req' = req
           | Some payload =>
               req' = with_currentUser req (mkUserPayload (jwt_id payload))
           end
       end.
Proof.
  eexists. split; [apply currentUser_outcome|].
  destruct (token_of req); [destruct (jwt_verify _ _)|]; reflexivity.
Qed.

End Codec.


(** ** The reference libraries meet the contract *)

Module ReferenceFacts.
Import Reference.

Lemma split_dot_app (a b : string) :
  no_dot a = true -> split_dot (a ++ "." ++ b) = Some (a, b).
Proof.
  change ("." ++ b) with (String "." b).
  induction a as [|c a IH]; simpl; intros H.
  - reflexivity.
  - apply andb_true_iff in H. destruct H as [Hc Ha].
    apply negb_true_iff in Hc. rewrite Hc, (IH Ha). reflexivity.
Qed.

Lemma no_dot_uint (d : Decimal.uint) :
  no_dot (NilEmpty.string_of_uint d) = true.
Proof. induction d; simpl; auto. Qed.

Lemma no_dot_decimal (n : N) : no_dot (decimal n) = true.
Proof. apply no_dot_uint. Qed.

Lemma no_dot_decimal_Z (z : Z) : no_dot (decimal_Z z) = true.
Proof.
  unfold decimal_Z. destruct (Z.to_int z); simpl; apply no_dot_uint.
Qed.

Lemma parse_decimal_Z_decimal_Z (z : Z) :
  parse_decimal_Z (decimal_Z z) = Some z.
Proof.
  unfold parse_decimal_Z, decimal_Z.
  rewrite NilEmpty.isi, DecimalZ.of_to. reflexivity.
Qed.

Lemma ref_verify_sign (p : UserPayloadForJwt) (secret : string) (now : Z) :
  secret <> "" ->
  exists token,
    ref_sign p secret now = Some token
    /\ ref_verify token secret = Some (mkJwtPayload (Some (payload_id p)) (Some now)).
Proof.
  intros Hs. unfold ref_sign.
  apply String.eqb_neq in Hs. rewrite Hs.
  eexists. split; [reflexivity|].
  unfold ref_verify.
  rewrite split_dot_app by apply no_dot_decimal.
  rewrite String.eqb_refl.
  rewrite split_dot_app by apply no_dot_decimal_Z.
  rewrite parse_decimal_Z_decimal_Z. reflexivity.
Qed.

Lemma RefLib_contract : JwtContract RefLib.
Proof. intros p secret now Hs. apply ref_verify_sign, Hs. Qed.

End ReferenceFacts.


(** ** Slugs *)

Section Slug.
Variable class : ascii -> bool.
Let keep (c : ascii) : bool := negb (class c).

Lemma run_after_run (s : string) : run_of class s ++ after_run class s = s.
Proof.
  induction s as [|c s IH]; simpl; [reflexivity|].
  destruct (class c); simpl; [now rewrite IH | reflexivity].
Qed.

Lemma run_of_all (s : string) :
  all_chars (fun c => negb (keep c)) (run_of class s) = true.
Proof.
  induction s as [|c s IH]; simpl; [reflexivity|].
  destruct (class c) eqn:E; simpl; [|reflexivity].
  unfold keep. rewrite E. exact IH.
Qed.

Lemma after_run_starts_kept (s : string) : starts_kept keep (after_run class s).
Proof.
  induction s as [|c s IH]; simpl; [exact I|].
  destruct (class c) eqn:E; [exact IH|]. simpl. unfold keep. now rewrite E.
Qed.

Lemma after_run_length (s : string) :
  (String.length (after_run class s) <= String.length s)%nat.
Proof.
  induction s as [|c s IH]; simpl; [lia|]. destruct (class c); simpl; lia.
Qed.

Lemma replace_runs_in_run (s : string) :
  replace_runs class true s = replace_runs class false (after_run class s).
Proof.
  induction s as [|c s IH]; simpl; [reflexivity|].
  destruct (class c) eqn:E; [exact IH|]. simpl. now rewrite E.
Qed.

Lemma replace_runs_collapsed_upto (n : nat) :
  forall s, (String.length s <= n)%nat ->
            Collapsed keep s (replace_runs class false s).
Proof.
  induction n as [|n IH]; intros s Hn.
  - destruct s; [constructor | simpl in Hn; lia].
  - destruct s as [|c s]; [constructor|]. simpl in Hn. simpl.
    destruct (class c) eqn:E.
    + rewrite replace_runs_in_run.
      rewrite <- (run_after_run s) at 1.
      change (String c (run_of class s ++ after_run class s))
        with (String c (run_of class s) ++ after_run class s).
      apply Collapsed_run.
      * discriminate.
      * simpl. unfold keep at 1. rewrite E. simpl. apply run_of_all.
      * apply after_run_starts_kept.
      * apply IH. pose proof (after_run_length s). lia.
    + apply Collapsed_keep; [unfold keep; now rewrite E|]. apply IH. lia.
Qed.

Lemma replace_runs_collapsed (s : string) :
  Collapsed keep s (replace_runs class false s).
Proof. apply (replace_runs_collapsed_upto (String.length s)). lia. Qed.

Hypothesis dash_in_class : class "-" = true.

Lemma replace_runs_dashes_apart (s : string) :
  dashes_apart true (replace_runs class true s) = true
  /\ dashes_apart false (replace_runs class false s) = true.
Proof.
  induction s as [|c s [IH1 IH2]]; simpl; [auto|].
  destruct (class c) eqn:E; simpl.
  - rewrite IH1. auto.
  - assert (N : Ascii.eqb c "-" = false).
    { destruct (Ascii.eqb_spec c "-"); [subst; congruence | reflexivity]. }
    rewrite N. auto.
Qed.

Lemma replace_runs_length (b : bool) (s : string) :
  (String.length (replace_runs class b s) <= String.length s)%nat.
Proof.
  revert b. induction s as [|c s IH]; intros b; simpl; [lia|].
  destruct (class c); [destruct b|]; simpl;
    try (pose proof (IH true)); try (pose proof (IH false)); lia.
Qed.

End Slug.

Lemma slug_class_word (c : ascii) : negb (slug_class c) = is_word c.
Proof. destruct c as [[] [] [] [] [] [] [] []]; reflexivity. Qed.

Lemma lower_unit_not_upper (c : ascii) : is_upper (lower_unit c) = false.
Proof. destruct c as [[] [] [] [] [] [] [] []]; reflexivity. Qed.

Lemma word_not_upper_slug_char (c : ascii) :
  slug_class c = false -> is_upper c = false -> is_slug_char c = true.
Proof. destruct c as [[] [] [] [] [] [] [] []]; vm_compute; congruence. Qed.

Lemma toLowerCase_not_upper (s : string) :
  all_chars (fun c => negb (is_upper c)) (toLowerCase s) = true.
Proof.
  induction s as [|c s IH]; simpl; [reflexivity|].
  now rewrite lower_unit_not_upper, IH.
Qed.

Lemma toLowerCase_length (s : string) :
  String.length (toLowerCase s) = String.length s.
Proof. induction s; simpl; auto. Qed.

Lemma replace_runs_slug_chars (b : bool) (s : string) :
  all_chars (fun c => negb (is_upper c)) s = true ->
  all_chars is_slug_char (replace_runs slug_class b s) = true.
Proof.
  revert b. induction s as [|c s IH]; intros b H; simpl; [reflexivity|].
  simpl in H. apply andb_true_iff in H. destruct H as [Hc Hs].
  apply negb_true_iff in Hc.
  destruct (slug_class c) eqn:E.
  - destruct b; simpl; auto.
  - simpl. rewrite (word_not_upper_slug_char c E Hc). simpl. auto.
Qed.

Lemma Collapsed_ext (k1 k2 : ascii -> bool) (s t : string) :
  (forall c, k1 c = k2 c) -> Collapsed k1 s t -> Collapsed k2 s t.
Proof.
  intros E H. induction H.
  - constructor.
  - apply Collapsed_keep; [now rewrite <- E | assumption].
  - apply Collapsed_run; auto.
    + clear -H0 E. induction r as [|c r IH]; simpl in *; [reflexivity|].
      apply andb_true_iff in H0. destruct H0 as [A B].
      rewrite <- E, A. simpl. auto.
    + destruct s; simpl in *; [exact I | now rewrite <- E].
Qed.

(** The slug of a name: the lower-cased name with every maximal run of
    characters other than ASCII letters, digits and "_" replaced by one
    "-"; no "-" follows a "-"; only lower-case ASCII letters, digits, "_"
    and "-" occur; the slug is not longer than the name. *)
Lemma slug_of_spec (name : string) :
  Collapsed is_word (toLowerCase name) (slug_of name)
  /\ dashes_apart false (slug_of name) = true
  /\ all_chars is_slug_char (slug_of name) = true
  /\ (String.length (slug_of name) <= String.length name)%nat.
Proof.
  unfold slug_of. repeat split.
  - apply Collapsed_ext with (k1 := fun c => negb (slug_class c)).
    + apply slug_class_word.
    + apply replace_runs_collapsed.
  - apply replace_runs_dashes_apart. reflexivity.
  - apply replace_runs_slug_chars, toLowerCase_not_upper.
  - rewrite <- (toLowerCase_length name). apply replace_runs_length.
Qed.

(** ** Running a chain *)

Section Chains.

Lemma run_next (m : Middleware) (chain : list Middleware)
  (req req' : Request) (db db' : Db) :
  m req db = (Next req', db') ->
  run (m :: chain) req db = run chain req' db'.
Proof. intros H. simpl. now rewrite H. Qed.

Lemma run_fail (m : Middleware) (chain : list Middleware)
  (req : Request) (db db' : Db) (err : Thrown) :
  m req db = (Fail err, db') ->
  run (m :: chain) req db = (Some (globalErrorHandler err req), db').
Proof. intros H. simpl. now rewrite H. Qed.

Lemma run_last (m : Middleware) (req : Request) (db : Db) :
  run [m] req db =
    match m req db with
    | (Next _, db') => (None, db')
    | (Fail err, db') => (Some (globalErrorHandler err req), db')
    | (Send res, db') => (Some res, db')
    end.
Proof. simpl. destruct (m req db) as [[] ?]; reflexivity. Qed.

Lemma globalErrorHandler_status (err : Thrown) (req : Request) :
  res_status (globalErrorHandler err req) = 400%Z.
Proof. destruct err; reflexivity. Qed.

Lemma validateRequest_clean (req : Request) (db : Db) :
  req_validation req = [] -> validateRequest req db = (Next req, db).
Proof. intros H. unfold validateRequest. now rewrite H. Qed.

Lemma validateRequest_dirty (req : Request) (db : Db) :
  req_validation req <> [] ->
  exists err, validateRequest req db = (Fail err, db).
Proof.
  intros H. unfold validateRequest.
  destruct (req_validation req); [congruence|].
  destruct (worded _); eexists; reflexivity.
Qed.

Lemma isLoggedIn_outcome (req : Request) (db : Db) :
  isLoggedIn req db =
    (match req_currentUser req with
     | None => Fail notAllowed
     | Some _ => Next req
     end, db).
Proof. unfold isLoggedIn. destruct (req_currentUser req); reflexivity. Qed.

End Chains.

(** ** Reasoning about [try] blocks *)

Lemma bind_inv {A B : Type} (m : Try A) (k : A -> Try B) (db db' : Db)
  (r : Thrown + B) :
  bind m k db = (r, db') ->
  (exists e, m db = (inl e, db') /\ r = inl e)
  \/ (exists a db1, m db = (inr a, db1) /\ k a db1 = (r, db')).
Proof.
  unfold bind. destruct (m db) as [[e|a] db1]; intros H.
  - inversion H; subst. left. eauto.
  - right. eauto.
Qed.

Lemma keeps_intro {A T : Type} (proj : Db -> T) (m : Try A) (db0 db' : Db)
  (r : Thrown + A) :
  keeps proj m -> m db0 = (r, db') -> proj db' = proj db0.
Proof. intros K H. exact (K _ _ _ H). Qed.

Lemma keeps_ret {A T : Type} (proj : Db -> T) (a : A) : keeps proj (ret a).
Proof. intros db r db' H. inversion H. reflexivity. Qed.

Lemma keeps_throw {A T : Type} (proj : Db -> T) (e : Thrown) :
  keeps proj (throw (A := A) e).
Proof. intros db r db' H. inversion H. reflexivity. Qed.

Lemma keeps_query {A T : Type} (proj : Db -> T) (q : Db -> A) :
  keeps proj (query q).
Proof. intros db r db' H. inversion H. reflexivity. Qed.

Lemma keeps_bind {A B T : Type} (proj : Db -> T) (m : Try A) (k : A -> Try B) :
  keeps proj m -> (forall a, keeps proj (k a)) -> keeps proj (bind m k).
Proof.
  intros Km Kk db r db' H. apply bind_inv in H.
  destruct H as [(e & H & _)|(a & db1 & H & H')].
  - exact (Km _ _ _ H).
  - rewrite (Kk _ _ _ _ H'). exact (Km _ _ _ H).
Qed.

Section CreateKeeps.
Context {L : Libraries}.

Lemma keeps_where_values {T : Type} (proj : Db -> T) (args : list Arg) :
  keeps proj (where_values args).
Proof.
  unfold where_values. destruct (_ && _); [apply keeps_throw|apply keeps_ret].
Qed.

Lemma keeps_Role_create_communities (d : Draws) (id : string) (name : Arg) :
  keeps communities (Role_create d id name).
Proof.
  unfold Role_create, rejected. destruct name; [|apply keeps_throw].
  intros db r db' H. destruct (_ && _); inversion H; reflexivity.
Qed.

Lemma keeps_Member_create_communities (d : Draws) (id : string)
  (userId communityId roleId : Arg) :
  keeps communities (Member_create d id userId communityId roleId).
Proof.
  unfold Member_create, rejected.
  destruct userId, communityId, roleId; try apply keeps_throw.
  intros db r db' H. destruct (_ && _); inversion H; reflexivity.
Qed.

End CreateKeeps.

(** ** Creating a community *)

Section CreateCommunity.
Context {L : Libraries}.

(** The one rule of [createCommunityVal] records nothing exactly when the
    name is a string of two characters or more. *)
Lemma createCommunityVal_outcome (req : Request) (db : Db) :
  exists errs,
    createCommunityVal req db = (Next (with_validation req (req_validation req ++ errs)), db)
    /\ (errs = [] <->
        exists name, body req "name" = Some name /\ (2 <= String.length name)%nat).
Proof.
  unfold createCommunityVal, run_rules. eexists. split; [reflexivity|].
  simpl. unfold run_chain, field_value. simpl.
  destruct (body req "name") as [name|] eqn:E; simpl.
  - destruct name as [|a [|b name]]; simpl; split; intros H;
      try discriminate;
      try (destruct H as (n & Hn & Hl); inversion Hn; subst; simpl in Hl; lia).
    + exists (String a (String b name)). split; [reflexivity|simpl; lia].
    + reflexivity.
  - split; [discriminate|]. intros [n [Hn _]]. discriminate.
Qed.

Lemma Community_create_outcome (d : Draws) (id name slug : string)
  (ownerId : Arg) (db db' : Db) (r : Thrown + Community) :
  Community_create d id name slug ownerId db = (r, db') ->
  (exists e, r = inl e /\ db' = db)
  \/ (exists c, r = inr c
                /\ db' = set_communities db (communities db ++ [c])
                /\ community_id c = id /\ community_name c = name
                /\ community_slug c = slug).
Proof.
  unfold Community_create, rejected, throw. intros H.
  destruct ownerId as [ownerId|]; [|inversion H; subst; eauto].
  destruct (pk_free community_id (communities db) id && fits 255 id
            && fits 128 name && fits 255 slug);
    inversion H; subst; [right|left]; eauto 10.
Qed.

Lemma createCommunity_communities (d : Draws) (req : Request) (db db' : Db)
  (out : Step) :
  createCommunity d req db = (out, db') ->
  communities db' = (communities db ++ inserted_community d req db)%list.
Proof.
  intros H. unfold createCommunity, try_catch_next in H.
  destruct (bind _ _ db) as [r db1] eqn:B.
  assert (communities db' = communities db1) as ->
    by (destruct r; inversion H; reflexivity).
  clear H out.
  unfold inserted_community, currentUserId in *.
  destruct (req_currentUser req) as [[uid]|];
    [|inversion B; subst; now rewrite app_nil_r].
  unfold bind at 1 2 in B. cbn [ret query currentUser_id] in B.
  destruct uid as [uid|];
    [|inversion B; subst; now rewrite app_nil_r].
  destruct (findByPk user_id (users db) (Some uid));
    [|inversion B; subst; destruct (body req "name"); now rewrite app_nil_r].
  destruct (body req "name") as [name|];
    [|inversion B; subst; now rewrite app_nil_r].
  apply bind_inv in B. destruct B as [(e & B & _)|(c & db2 & B & K)].
  - unfold Community_create in B. destruct (_ && _)%bool; inversion B.
    now rewrite app_nil_r.
  - unfold Community_create in B.
    destruct (_ && _)%bool; inversion B; subst; clear B.
    revert K. apply keeps_intro with (proj := communities).
    repeat first
      [ apply keeps_bind; [|intros ?]
      | apply keeps_ret | apply keeps_throw | apply keeps_query
      | apply keeps_Role_create_communities
      | apply keeps_Member_create_communities
      | match goal with |- keeps _ (match ?x with _ => _ end) => destruct x end ].
Qed.

(** What [POST /community] adds to the table of communities. *)
Lemma post_community_communities (d : Draws) (req : Request) (db : Db) :
  exists rows,
    communities (snd (post_community d req db)) = (communities db ++ rows)%list
    /\ (rows = []
        \/ exists name uid,
             body req "name" = Some name
             /\ (2 <= String.length name)%nat
             /\ rows = [mkCommunity (snowflake d 0) name (slug_of name) uid
                                    (now d) (now d)])
    /\ forall token payload uid name,
         token_of req = Some token ->
         jwt_verify token JWT_SECRET = Some payload ->
         jwt_id payload = Some uid ->
         findByPk user_id (users db) (Some uid) <> None ->
         body req "name" = Some name ->
         (2 <= String.length name <= 128)%nat ->
         pk_free community_id (communities db) (snowflake d 0) = true ->
         fits 255 (snowflake d 0) = true ->
         rows = [mkCommunity (snowflake d 0) name (slug_of name) uid
                             (now d) (now d)].
Proof.
  unfold post_community, route.
  rewrite (run_next _ _ _ _ _ _ (currentUser_outcome _ _)).
  set (req1 := match token_of (arriving req) with
               | Some _ => _ | None => _ end).
  assert (Hb1 : body req1 "name" = body req "name")
    by (subst req1; destruct (token_of _); [destruct (jwt_verify _ _)|]; reflexivity).
  assert (Hv1 : req_validation req1 = [])
    by (subst req1; destruct (token_of _); [destruct (jwt_verify _ _)|]; reflexivity).
  assert (Hc1 : req_currentUser req1 =
                match token_of req with
                | Some token =>
                    match jwt_verify token JWT_SECRET with
                    | Some payload => Some (mkUserPayload (jwt_id payload))
                    | None => None
                    end
                | None => None
                end).
  { subst req1. change (token_of (arriving req)) with (token_of req).
    destruct (token_of req); [destruct (jwt_verify _ _)|]; reflexivity. }
  clearbody req1.
  destruct (req_currentUser req1) as [u1|] eqn:Hcu.
  2:{ rewrite (run_fail _ _ _ _ _ _ (eq_trans (isLoggedIn_outcome _ _)
                 ltac:(rewrite Hcu; reflexivity))).
      exists []. simpl. rewrite app_nil_r. split; [reflexivity|]. split; [auto|].
      intros token payload uid name Ht Hp. rewrite Ht, Hp in Hc1. discriminate. }
  rewrite (run_next _ _ _ _ _ _ (eq_trans (isLoggedIn_outcome _ _)
             ltac:(rewrite Hcu; reflexivity))).
  destruct (createCommunityVal_outcome req1 db) as (errs & Hval & Herrs).
  rewrite (run_next _ _ _ _ _ _ Hval). rewrite Hv1. simpl app.
  destruct errs as [|e errs].
  - destruct (proj1 Herrs eq_refl) as (name & Hname & Hlen).
    rewrite (run_next _ _ _ _ _ _
               (validateRequest_clean (with_validation req1 []) db eq_refl)).
    rewrite run_last.
    destruct (createCommunity d (with_validation req1 []) db) as [out db'] eqn:Hcc.
    pose proof (createCommunity_communities _ _ _ _ _ Hcc) as Hrows.
    assert (Hdb : communities (snd (match out with
                                     | Next _ => (None, db')
                                     | Fail err =>
                                         (Some (globalErrorHandler err (with_validation req1 [])), db')
                                     | Send res => (Some res, db')
                                     end)) = communities db')
      by (destruct out; reflexivity).
    rewrite Hdb, Hrows. eexists. split; [reflexivity|].
    unfold inserted_community.
    change (req_currentUser (with_validation req1 [])) with (req_currentUser req1).
    change (body (with_validation req1 []) "name") with (body req1 "name").
    rewrite Hcu, Hname. rewrite Hb1 in Hname. split.
    + destruct u1 as [[uid|]]; auto.
      destruct (findByPk _ _ _); auto. destruct (_ && _)%bool; auto.
      right. exists name, uid. auto.
    + intros token payload uid name' Ht Hp Hid Hu Hn' Hl' Hpk Hfit.
      rewrite Ht, Hp, Hid in Hc1. inversion Hc1; subst u1.
      rewrite Hn' in Hname. inversion Hname; subst name'.
      destruct (findByPk user_id (users db) (Some uid)); [|congruence].
      rewrite Hpk, Hfit. unfold fits.
      pose proof (proj2 (proj2 (proj2 (slug_of_spec name)))) as Hs.
      replace (String.length name <=? 128)%nat with true
        by (symmetry; apply Nat.leb_le; lia).
      replace (String.length (slug_of name) <=? 255)%nat with true
        by (symmetry; apply Nat.leb_le; lia).
      reflexivity.
  - assert (Hne : req_validation (with_validation req1 (e :: errs)) <> [])
      by discriminate.
    destruct (validateRequest_dirty _ db Hne) as [err Herr].
    rewrite (run_fail _ _ _ _ _ _ Herr).
    exists []. simpl. rewrite app_nil_r. split; [reflexivity|]. split; [auto|].
    intros token payload uid name Ht Hp Hid Hu Hn Hl.
    rewrite <- Hb1 in Hn.
    assert (X : e :: errs = []) by (apply Herrs; exists name; split; [exact Hn|lia]).
    discriminate.
Qed.

End CreateCommunity.

(** ** Listing roles *)

Section Roles.

Lemma filter_all {A : Type} (l : list A) : filter (fun _ => true) l = l.
Proof. induction l; simpl; congruence. Qed.

Lemma jsonify_roles (rs : list Role) :
  map (fun x => match x with
                | JUndef => JNull
                | _ => jsonify x
                end) (map role_json rs) = map role_json rs.
Proof. induction rs as [|r rs IH]; simpl; [reflexivity|]. now rewrite IH. Qed.

Lemma ceil_tenth_bounds (total : nat) :
  (10 * (ceil_tenth total - 1) < Z.of_nat total <= 10 * ceil_tenth total)%Z.
Proof.
  unfold ceil_tenth.
  pose proof (Z.div_mod (- Z.of_nat total) 10 ltac:(lia)).
  pose proof (Z.mod_pos_bound (- Z.of_nat total) 10 ltac:(lia)).
  lia.
Qed.

Lemma page_shown_or_1 (n : JsNumber) :
  page_shown (page_or_1 n) = match n with
                             | NaN => 1%Z
                             | Int z => Z.max 1 z
                             end.
Proof.
  unfold page_shown, page_or_1. destruct n as [|z]; [reflexivity|].
  destruct (Z.eqb_spec z 0); [subst; reflexivity|].
  destruct (Z.leb_spec z 1); lia.
Qed.

Lemma page_offset_shown (page : Z) :
  page_offset page = (10 * (page_shown page - 1))%Z.
Proof. unfold page_offset, page_shown. destruct (Z.leb_spec page 1); lia. Qed.


End Roles.

(** ** Replies that carry a user *)

Section UserReplies.
Context {L : Libraries}.

Lemma user_reply_keys (u : User) (token : option string) :
  mentions_key "password" (user_reply u token) = false.
Proof. destruct token; reflexivity. Qed.

Lemma try_catch_next_send (block : Try Step) (db db' : Db) (res : Response) :
  try_catch_next block db = (Send res, db') ->
  block db = (inr (Send res), db').
Proof.
  unfold try_catch_next. destruct (block db) as [[e|s] db1]; intros H;
    inversion H; subst; reflexivity.
Qed.

Lemma findOne_where_inv {A : Type} (table : Db -> list A)
  (clause : list ((A -> string) * Arg)) (db db' : Db) (r : Thrown + option A) :
  findOne_where table clause db = (r, db') ->
  db' = db
  /\ (r = inr (findOne (fun row => forallb (fun c => col_eq (fst c row) (snd c)) clause)
                       (table db))
      \/ exists e, r = inl e).
Proof.
  unfold findOne_where, where_values, bind, query, throw, ret.
  destruct (_ && _)%bool; intros H; inversion H; subst; eauto.
Qed.

Lemma findOne_In {A : Type} (p : A -> bool) (rows : list A) (a : A) :
  findOne p rows = Some a -> In a rows.
Proof. intros H. apply find_some in H. tauto. Qed.

Lemma signed_inv (payload : UserPayloadForJwt) (d : Draws) (db db' : Db)
  (r : Thrown + string) :
  signed payload d db = (r, db') ->
  db' = db
  /\ (forall t, r = inr t -> encryptSession payload (now d) = Some t).
Proof.
  unfold signed, rejected, throw, ret.
  destruct (encryptSession payload (now d)); intros H; inversion H; subst;
    split; auto; intros t E; inversion E; reflexivity.
Qed.

Lemma User_create_inv (d : Draws) (id : string) (name email password : Arg)
  (db db' : Db) (u : User) :
  User_create d id name email password db = (inr u, db') ->
  In u (users db') /\ user_id u = id.
Proof.
  unfold User_create, rejected, throw.
  destruct email as [email|], password as [password|]; try discriminate.
  destruct (negb (isEmail email)); [discriminate|].
  destruct (_ && _)%bool; intros H; inversion H; subst; clear H. simpl.
  split; [apply in_or_app; right; left; reflexivity | reflexivity].
Qed.

Lemma signupUser_send (d : Draws) (req : Request) (db db' : Db) (res : Response) :
  signupUser d req db = (Send res, db') ->
  exists u token,
    In u (users db')
    /\ encryptSession (mkUserPayloadForJwt (user_id u)) (now d) = Some token
    /\ res_status res = 200%Z
    /\ res_body res = user_reply u (Some token).
Proof.
  intros H. apply try_catch_next_send in H. unfold signupUser in H.
  apply bind_inv in H. destruct H as [(e & _ & E)|(existing & db1 & F & H)];
    [discriminate|].
  apply findOne_where_inv in F. destruct F as [-> _].
  destruct existing; [discriminate|].
  apply bind_inv in H. destruct H as [(e & _ & E)|(u & db2 & C & H)];
    [discriminate|].
  apply User_create_inv in C. destruct C as [Hin Hid].
  apply bind_inv in H. destruct H as [(e & _ & E)|(token & db3 & S & H)];
    [discriminate|].
  apply signed_inv in S. destruct S as [-> S].
  inversion H; subst; clear H.
  exists u, token. repeat split; auto.
Qed.

Lemma signinUser_send (d : Draws) (req : Request) (db db' : Db) (res : Response) :
  signinUser d req db = (Send res, db') ->
  exists u token,
    In u (users db')
    /\ encryptSession (mkUserPayloadForJwt (user_id u)) (now d) = Some token
    /\ res_status res = 200%Z
    /\ res_body res = user_reply u (Some token).
Proof.
  intros H. apply try_catch_next_send in H. unfold signinUser in H.
  apply bind_inv in H. destruct H as [(e & _ & E)|(found & db1 & F & H)];
    [discriminate|].
  apply findOne_where_inv in F. destruct F as [-> [F|[e F]]]; [|discriminate].
  inversion F; subst found; clear F.
  destruct (findOne _ _) as [u|] eqn:Fu; [|discriminate].
  apply findOne_In in Fu.
  apply bind_inv in H. destruct H as [(e & _ & E)|(isMatched & db2 & C & H)];
    [discriminate|].
  assert (db2 = db) as ->.
  { unfold of_sum, throw, ret in C.
    destruct (comparePasswords _ _); inversion C; reflexivity. }
  destruct (negb isMatched); [discriminate|].
  apply bind_inv in H. destruct H as [(e & _ & E)|(token & db3 & S & H)];
    [discriminate|].
  apply signed_inv in S. destruct S as [-> S].
  inversion H; subst; clear H.
  exists u, token. repeat split; auto.
Qed.

Lemma getMe_send (req : Request) (db db' : Db) (res : Response) :
  getMe req db = (Send res, db') ->
  exists u,
    In u (users db')
    /\ res_status res = 200%Z
    /\ res_body res = user_reply u None.
Proof.
  intros H. apply try_catch_next_send in H. unfold getMe in H.
  destruct (no_currentUser_id req); [discriminate|].
  apply bind_inv in H. destruct H as [(e & _ & E)|(uid & db1 & U & H)];
    [discriminate|].
  assert (db1 = db) as ->.
  { unfold currentUserId, throw, ret in U.
    destruct (req_currentUser req); inversion U; reflexivity. }
  apply bind_inv in H. destruct H as [(e & _ & E)|(found & db2 & F & H)];
    [discriminate|].
  apply findOne_where_inv in F. destruct F as [-> [F|[e F]]]; [|discriminate].
  inversion F; subst found; clear F.
  destruct (findOne _ _) as [u|] eqn:Fu; [|discriminate].
  apply findOne_In in Fu.
  inversion H; subst; clear H.
  exists u. repeat split; auto.
Qed.

(** A reply with status 200 comes from the last handler of the chain. *)
Lemma run_ok (chain : list Middleware) (req : Request) (db db' : Db)
  (res : Response) :
  run chain req db = (Some res, db') ->
  res_status res = 200%Z ->
  exists m req1 db1, In m chain /\ m req1 db1 = (Send res, db').
Proof.
  revert req db. induction chain as [|m chain IH]; intros req db H Hs;
    [discriminate|].
  simpl in H. destruct (m req db) as [[req1|err|res1] db1] eqn:E.
  - destruct (IH _ _ H Hs) as (m' & r' & d' & Hin & Hm).
    exists m', r', d'. split; [right; exact Hin | exact Hm].
  - inversion H; subst. rewrite globalErrorHandler_status in Hs. discriminate.
  - inversion H; subst. exists m, req, db. split; [left; reflexivity | exact E].
Qed.

Lemma run_rules_no_send (rules : list Chain) (req : Request) (db db' : Db)
  (res : Response) :
  run_rules rules req db <> (Send res, db').
Proof. unfold run_rules. discriminate. Qed.

Lemma validateRequest_no_send (req : Request) (db db' : Db) (res : Response) :
  validateRequest req db <> (Send res, db').
Proof.
  rewrite validateRequest_outcome.
  destruct (req_validation req); [discriminate|].
  destruct (worded _); discriminate.
Qed.

Lemma currentUser_no_send (req : Request) (db db' : Db) (res : Response) :
  currentUser req db <> (Send res, db').
Proof. rewrite currentUser_outcome. discriminate. Qed.

(** C9. A reply with status 200 of sign up, sign in or get current user
    carries a user row of the datastore as exactly [id], [name], [email]
    and [created_at], next to the token ([meta.access_token], on sign up
    and sign in) that encodes the user's [id]; no property of the reply,
    at any depth, is named "password", and the stored password hash is
    not a part of it. *)
Theorem user_replies_carry_no_password
  (d : Draws) (req : Request) (db db' : Db) (res : Response)
  (H : post_auth_signup d req db = (Some res, db')
       \/ post_auth_signin d req db = (Some res, db')
       \/ get_auth_me req db = (Some res, db'))
  (Hok : res_status res = 200%Z) :
  exists (u : User) (token : option string),
    In u (users db')
    /\ res_body res = user_reply u token
    /\ (forall t, token = Some t ->
                  encryptSession (mkUserPayloadForJwt (user_id u)) (now d) = Some t)
    /\ mentions_key "password" (res_body res) = false.
Proof.
  destruct H as [H|[H|H]]; apply run_ok in H; auto;
    destruct H as (m & req1 & db1 & Hin & Hm); simpl in Hin;
    repeat match goal with
           | H : _ \/ _ |- _ => destruct H
           | H : False |- _ => destruct H
           end; subst m;
    try (exfalso; revert Hm;
         first [ apply run_rules_no_send | apply validateRequest_no_send
               | apply currentUser_no_send ]).
  - apply signupUser_send in Hm. destruct Hm as (u & t & Hu & Ht & _ & Hb).
    exists u, (Some t). rewrite Hb.
    repeat split; auto using user_reply_keys. intros t' E. now inversion E; subst.
  - apply signinUser_send in Hm. destruct Hm as (u & t & Hu & Ht & _ & Hb).
    exists u, (Some t). rewrite Hb.
    repeat split; auto using user_reply_keys. intros t' E. now inversion E; subst.
  - apply getMe_send in Hm. destruct Hm as (u & Hu & _ & Hb).
    exists u, None. rewrite Hb.
    repeat split; auto using user_reply_keys. discriminate.
Qed.

End UserReplies.

(** ** Members *)

Section Members.
Context {L : Libraries}.

(** The rules of [addMemberVal] record nothing exactly when the three
    fields are strings that are not empty. *)
Lemma addMemberVal_outcome (req : Request) (db : Db) :
  exists errs,
    addMemberVal req db = (Next (with_validation req (req_validation req ++ errs)), db)
    /\ (errs = [] <->
        present (body req "community") && present (body req "user")
        && present (body req "role") = true).
Proof.
  unfold addMemberVal, run_rules. eexists. split; [reflexivity|].
  simpl. unfold run_chain, field_value. simpl.
  destruct (body req "community") as [c|], (body req "user") as [u|],
           (body req "role") as [r|]; simpl;
    try destruct (c =? ""); try destruct (u =? ""); try destruct (r =? "");
    simpl; split; intros H; solve [reflexivity | discriminate].
Qed.

Lemma arriving_token (req : Request) : token_of (arriving req) = token_of req.
Proof. reflexivity. Qed.

(** The start of both member routes, for a valid request with a token
    that verifies: validation and the session resolver pass, the request
    reaches the gate with the caller resolved. *)
Lemma to_gate (gate_and_handler : list Middleware) (req : Request)
  (db : Db) (token : string) (payload : JwtPayload) (v : Middleware) :
  v (arriving req) db = (Next (arriving req), db) ->
  token_of req = Some token ->
  jwt_verify token JWT_SECRET = Some payload ->
  run (v :: validateRequest :: currentUser :: isLoggedIn :: gate_and_handler)
      (arriving req) db
  = run gate_and_handler
        (with_currentUser (arriving req) (mkUserPayload (jwt_id payload))) db.
Proof.
  intros Hv Ht Hp.
  rewrite (run_next _ _ _ _ _ _ Hv).
  rewrite (run_next _ _ _ _ _ _ (validateRequest_clean (arriving req) db eq_refl)).
  rewrite (run_next _ _ _ _ _ _ (currentUser_outcome _ _)).
  rewrite arriving_token, Ht, Hp.
  erewrite run_next; [reflexivity|].
  rewrite isLoggedIn_outcome. reflexivity.
Qed.

Lemma addMemberVal_valid (req : Request) (db : Db) :
  present (body req "community") && present (body req "user")
  && present (body req "role") = true ->
  addMemberVal (arriving req) db = (Next (arriving req), db).
Proof.
  intros H. destruct (addMemberVal_outcome (arriving req) db) as (errs & E & Hv).
  rewrite E. rewrite (proj2 Hv H). reflexivity.
Qed.

(** The owner gate, case by case. *)
Lemma isCommunityAdmin_outcome (req : Request) (db : Db) (caller : Arg) :
  req_currentUser req = Some (mkUserPayload caller) ->
  isCommunityAdmin req db =
    (match findByPk user_id (users db) caller with
     | None => Fail notAllowed
     | Some _ =>
         match findByPk community_id (communities db) (body req "community") with
         | None =>
             Fail (ParametricError
                     [parametric "community" "Community not found."
                                 "RESOURCE_NOT_FOUND"])
         | Some comm =>
             match getOwner db comm with
             | None =>
                 Fail (RuntimeError "Cannot read properties of null (reading 'id')")
             | Some owner =>
                 if col_eq (user_id owner) caller then Next req
                 else Fail notAllowed
             end
         end
     end, db).
Proof.
  intros Hc. unfold isCommunityAdmin, try_catch_next, currentUserId.
  rewrite Hc. cbn [bind ret query currentUser_id].
  destruct (findByPk user_id (users db) caller); [|reflexivity].
  cbn [bind ret query].
  destruct (findByPk community_id (communities db) (body req "community"));
    [|reflexivity].
  cbn [bind ret query]. destruct (getOwner db c); [|reflexivity].
  cbn [bind ret query deref]. destruct (col_eq _ _); reflexivity.
Qed.

Lemma col_eq_false (column : string) (a : Arg) :
  a <> Some column -> col_eq column a = false.
Proof.
  destruct a as [v|]; simpl; [|reflexivity]. intros H.
  apply String.eqb_neq. congruence.
Qed.

Lemma col_eq_true (column : string) : col_eq column (Some column) = true.
Proof. simpl. apply String.eqb_refl. Qed.

(** C1, as the code has it. A [POST /member] request that passes the
    field validation (community, user and role are strings that are not
    empty), carries a token that verifies and names an existing
    community whose owner is not the caller is answered with status 400
    and the general error NOT_ALLOWED_ACCESS, and the datastore is left
    as it was. *)
Theorem non_owner_cannot_add_member
  (d : Draws) (req : Request) (db : Db)
  (token : string) (payload : JwtPayload) (comm : Community) (owner : User)
  (Hvalid : present (body req "community") && present (body req "user")
            && present (body req "role") = true)
  (Htoken : token_of req = Some token)
  (Hverify : jwt_verify token JWT_SECRET = Some payload)
  (Hcomm : findByPk community_id (communities db) (body req "community") = Some comm)
  (Howner : getOwner db comm = Some owner)
  (Hother : jwt_id payload <> Some (user_id owner)) :
  post_member d req db =
    (Some (mkResponse 400 not_allowed_reply (req_session req)), db).
Proof.
  unfold post_member, route.
  rewrite (to_gate _ _ _ _ _ _ (addMemberVal_valid _ _ Hvalid) Htoken Hverify).
  assert (G : isCommunityAdmin
                (with_currentUser (arriving req) (mkUserPayload (jwt_id payload))) db
              = (Fail notAllowed, db)).
  { rewrite (isCommunityAdmin_outcome
               (with_currentUser (arriving req) (mkUserPayload (jwt_id payload)))
               db (jwt_id payload) eq_refl).
    change (body (with_currentUser (arriving req) _) "community")
      with (body req "community").
    rewrite Hcomm, Howner, (col_eq_false _ _ Hother).
    destruct (findByPk user_id (users db) (jwt_id payload)); reflexivity. }
  rewrite (run_fail _ _ _ _ _ _ G). reflexivity.
Qed.

(** The moderator gate never lets a caller through who is not the owner
    of the community, whatever rows the caller holds: the membership is
    looked up under [community.id], which is [undefined]. *)
Lemma isCommunityModerator_non_owner (req : Request) (db : Db)
  (caller : Arg) (comm : Community) (owner : User) :
  req_currentUser req = Some (mkUserPayload caller) ->
  findByPk community_id (communities db) (body req "community") = Some comm ->
  getOwner db comm = Some owner ->
  caller <> Some (user_id owner) ->
  exists err, isCommunityModerator req db = (Fail err, db).
Proof.
  intros Hc Hcomm Hown Hneq.
  unfold isCommunityModerator, try_catch_next, currentUserId.
  rewrite Hc. cbn [bind ret query currentUser_id].
  destruct (findByPk user_id (users db) caller); [|eexists; reflexivity].
  cbn [bind ret query]. rewrite Hcomm. cbn [bind ret query]. rewrite Hown.
  destruct (findOne _ (roles db)); [|eexists; reflexivity].
  cbn [bind ret query deref].
  destruct (body req "community") as [c|]; [|discriminate].
  unfold where_values, id_of_string. cbn [existsb orb].
  destruct where_undefined_throws; cbn [andb throw bind ret];
    [eexists; reflexivity|].
  cbn [bind ret query].
  rewrite (col_eq_false _ _ Hneq). cbn [negb andb].
  match goal with
  | |- context [findOne ?p ?rows] =>
      replace (findOne p rows) with (@None Member)
  end; [eexists; reflexivity|].
  symmetry. unfold findOne. induction (members db) as [|m ms IH];
    [reflexivity|]. simpl. rewrite andb_false_r. simpl. exact IH.
Qed.

(** The handler of [POST /member], on a triple whose role and user
    exist. *)
Lemma addMember_outcome (d : Draws) (req : Request) (db : Db)
  (user community role : string) :
  body req "user" = Some user ->
  body req "community" = Some community ->
  body req "role" = Some role ->
  findByPk role_id (roles db) (Some role) <> None ->
  findByPk user_id (users db) (Some user) <> None ->
  addMember d req db =
    match find (of_triple user community role) (members db) with
    | Some _ =>
        (Fail (NonParametricError
                 [nonParametric "User is already added in the community."
                                "RESOURCE_EXISTS"]), db)
    | None =>
        if pk_free member_id (members db) (snowflake d 0)
           && fits 255 (snowflake d 0)
        then
          let m := mkMember (snowflake d 0) community user role (now d) (now d) in
          (Send (mkResponse 200 (member_reply m) (req_session req)),
           set_members db (members db ++ [m]))
        else (Fail (RuntimeError "Validation error"), db)
    end.
Proof.
  intros Hu Hc Hr Hrole Huser.
  unfold addMember, try_catch_next. rewrite Hu, Hc, Hr.
  cbn [bind ret query].
  destruct (findByPk role_id (roles db) (Some role)); [|congruence].
  cbn [bind ret query].
  destruct (findByPk user_id (users db) (Some user)); [|congruence].
  unfold findOne_where, where_values. cbn [map snd existsb orb].
  rewrite andb_false_r. cbn [bind ret query].
  replace (findOne _ (members db))
    with (find (of_triple user community role) (members db)).
  2:{ unfold findOne. induction (members db) as [|m ms IH]; [reflexivity|].
      simpl. unfold of_triple at 1. rewrite andb_true_r, andb_assoc, IH.
      reflexivity. }
  destruct (find _ _); [reflexivity|].
  unfold Member_create, bind.
  destruct (_ && _)%bool; reflexivity.
Qed.

End Members.

Section AddTwice.
Context {L : Libraries}.

Lemma count_find_none {A : Type} (p : A -> bool) (rows : list A) :
  count p rows = 0%nat -> find p rows = None.
Proof.
  unfold count. induction rows as [|a rows IH]; simpl; [reflexivity|].
  destruct (p a); simpl; [discriminate | exact IH].
Qed.

Lemma count_app {A : Type} (p : A -> bool) (rows rows' : list A) :
  count p (rows ++ rows') = (count p rows + count p rows')%nat.
Proof. unfold count. now rewrite filter_app, length_app. Qed.

Lemma find_app_last {A : Type} (p : A -> bool) (rows : list A) (a : A) :
  p a = true -> find p (rows ++ [a]) <> None.
Proof.
  intros H. induction rows as [|b rows IH]; simpl.
  - rewrite H. discriminate.
  - destruct (p b); [discriminate | exact IH].
Qed.

Lemma of_triple_refl (id user community role : string) (t t' : Z) :
  of_triple user community role (mkMember id community user role t t') = true.
Proof. unfold of_triple. simpl. now rewrite !String.eqb_refl. Qed.

Lemma present_some (s : string) : s <> "" -> present (Some s) = true.
Proof. intros H. simpl. apply negb_true_iff, String.eqb_neq, H. Qed.

(** C6. Two [POST /member] requests by the owner of the community, with
    the same user, community and role, the role and the user existing
    and no row of the triple being there before: the first inserts one
    Member row and replies 200 with it, the second replies with the
    general error RESOURCE_EXISTS and inserts nothing; the triple has
    one row after the first request and after the second. *)
Theorem add_member_twice
  (d1 d2 : Draws) (req : Request) (db : Db)
  (token : string) (payload : JwtPayload) (caller user community role : string)
  (comm : Community) (owner : User)
  (Huser : body req "user" = Some user)
  (Hcommunity : body req "community" = Some community)
  (Hrole : body req "role" = Some role)
  (Hfilled : user <> "" /\ community <> "" /\ role <> "")
  (Htoken : token_of req = Some token)
  (Hverify : jwt_verify token JWT_SECRET = Some payload)
  (Hcaller : jwt_id payload = Some caller)
  (Hknown : findByPk user_id (users db) (Some caller) <> None)
  (Hcomm : findByPk community_id (communities db) (Some community) = Some comm)
  (Howner : getOwner db comm = Some owner)
  (Hown : user_id owner = caller)
  (Hr : findByPk role_id (roles db) (Some role) <> None)
  (Hu : findByPk user_id (users db) (Some user) <> None)
  (Hnew : count (of_triple user community role) (members db) = 0%nat)
  (Hfresh : pk_free member_id (members db) (snowflake d1 0) = true)
  (Hfits : fits 255 (snowflake d1 0) = true) :
  let m := mkMember (snowflake d1 0) community user role (now d1) (now d1) in
  let db1 := set_members db (members db ++ [m]) in
  post_member d1 req db =
    (Some (mkResponse 200 (member_reply m) (req_session req)), db1)
  /\ count (of_triple user community role) (members db1) = 1%nat
  /\ post_member d2 req db1 =
       (Some (mkResponse 400 already_member_reply (req_session req)), db1).
Proof.
  intros m db1.
  assert (Hvalid : present (body req "community") && present (body req "user")
                   && present (body req "role") = true).
  { rewrite Huser, Hcommunity, Hrole.
    destruct Hfilled as (A & B & C). now rewrite !present_some. }
  set (req1 := with_currentUser (arriving req) (mkUserPayload (jwt_id payload))).
  assert (Gate : forall dbx,
             users dbx = users db -> communities dbx = communities db ->
             isCommunityAdmin req1 dbx = (Next req1, dbx)).
  { intros dbx Eu Ec.
    rewrite (isCommunityAdmin_outcome req1 dbx (jwt_id payload) eq_refl).
    change (body req1 "community") with (body req "community").
    unfold getOwner. rewrite Eu, Ec, Hcommunity, Hcomm, Hcaller.
    destruct (findByPk user_id (users db) (Some caller)); [|congruence].
    unfold getOwner in Howner. rewrite Howner, Hown, col_eq_true. reflexivity. }
  assert (Start : forall d dbx,
             users dbx = users db -> communities dbx = communities db ->
             post_member d req dbx = run [addMember d] req1 dbx).
  { intros d dbx Eu Ec. unfold post_member, route.
    rewrite (to_gate _ _ _ _ _ _ (addMemberVal_valid _ _ Hvalid) Htoken Hverify).
    fold req1. now rewrite (run_next _ _ _ _ _ _ (Gate dbx Eu Ec)). }
  split; [|split].
  - rewrite (Start d1 db eq_refl eq_refl), run_last.
    rewrite (addMember_outcome d1 req1 db user community role Huser Hcommunity
               Hrole Hr Hu).
    rewrite (count_find_none _ _ Hnew), Hfresh, Hfits. reflexivity.
  - subst db1. cbn [members set_members]. rewrite count_app, Hnew.
    subst m. unfold count. simpl. now rewrite of_triple_refl.
  - rewrite (Start d2 db1 eq_refl eq_refl), run_last.
    rewrite (addMember_outcome d2 req1 db1 user community role Huser Hcommunity
               Hrole Hr Hu).
    subst db1. cbn [members set_members].
    destruct (find _ _) eqn:F; [reflexivity|].
    exfalso. revert F. apply find_app_last. apply of_triple_refl.
Qed.

End AddTwice.

(** ** The stored slug *)

Section StoredSlug.
Context {L : Libraries}.

(** C7, as the code has it. For every community name the validation of
    [POST /community] accepts (a string of two characters or more), the
    slug is the lower-cased name with every maximal run of characters
    other than ASCII letters, digits and the underscore replaced by one
    "-": no "-" follows a "-", and nothing but lower-case ASCII letters,
    digits, "_" and "-" occurs in it. The request adds no community or
    exactly one, with that name and that slug; it adds one when the
    token verifies, its user exists, the name has at most 128 characters
    and the generated identifier is new. *)
Theorem stored_slug_collapses_runs
  (d : Draws) (req : Request) (db : Db) (name : string)
  (Hname : body req "name" = Some name)
  (Hlen : (2 <= String.length name)%nat) :
  (Collapsed is_word (toLowerCase name) (slug_of name)
   /\ dashes_apart false (slug_of name) = true
   /\ all_chars is_slug_char (slug_of name) = true)
  /\ exists rows,
       communities (snd (post_community d req db)) = (communities db ++ rows)%list
       /\ (rows = []
           \/ exists uid,
                rows = [mkCommunity (snowflake d 0) name (slug_of name) uid
                                    (now d) (now d)])
       /\ forall token payload uid,
            token_of req = Some token ->
            jwt_verify token JWT_SECRET = Some payload ->
            jwt_id payload = Some uid ->
            findByPk user_id (users db) (Some uid) <> None ->
            (String.length name <= 128)%nat ->
            pk_free community_id (communities db) (snowflake d 0) = true ->
            fits 255 (snowflake d 0) = true ->
            rows = [mkCommunity (snowflake d 0) name (slug_of name) uid
                                (now d) (now d)].
Proof.
  split.
  - pose proof (slug_of_spec name) as (A & B & C & _). auto.
  - destruct (post_community_communities d req db) as (rows & E & R & S).
    exists rows. split; [exact E|]. split.
    + destruct R as [R0|(name' & uid & Hn & _ & R1)]; [left; exact R0|].
      right. exists uid. rewrite Hn in Hname. inversion Hname; subst name'.
      exact R1.
    + intros token payload uid Ht Hp Hid Hu Hl Hpk Hfit.
      apply (S token payload uid name); auto.
Qed.

End StoredSlug.

(** ** The properties on the example datastore *)

Lemma validation_errors_carry_INVALID_INPUT_witness :
  let req := Example.request [("name", "A")] None None in
  let raw : Obj :=
    [("type", JStr "field"); ("value", JStr "A");
     ("msg", JStr "Name should be at least 2 characters.");
     ("path", JStr "name"); ("location", JStr "body")] in
  createRoleVal (L := Reference.RefLib) req Example.db
    = (Next (with_validation req [raw]), Example.db)
  /\ exists err,
       validateRequest (with_validation req [raw]) Example.db
         = (Fail err, Example.db)
       /\ Forall (has_code "INVALID_INPUT") (serializeErrors err).
Proof.
  intros req raw. split; [reflexivity|].
  exists (ParametricError [renameKeys raw keyMap]).
  assert (H : validateRequest (with_validation req [raw]) Example.db
              = (Fail (ParametricError [renameKeys raw keyMap]), Example.db))
    by (vm_compute; reflexivity).
  split; [exact H|].
  exact (proj1 (validation_errors_carry_INVALID_INPUT _ _ _ _ H)).
Defined.

Lemma currentUser_never_rejects_witness :
  exists req',
    currentUser (L := Reference.RefLib)
      (Example.request [] None (Some Example.forged_token)) Example.db
      = (Next req', Example.db)
    /\ req_currentUser req' = None.
Proof.
  destruct (currentUser_never_rejects (L := Reference.RefLib)
              (Example.request [] None (Some Example.forged_token)) Example.db)
    as (req' & H & E).
  exists req'. split; [exact H|].
  vm_compute in E. rewrite E. reflexivity.
Defined.

Lemma decryptSession_failure_is_field_error_witness :
  exists err,
    decryptSession (L := Reference.RefLib) Example.forged_token = inl err
    /\ (exists errors, err = ParametricError errors)
    /\ serializeErrors err = [user_not_found]
    /\ Forall has_param (serializeErrors err).
Proof.
  apply (decryptSession_failure_is_field_error (L := Reference.RefLib)
           Example.forged_token).
  vm_compute. reflexivity.
Defined.

(** C4, as the specification words it, fails. A token signed for "u1"
    and altered to name "u2" does not verify, and the error
    [decryptSession] raises for it is not a general error: it is a
    [ParametricError], and its serialization carries the param "user". *)
Lemma decryptSession_failure_is_not_general :
  encryptSession (L := Reference.RefLib) (mkUserPayloadForJwt "u1") 1700
    = Some Example.ann_token
  /\ Reference.ref_verify Example.forged_token (@JWT_SECRET Reference.RefLib) = None
  /\ ~ (exists errors,
          decryptSession (L := Reference.RefLib) Example.forged_token
            = inl (NonParametricError errors))
  /\ (forall err,
        decryptSession (L := Reference.RefLib) Example.forged_token = inl err ->
        ~ Forall (fun e => obj_get e "param" = JUndef) (serializeErrors err)).
Proof.
  split; [vm_compute; reflexivity|]. split; [vm_compute; reflexivity|]. split.
  - intros [errors H]. vm_compute in H. discriminate.
  - intros err H. vm_compute in H. inversion H; subst; clear H.
    intros F. inversion F as [|x l Hx _]; subst. vm_compute in Hx. discriminate.
Qed.

Lemma decryptSession_encryptSession_witness :
  exists token,
    encryptSession (L := Reference.RefLib) (mkUserPayloadForJwt "7089") 1700 = Some token
    /\ decryptSession (L := Reference.RefLib) token = inr (Some "7089").
Proof.
  apply (decryptSession_encryptSession (L := Reference.RefLib)
           ReferenceFacts.RefLib_contract).
  vm_compute. discriminate.
Defined.

Lemma non_owner_cannot_add_member_witness :
  let req := Example.request [("community", "c1"); ("user", "u2"); ("role", "r2")]
               None (Some Example.bob_token) in
  post_member (L := Reference.RefLib) Example.draws req Example.db
    = (Some (mkResponse 400 not_allowed_reply (req_session req)), Example.db).
Proof.
  intros req.
  apply (non_owner_cannot_add_member (L := Reference.RefLib) Example.draws req
           Example.db Example.bob_token (mkJwtPayload (Some "u2") (Some 1700%Z))
           Example.chess Example.ann);
    try (vm_compute; reflexivity).
  vm_compute. discriminate.
Defined.

(** C1, as the specification words it, fails. Bob carries a token that
    verifies, the body names the community "c1", which exists and is
    owned by Ann, and nothing else: the request stops at the field
    validation, before the owner gate, and the reply is the batch of
    field errors with code INVALID_INPUT, not the general error
    NOT_ALLOWED_ACCESS. *)
Lemma non_owner_with_incomplete_body_gets_field_errors :
  let req := Example.request [("community", "c1")] None (Some Example.bob_token) in
  let field_error (param message : string) : JsVal :=
    JObj [("param", JStr param); ("message", JStr message);
          ("code", JStr "INVALID_INPUT")] in
  token_of req = Some Example.bob_token
  /\ jwt_verify (Libraries := Reference.RefLib) Example.bob_token
       (@JWT_SECRET Reference.RefLib)
     = Some (mkJwtPayload (Some "u2") (Some 1700%Z))
  /\ findByPk community_id (communities Example.db) (body req "community")
     = Some Example.chess
  /\ getOwner Example.db Example.chess = Some Example.ann
  /\ user_id Example.ann <> "u2"
  /\ post_member (L := Reference.RefLib) Example.draws req Example.db
     = (Some (mkResponse 400
                (JObj [("status", JBool false);
                       ("errors",
                        JArr [field_error "user" "User ID must be provided.";
                              field_error "user" "User ID must be a string.";
                              field_error "role" "Role ID must be provided.";
                              field_error "role" "Role ID must be a string."])])
                (req_session req)), Example.db)
  /\ post_member (L := Reference.RefLib) Example.draws req Example.db
     <> (Some (mkResponse 400 not_allowed_reply (req_session req)), Example.db).
Proof.
  intros req field_error.
  repeat split; try (vm_compute; reflexivity); vm_compute; discriminate.
Qed.

(** C2 fails on the code. Bob is not the owner of the community "c1" and
    holds a Member row for it with the role named "Community Moderator";
    his request reaches the gate with a body that names "c1". The gate
    looks the membership up under [community.id], which is [undefined]
    for the string "c1": it does not call [next()], it fails, with the
    rejection of the query when the query layer rejects an [undefined]
    value, and with NOT_ALLOWED_ACCESS when it lets it through. *)
Theorem moderator_is_turned_away :
  let req := Example.request [("community", "c1")] (Some "u9")
               (Some Example.bob_token) in
  let at_gate := with_currentUser (arriving req) (mkUserPayload (Some "u2")) in
  getOwner Example.db Example.chess = Some Example.ann
  /\ user_id Example.ann <> "u2"
  /\ findOne (fun r => role_name r =? "Community Moderator") (roles Example.db)
     = Some Example.moderator
  /\ find (of_triple "u2" "c1" (role_id Example.moderator)) (members Example.db)
     = Some Example.bob_moderates
  /\ (exists message,
        isCommunityModerator (L := Reference.RefLib) at_gate Example.db
          = (Fail (RuntimeError message), Example.db)
        /\ delete_member (L := Reference.RefLib) req Example.db
           = (Some (mkResponse 400
                      (JObj [("status", JBool false); ("message", JStr message)])
                      (req_session req)), Example.db))
  /\ isCommunityModerator (L := LenientLib) at_gate Example.db
     = (Fail notAllowed, Example.db)
  /\ delete_member (L := LenientLib) req Example.db
     = (Some (mkResponse 400 not_allowed_reply (req_session req)), Example.db).
Proof.
  intros req at_gate.
  split; [reflexivity|]. split; [discriminate|].
  split; [reflexivity|]. split; [reflexivity|].
  split; [eexists; split; vm_compute; reflexivity|].
  split; vm_compute; reflexivity.
Qed.

Lemma add_member_twice_witness :
  let req := Example.request [("community", "c1"); ("user", "u2"); ("role", "r2")]
               None (Some Example.ann_token) in
  let m := mkMember "900" "c1" "u2" "r2" 1000 1000 in
  let db1 := set_members Example.db (members Example.db ++ [m]) in
  post_member (L := Reference.RefLib) Example.draws req Example.db
    = (Some (mkResponse 200 (member_reply m) (req_session req)), db1)
  /\ count (of_triple "u2" "c1" "r2") (members db1) = 1%nat
  /\ post_member (L := Reference.RefLib) Example.draws req db1
     = (Some (mkResponse 400 already_member_reply (req_session req)), db1).
Proof.
  intros req m db1.
  apply (add_member_twice (L := Reference.RefLib) Example.draws Example.draws req
           Example.db Example.ann_token (mkJwtPayload (Some "u1") (Some 1700%Z))
           "u1" "u2" "c1" "r2" Example.chess Example.ann);
    try (vm_compute; reflexivity);
    try (vm_compute; discriminate).
  repeat split; discriminate.
Defined.

Lemma stored_slug_collapses_runs_witness :
  let req := Example.request [("name", "Go  Players!")] None (Some Example.ann_token) in
  communities (snd (post_community (L := Reference.RefLib) Example.draws req Example.db))
    = [Example.chess; mkCommunity "900" "Go  Players!" "go-players-" "u1" 1000 1000]
  /\ Collapsed is_word (toLowerCase "Go  Players!") (slug_of "Go  Players!").
Proof.
  intros req. split; [vm_compute; reflexivity|].
  apply (stored_slug_collapses_runs (L := Reference.RefLib) Example.draws req
           Example.db "Go  Players!"); [reflexivity | simpl; lia].
Defined.

(** C7, as the specification words it, fails. The name "a_b" passes the
    validation and the community is stored with the slug "a_b": the
    underscore is not alphanumeric and is not the separator, and it is
    kept, so the slug is not the name with every run of non-alphanumeric
    characters replaced by the separator (that would be "a-b"). *)
Lemma underscore_survives_in_slug :
  let req := Example.request [("name", "a_b")] None (Some Example.ann_token) in
  body req "name" = Some "a_b"
  /\ validateRequest
       (match createCommunityVal (L := Reference.RefLib) (arriving req) Example.db with
        | (Next r, _) => r
        | _ => req
        end) Example.db
     = (Next (arriving req), Example.db)
  /\ communities (snd (post_community (L := Reference.RefLib) Example.draws req Example.db))
     = [Example.chess; mkCommunity "900" "a_b" "a_b" "u1" 1000 1000]
  /\ ~ Collapsed is_alnum (toLowerCase "a_b") "a_b"
  /\ Collapsed is_alnum (toLowerCase "a_b") "a-b"
  /\ all_chars (fun c => is_alnum c || Ascii.eqb c "-") "a_b" = false.
Proof.
  intros req.
  split; [reflexivity|]. split; [vm_compute; reflexivity|].
  split; [vm_compute; reflexivity|]. split; [|split; [|reflexivity]].
  - intros H. inversion H as [|c s t Ka H1|]; subst; clear H.
    inversion H1 as [|c s t Ku _|]; subst. vm_compute in Ku. discriminate.
  - simpl. apply Collapsed_keep; [reflexivity|].
    apply (Collapsed_run is_alnum "_" "b" "b");
      [discriminate | reflexivity | reflexivity |].
    apply Collapsed_keep; [reflexivity | constructor].
Qed.

Lemma user_replies_carry_no_password_witness :
  let req := Example.request
               [("name", "Cy"); ("email", "cy@example.org"); ("password", "pw")]
               None None in
  exists res db',
    post_auth_signup (L := Reference.RefLib) Example.draws req Example.db
      = (Some res, db')
    /\ res_status res = 200%Z
    /\ mentions_key "password" (res_body res) = false.
Proof.
  intros req.
  assert (H : exists res db',
             post_auth_signup (L := Reference.RefLib) Example.draws req Example.db
               = (Some res, db')
             /\ res_status res = 200%Z)
    by (vm_compute; do 2 eexists; split; reflexivity).
  destruct H as (res & db' & H & Hok).
  exists res, db'. split; [exact H|]. split; [exact Hok|].
  destruct (user_replies_carry_no_password (L := Reference.RefLib) Example.draws req
              Example.db db' res (or_introl H) Hok) as (u & token & _ & _ & _ & K).
  exact K.
Defined.

(** ** Renaming keys *)



Lemma obj_get_absent (o : Obj) (k : string) :
  ~ In k (obj_keys o) -> obj_get o k = JUndef.
Proof.
  induction o as [|[k0 v0] o IH]; simpl; intros N; [reflexivity|].
  destruct (String.eqb_spec k0 k) as [->|Hne]; [tauto|]. apply IH. tauto.
Qed.




(** ** What the validator reports *)

Lemma worded_recorded (errors : list Obj) :
  Forall is_recorded errors ->
  worded errors = Some (filter (fun err => negb (default_message err)) errors).
Proof.
  induction 1 as [|err errors (value & msg & path & location & ->) _ IH];
    [reflexivity|].
  simpl. rewrite IH. unfold default_message. simpl.
  destruct (toLowerCase msg =? "invalid value"); reflexivity.
Qed.

Lemma serialize_renamed_recorded (errors : list Obj) :
  Forall is_recorded errors ->
  serializeErrors (ParametricError (map (fun err => renameKeys err keyMap) errors))
  = map reported errors.
Proof.
  induction 1 as [|err errors (value & msg & path & location & ->) _ IH];
    [reflexivity|].
  simpl in *. rewrite IH. reflexivity.
Qed.

(** X2. When the validation chains have recorded errors, [validateRequest]
    rejects the request and leaves the datastore alone; the error it
    raises serializes to the recorded errors whose message is not the
    default one, in the order recorded, each as its path (under [param]),
    its message and the code INVALID_INPUT. *)
Theorem validateRequest_reports (req : Request) (db : Db)
  (Hrecorded : Forall is_recorded (req_validation req))
  (Hsome : req_validation req <> []) :
  exists err,
    validateRequest req db = (Fail err, db)
    /\ serializeErrors err
       = map reported
           (filter (fun e => negb (default_message e)) (req_validation req)).
Proof.
  rewrite validateRequest_outcome.
  destruct (req_validation req) as [|e es] eqn:E; [congruence|].
  rewrite (worded_recorded _ Hrecorded).
  eexists. split; [reflexivity|].
  apply serialize_renamed_recorded.
  apply Forall_forall. intros x Hx. apply filter_In in Hx.
  rewrite Forall_forall in Hrecorded. apply Hrecorded. tauto.
Qed.

Lemma validateRequest_reports_witness :
  let req :=
    with_validation (Example.request [] None None)
      [recorded JUndef "Invalid value" "email" "body";
       recorded JUndef "Please provide a valid email address." "email" "body"] in
  exists err,
    validateRequest req Example.db = (Fail err, Example.db)
    /\ serializeErrors err
       = [[("param", JStr "email");
           ("message", JStr "Please provide a valid email address.");
           ("code", JStr "INVALID_INPUT")]].
Proof.
  intros req.
  apply (validateRequest_reports req Example.db).
  - repeat constructor; unfold is_recorded; eauto 10.
  - discriminate.
Defined.

(** X3. A request all of whose recorded errors carry the default message
    ("Invalid value", in any case of letters) is still rejected: the
    chain stops at [validateRequest] with status 400 and an empty list
    of errors, and the datastore is left alone. *)
Theorem default_messages_reject_with_no_errors
  (rest : list Middleware) (req : Request) (db : Db)
  (Hrecorded : Forall is_recorded (req_validation req))
  (Hsome : req_validation req <> [])
  (Hdefault : forallb default_message (req_validation req) = true) :
  run (validateRequest :: rest) req db
  = (Some (mkResponse 400 (errors_reply []) (req_session req)), db).
Proof.
  assert (F : validateRequest req db = (Fail (ParametricError []), db)).
  { rewrite validateRequest_outcome.
    destruct (req_validation req) as [|e es] eqn:E; [congruence|].
    rewrite (worded_recorded _ Hrecorded).
    replace (filter _ (e :: es)) with (@nil Obj); [reflexivity|].
    symmetry. clear -Hdefault. induction (e :: es) as [|x xs IH]; [reflexivity|].
    simpl in *. apply andb_true_iff in Hdefault. destruct Hdefault as [A B].
    rewrite A. simpl. auto. }
  rewrite (run_fail _ _ _ _ _ _ F). reflexivity.
Qed.

Lemma default_messages_reject_with_no_errors_witness :
  let req :=
    with_validation (Example.request [] None None)
      [recorded (JNum 12) "Invalid value" "name" "body"] in
  run [validateRequest; createRole Example.draws] req Example.db
  = (Some (mkResponse 400 (errors_reply []) (req_session req)), Example.db).
Proof.
  intros req.
  apply (default_messages_reject_with_no_errors
           [createRole Example.draws] req Example.db).
  - repeat constructor; unfold is_recorded; eauto 10.
  - discriminate.
  - reflexivity.
Defined.

(** ** More on slugs *)

Lemma slug_char_facts (c : ascii) :
  is_slug_char c = true ->
  lower_unit c = c /\ slug_class c = Ascii.eqb c "-".
Proof. destruct c as [[] [] [] [] [] [] [] []]; vm_compute; intuition congruence. Qed.

Lemma toLowerCase_slug_chars (s : string) :
  all_chars is_slug_char s = true -> toLowerCase s = s.
Proof.
  induction s as [|c s IH]; simpl; intros H; [reflexivity|].
  apply andb_true_iff in H. destruct H as [Hc Hs].
  rewrite (proj1 (slug_char_facts c Hc)), (IH Hs). reflexivity.
Qed.

Lemma replace_runs_fixed (b : bool) (s : string) :
  all_chars is_slug_char s = true -> dashes_apart b s = true ->
  replace_runs slug_class b s = s.
Proof.
  revert b. induction s as [|c s IH]; simpl; intros b H D; [reflexivity|].
  apply andb_true_iff in H. destruct H as [Hc Hs].
  rewrite (proj2 (slug_char_facts c Hc)).
  destruct (Ascii.eqb_spec c "-") as [->|Hne].
  - apply andb_true_iff in D. destruct D as [Db D].
    apply negb_true_iff in Db. subst b. now rewrite (IH true Hs D).
  - now rewrite (IH false Hs D).
Qed.

(** X4. The slug of a slug is the slug itself: deriving a slug from a
    name that is already a slug changes nothing. *)
Theorem slug_of_idempotent (name : string) :
  slug_of (slug_of name) = slug_of name.
Proof.
  destruct (slug_of_spec name) as (_ & D & C & _).
  unfold slug_of at 1. rewrite (toLowerCase_slug_chars _ C).
  apply replace_runs_fixed; assumption.
Qed.





(** ** Pages *)

Lemma firstn_add_skipn {A : Type} (a b : nat) (l : list A) :
  firstn (a + b) l = (firstn a l ++ firstn b (skipn a l))%list.
Proof.
  revert l. induction a as [|a IH]; intros l; simpl; [reflexivity|].
  destruct l as [|x l]; simpl.
  - now rewrite firstn_nil.
  - now rewrite IH.
Qed.




Lemma pages_upto_succ (n : nat) :
  pages_upto (S n) = (pages_upto n ++ [Z.of_nat (S n)])%list.
Proof. unfold pages_upto. now rewrite seq_S, map_app. Qed.

Lemma pages_cover_firstn {A : Type} (n : nat) (rows : list A) :
  flat_map (fun p => page_rows p rows) (pages_upto n) = firstn (10 * n) rows.
Proof.
  induction n as [|n IH]; [reflexivity|].
  rewrite pages_upto_succ, flat_map_app, IH.
  assert (E : page_rows (Z.of_nat (S n)) rows = firstn 10 (skipn (10 * n) rows)).
  { unfold page_rows. f_equal. f_equal. lia. }
  cbn [flat_map]. rewrite E, app_nil_r.
  replace (10 * S n)%nat with (10 * n + 10)%nat by lia.
  now rewrite firstn_add_skipn.
Qed.

Lemma pages_cover {A : Type} (rows : list A) :
  flat_map (fun p => page_rows p rows)
           (pages_upto (Z.to_nat (ceil_tenth (List.length rows)))) = rows.
Proof.
  rewrite pages_cover_firstn. apply firstn_all2.
  pose proof (ceil_tenth_bounds (List.length rows)). lia.
Qed.

Lemma page_rows_beyond {A : Type} (page : Z) (rows : list A) :
  (ceil_tenth (List.length rows) < page)%Z -> page_rows page rows = [].
Proof.
  intros H. unfold page_rows. rewrite skipn_all2; [apply firstn_nil|].
  pose proof (ceil_tenth_bounds (List.length rows)). lia.
Qed.

Lemma page_shown_asked (n : JsNumber) : page_shown (page_or_1 n) = page_asked n.
Proof. apply page_shown_or_1. Qed.

Lemma page_offset_asked (n : JsNumber) :
  Z.to_nat (page_offset (page_or_1 n)) = Z.to_nat (10 * (page_asked n - 1)).
Proof. now rewrite page_offset_shown, page_shown_asked. Qed.

Lemma jsonify_communities (cs : list Community) :
  map (fun x => match x with
                | JUndef => JNull
                | _ => jsonify x
                end) (map community_json cs) = map community_json cs.
Proof. induction cs as [|c cs IH]; simpl; [reflexivity|]. now rewrite IH. Qed.

Lemma get_role_reply (req : Request) (db : Db) :
  get_role req db =
    (Some (mkResponse 200
             (listing_reply (List.length (roles db)) (page_asked (req_body_page req))
                (map role_json (page_rows (page_asked (req_body_page req)) (roles db))))
             (req_session req)), db).
Proof.
  unfold get_role, route. rewrite run_last.
  unfold getAllRole, try_catch_next, bind, query, ret, ok, findAll, count, page_meta,
    listing_reply, page_rows.
  rewrite !filter_all, page_offset_asked, page_shown_asked.
  cbn [jsonify]. rewrite jsonify_roles. reflexivity.
Qed.

Lemma get_community_reply (req : Request) (db : Db) :
  get_community req db =
    (Some (mkResponse 200
             (listing_reply (List.length (communities db))
                (page_asked (req_query_page req))
                (map community_json
                     (page_rows (page_asked (req_query_page req)) (communities db))))
             (req_session req)), db).
Proof.
  unfold get_community, route. rewrite run_last.
  unfold getAllCommunities, try_catch_next, bind, query, ret, ok, findAll, count,
    page_meta, listing_reply, page_rows.
  rewrite !filter_all, page_offset_asked, page_shown_asked.
  cbn [jsonify]. rewrite jsonify_communities. reflexivity.
Qed.


Lemma data_of_listing (total : nat) (page : Z) (data : list JsVal)
  (session : option Session) :
  data_of (Some (mkResponse 200 (listing_reply total page data) session)) = data.
Proof. reflexivity. Qed.

Lemma page_asked_int (p : Z) : (1 <= p)%Z -> page_asked (Int p) = p.
Proof. simpl. lia. Qed.

Lemma get_role_page_data (req : Request) (db : Db) (p : Z) :
  (1 <= p)%Z ->
  data_of (fst (get_role (with_body_page req (Int p)) db))
  = map role_json (page_rows p (roles db)).
Proof.
  intros Hp. rewrite get_role_reply. cbn [fst]. rewrite data_of_listing.
  change (req_body_page (with_body_page req (Int p))) with (Int p).
  now rewrite page_asked_int.
Qed.

Lemma get_community_page_data (req : Request) (db : Db) (p : Z) :
  (1 <= p)%Z ->
  data_of (fst (get_community (with_query_page req (Int p)) db))
  = map community_json (page_rows p (communities db)).
Proof.
  intros Hp. rewrite get_community_reply. cbn [fst]. rewrite data_of_listing.
  change (req_query_page (with_query_page req (Int p))) with (Int p).
  now rewrite page_asked_int.
Qed.

Lemma flat_map_pages {A : Type} (json : A -> JsVal) (rows : list A)
  (f : Z -> list JsVal) (n : nat) :
  (forall p, (1 <= p)%Z -> f p = map json (page_rows p rows)) ->
  flat_map f (pages_upto n)
  = map json (flat_map (fun p => page_rows p rows) (pages_upto n)).
Proof.
  intros E.
  assert (P : Forall (fun p => 1 <= p)%Z (pages_upto n)).
  { apply Forall_forall. intros p Hp. unfold pages_upto in Hp.
    apply in_map_iff in Hp. destruct Hp as (k & <- & _). lia. }
  induction P as [|p ps Hp _ IH]; [reflexivity|].
  cbn [flat_map]. now rewrite map_app, IH, E.
Qed.

(** X7. Asking for the pages 1 to [meta.pages] of the roles (page in the
    body) or of the communities (page in the query), one after the
    other, gives every row once, in the order of the table; any page
    after the last one is empty. *)
Theorem pages_cover_the_table (req : Request) (db : Db) :
  flat_map (fun p => data_of (fst (get_role (with_body_page req (Int p)) db)))
           (pages_upto (Z.to_nat (ceil_tenth (List.length (roles db)))))
    = map role_json (roles db)
  /\ flat_map (fun p => data_of (fst (get_community (with_query_page req (Int p)) db)))
              (pages_upto (Z.to_nat (ceil_tenth (List.length (communities db)))))
     = map community_json (communities db)
  /\ (forall p, (ceil_tenth (List.length (roles db)) < p)%Z ->
                data_of (fst (get_role (with_body_page req (Int p)) db)) = [])
  /\ (forall p, (ceil_tenth (List.length (communities db)) < p)%Z ->
                data_of (fst (get_community (with_query_page req (Int p)) db)) = []).
Proof.
  split; [|split; [|split]].
  - rewrite (flat_map_pages role_json (roles db))
      by (intros p Hp; now apply get_role_page_data).
    now rewrite pages_cover.
  - rewrite (flat_map_pages community_json (communities db))
      by (intros p Hp; now apply get_community_page_data).
    now rewrite pages_cover.
  - intros p Hp. pose proof (ceil_tenth_bounds (List.length (roles db))).
    rewrite get_role_page_data by lia. now rewrite page_rows_beyond.
  - intros p Hp. pose proof (ceil_tenth_bounds (List.length (communities db))).
    rewrite get_community_page_data by lia. now rewrite page_rows_beyond.
Qed.

(** ** Requests stopped by the validation *)

Lemma field_error_recorded (ch : Chain) (value : Arg) (v : Validator) :
  is_recorded (field_error ch value v).
Proof. unfold is_recorded, field_error, recorded. eauto 10. Qed.

Section Stopped.
Context {L : Libraries}.

Lemma run_chain_recorded (req : Request) (rules : list Chain) :
  Forall is_recorded (flat_map (run_chain req) rules).
Proof.
  apply Forall_forall. intros e He. apply in_flat_map in He.
  destruct He as (ch & _ & He). unfold run_chain in He.
  apply in_map_iff in He. destruct He as (v & <- & _).
  apply field_error_recorded.
Qed.

Lemma jsonify_reported (errors : list Obj) :
  Forall is_recorded errors ->
  jsonify (errors_reply (map reported errors)) = errors_reply (map reported errors).
Proof.
  intros H. unfold errors_reply. cbn [jsonify]. do 3 f_equal.
  induction H as [|err errors (value & msg & path & location & ->) _ IH];
    [reflexivity|].
  simpl in *. inversion IH as [E]. now rewrite !E.
Qed.

Lemma filter_recorded (p : Obj -> bool) (errors : list Obj) :
  Forall is_recorded errors -> Forall is_recorded (filter p errors).
Proof.
  intros H. apply Forall_forall. intros x Hx. apply filter_In in Hx.
  rewrite Forall_forall in H. apply H. tauto.
Qed.

Lemma stopped_by_validateRequest (rest : list Middleware) (req : Request) (db : Db) :
  Forall is_recorded (req_validation req) ->
  req_validation req <> [] ->
  run (validateRequest :: rest) req db
  = (Some (mkResponse 400
             (errors_reply
                (map reported
                   (filter (fun e => negb (default_message e)) (req_validation req))))
             (req_session req)), db).
Proof.
  intros Hr Hs.
  assert (F : validateRequest req db
              = (Fail (ParametricError
                         (map (fun err => renameKeys err keyMap)
                              (filter (fun e => negb (default_message e))
                                      (req_validation req)))), db)).
  { rewrite validateRequest_outcome.
    destruct (req_validation req) as [|e es] eqn:E; [congruence|].
    now rewrite (worded_recorded _ Hr). }
  rewrite (run_fail _ _ _ _ _ _ F). unfold globalErrorHandler.
  rewrite serialize_renamed_recorded by (apply filter_recorded, Hr).
  fold (errors_reply (map reported (filter (fun e => negb (default_message e))
                                           (req_validation req)))).
  rewrite jsonify_reported by (apply filter_recorded, Hr). reflexivity.
Qed.

Lemma run_rules_then_validate
  (rules : list Chain) (rest : list Middleware) (req : Request) (db : Db) :
  route (run_rules rules :: validateRequest :: rest) req db
  = match flat_map (run_chain (arriving req)) rules with
    | [] => run rest (arriving req) db
    | failures =>
        (Some (mkResponse 400
                 (errors_reply
                    (map reported
                       (filter (fun e => negb (default_message e)) failures)))
                 (req_session req)), db)
    end.
Proof.
  unfold route. erewrite run_next by reflexivity.
  change (req_validation (arriving req)) with (@nil Obj). cbn [app].
  destruct (flat_map _ rules) as [|e es] eqn:E.
  - now rewrite (run_next _ _ _ _ _ _
                   (validateRequest_clean (with_validation (arriving req) []) db eq_refl)).
  - rewrite stopped_by_validateRequest; [reflexivity| |discriminate].
    cbn [req_validation with_validation]. rewrite <- E. apply run_chain_recorded.
Qed.


(** The one rule of [createRoleVal] fails exactly on a name that is
    absent or shorter than two characters, with one worded failure. *)
Lemma createRole_failures (req : Request) :
  let failures :=
    flat_map (run_chain req)
      [ body_ "name" |> exists_ |> isString |> isLength 2
          |> withMessage "Name should be at least 2 characters." ] in
  match body req "name" with
  | Some name =>
      if (2 <=? String.length name)%nat then failures = []
      else failures = [recorded (JStr name) "Name should be at least 2 characters."
                                "name" "body"]
  | None =>
      failures = [recorded JUndef "Invalid value" "name" "body";
                  recorded JUndef "Invalid value" "name" "body";
                  recorded JUndef "Name should be at least 2 characters."
                           "name" "body"]
  end.
Proof.
  simpl. unfold run_chain, field_value. simpl.
  destruct (body req "name") as [name|]; [|reflexivity].
  destruct name as [|a [|b name]]; reflexivity.
Qed.

(** X9. Creating a role with a name that is absent or shorter than two
    characters is refused with status 400 and one field error on "name",
    and no row is stored. *)
Theorem short_role_name_is_refused (d : Draws) (req : Request) (db : Db)
  (Hshort : match body req "name" with
            | Some name => (String.length name < 2)%nat
            | None => True
            end) :
  post_role d req db
  = (Some (mkResponse 400
             (field_error_reply "name" "Name should be at least 2 characters."
                                "INVALID_INPUT")
             (req_session req)), db).
Proof.
  unfold post_role, createRoleVal. rewrite run_rules_then_validate.
  pose proof (createRole_failures (arriving req)) as F. cbv zeta in F.
  change (body (arriving req) "name") with (body req "name") in F.
  destruct (body req "name") as [name|].
  - destruct (2 <=? String.length name)%nat eqn:E;
      [apply Nat.leb_le in E; lia|].
    rewrite F. reflexivity.
  - rewrite F. reflexivity.
Qed.

End Stopped.


Lemma short_role_name_is_refused_witness :
  let req := Example.request [("name", "A")] None None in
  post_role (L := Reference.RefLib) Example.draws req Example.db
  = (Some (mkResponse 400
             (field_error_reply "name" "Name should be at least 2 characters."
                                "INVALID_INPUT")
             (req_session req)), Example.db).
Proof.
  intros req.
  apply (short_role_name_is_refused (L := Reference.RefLib)). simpl. lia.
Defined.

(** ** Signing up and signing in *)

Lemma find_existsb {A : Type} (p : A -> bool) (rows : list A) :
  existsb p rows = false -> find p rows = None.
Proof.
  induction rows as [|a rows IH]; simpl; [reflexivity|].
  destruct (p a); simpl; [discriminate | exact IH].
Qed.

Lemma find_app_new {A : Type} (p : A -> bool) (rows : list A) (a : A) :
  existsb p rows = false -> p a = true -> find p (rows ++ [a]) = Some a.
Proof.
  induction rows as [|b rows IH]; simpl; intros E H.
  - now rewrite H.
  - destruct (p b); [discriminate | auto].
Qed.

Lemma find_same {A : Type} (p q : A -> bool) (rows : list A) :
  (forall a, p a = q a) -> find p rows = find q rows.
Proof.
  intros E. induction rows as [|r rows IH]; [reflexivity|].
  simpl. now rewrite E, IH.
Qed.

Lemma filter_same {A : Type} (p q : A -> bool) (rows : list A) :
  (forall a, p a = q a) -> filter p rows = filter q rows.
Proof.
  intros E. induction rows as [|r rows IH]; [reflexivity|].
  simpl. now rewrite E, IH.
Qed.

Lemma find_clause1 {A : Type} (column : A -> string) (v : string) (rows : list A) :
  findOne (fun r => forallb (fun c => col_eq (fst c r) (snd c)) [(column, Some v)])
          rows
  = find (fun r => column r =? v) rows.
Proof.
  unfold findOne. apply find_same. intros a. simpl. apply andb_true_r.
Qed.

Section Auth.
Context {L : Libraries}.

Lemma findOne_where1 {A : Type} (table : Db -> list A) (column : A -> string)
  (v : string) (db : Db) :
  findOne_where table [(column, Some v)] db
  = (inr (find (fun r => column r =? v) (table db)), db).
Proof.
  unfold findOne_where, where_values. cbn [map snd existsb orb].
  rewrite andb_false_r. cbn [bind ret query]. unfold query.
  now rewrite find_clause1.
Qed.

Lemma signup_accepted (req : Request) :
  long_enough (body req "name") && accepts_email (body req "email")
  && long_enough (body req "password") = true ->
  flat_map (run_chain req)
    [ body_ "name" |> exists_ |> isString |> isLength 2
        |> withMessage "Name must be at least 2 characters long.";
      body_ "email" |> exists_ |> isEmail_
        |> withMessage "Please provide a valid email address.";
      body_ "password" |> exists_ |> isString |> isLength 2
        |> withMessage "Password should be at least 2 characters." ] = [].
Proof.
  intros H. apply andb_true_iff in H. destruct H as [H Hp].
  apply andb_true_iff in H. destruct H as [Hn He].
  simpl. unfold run_chain, field_value. simpl.
  destruct (body req "name") as [[|a [|b n]]|]; try discriminate.
  destruct (body req "password") as [[|a' [|b' p]]|]; try discriminate.
  destruct (body req "email") as [e|]; try discriminate.
  simpl in *. rewrite He. reflexivity.
Qed.

Lemma signin_accepted (req : Request) :
  accepts_email (body req "email") && long_enough (body req "password") = true ->
  flat_map (run_chain req)
    [ body_ "email" |> exists_ |> isEmail_
        |> withMessage "Please provide a valid email address.";
      body_ "password" |> exists_ |> isString |> isLength 2
        |> withMessage "Password should be at least 2 characters." ] = [].
Proof.
  intros H. apply andb_true_iff in H. destruct H as [He Hp].
  simpl. unfold run_chain, field_value. simpl.
  destruct (body req "password") as [[|a' [|b' p]]|]; try discriminate.
  destruct (body req "email") as [e|]; try discriminate.
  simpl in *. rewrite He. reflexivity.
Qed.

(** The user row sign-up builds. *)
Lemma signupUser_outcome (d : Draws) (req : Request) (db : Db) (e p : string) :
  body req "email" = Some e ->
  body req "password" = Some p ->
  let name := match body req "name" with Some n => n | None => "" end in
  let u := mkUser (snowflake d 0) name e (hashPassword p (salt d)) (now d) (now d) in
  signupUser d req db =
    if email_taken db e
    then (Fail (ParametricError
                  [parametric "email" "User with this email address already exists."
                              "RESOURCE_EXISTS"]), db)
    else if negb (isEmail e) then (Fail (RuntimeError "Validation error"), db)
    else if pk_free user_id (users db) (snowflake d 0)
            && fits 255 (snowflake d 0) && fits 255 name && fits 255 e
    then match encryptSession (mkUserPayloadForJwt (snowflake d 0)) (now d) with
         | Some token =>
             (Send (mkResponse 200 (user_reply u (Some token))
                               (Some (mkSession (Some token)))),
              set_users db (users db ++ [u]))
         | None =>
             (Fail (RuntimeError "secretOrPrivateKey must have a value"),
              set_users db (users db ++ [u]))
         end
    else (Fail (RuntimeError "Validation error"), db).
Proof.
  intros He Hp name u. unfold signupUser, try_catch_next.
  rewrite He, Hp. unfold bind at 1. rewrite findOne_where1.
  unfold email_taken.
  destruct (existsb (fun u0 => user_email u0 =? e) (users db)) eqn:T.
  - destruct (find _ _) eqn:F; [reflexivity|].
    exfalso. apply existsb_exists in T. destruct T as (x & Hx & Ex).
    apply (find_none _ _ F) in Hx. congruence.
  - rewrite (find_existsb _ _ T). unfold User_create.
    destruct (isEmail e); cbn [negb]; [|reflexivity].
    unfold bind at 1. rewrite T. cbn [negb]. rewrite andb_true_r.
    fold name. fold u.
    destruct (pk_free user_id (users db) (snowflake d 0)
              && fits 255 (snowflake d 0) && fits 255 name && fits 255 e)%bool;
      [|reflexivity].
    unfold bind, signed, rejected, throw, ret. cbn [user_id u].
    destruct (encryptSession _ _); reflexivity.
Qed.

Lemma post_auth_signup_success
  (d : Draws) (req : Request) (db : Db) (name email password token : string)
  (Hname : body req "name" = Some name)
  (Hemail : body req "email" = Some email)
  (Hpassword : body req "password" = Some password)
  (Hlong : (2 <= String.length name <= 255)%nat)
  (Haddress : isEmail email = true /\ (String.length email <= 255)%nat)
  (Hsecret : (2 <= String.length password)%nat)
  (Hfree : email_taken db email = false)
  (Hnew : pk_free user_id (users db) (snowflake d 0) = true
          /\ fits 255 (snowflake d 0) = true)
  (Htoken : encryptSession (mkUserPayloadForJwt (snowflake d 0)) (now d) = Some token) :
  let u := mkUser (snowflake d 0) name email (bcrypt_hash password 10 (salt d))
                  (now d) (now d) in
  post_auth_signup d req db
  = (Some (mkResponse 200 (user_reply u (Some token))
                      (Some (mkSession (Some token)))),
     set_users db (users db ++ [u])).
Proof.
  intros u. unfold post_auth_signup, signupUserVal.
  rewrite run_rules_then_validate, signup_accepted.
  2:{ change (body (arriving req)) with (body req).
      rewrite Hname, Hemail, Hpassword. unfold long_enough, accepts_email.
      rewrite (proj1 Haddress).
      replace (2 <=? String.length name)%nat with true
        by (symmetry; apply Nat.leb_le; lia).
      replace (2 <=? String.length password)%nat with true
        by (symmetry; apply Nat.leb_le; lia).
      reflexivity. }
  rewrite run_last.
  rewrite (signupUser_outcome d (arriving req) db email password Hemail Hpassword).
  change (body (arriving req)) with (body req). rewrite Hname.
  rewrite Hfree, (proj1 Haddress), (proj1 Hnew), (proj2 Hnew), Htoken.
  unfold fits. cbn [negb andb].
  replace (String.length name <=? 255)%nat with true
    by (symmetry; apply Nat.leb_le; lia).
  replace (String.length email <=? 255)%nat with true
    by (symmetry; apply Nat.leb_le; lia).
  reflexivity.
Qed.

(** X10. Signing up with a name of 2 to 255 characters, an e-mail address
    of at most 255 characters that no user has, a password of two
    characters or more and a new identifier replies 200 with the user
    (id, name, e-mail, creation time) and the token of that id, puts the
    token in the session, and appends one user row, whose password is
    the hash of the password given; nothing else in the datastore
    changes. *)
Theorem signup_stores_the_hash
  (d : Draws) (req : Request) (db : Db) (name email password token : string)
  (Hname : body req "name" = Some name)
  (Hemail : body req "email" = Some email)
  (Hpassword : body req "password" = Some password)
  (Hlong : (2 <= String.length name <= 255)%nat)
  (Haddress : isEmail email = true /\ (String.length email <= 255)%nat)
  (Hsecret : (2 <= String.length password)%nat)
  (Hfree : email_taken db email = false)
  (Hnew : pk_free user_id (users db) (snowflake d 0) = true
          /\ fits 255 (snowflake d 0) = true)
  (Htoken : encryptSession (mkUserPayloadForJwt (snowflake d 0)) (now d) = Some token) :
  exists u res db',
    post_auth_signup d req db = (Some res, db')
    /\ res_status res = 200%Z
    /\ res_body res = user_reply u (Some token)
    /\ res_session res = Some (mkSession (Some token))
    /\ users db' = (users db ++ [u])%list
    /\ (roles db', communities db', members db')
       = (roles db, communities db, members db)
    /\ (user_id u, user_name u, user_email u) = (snowflake d 0, name, email)
    /\ user_password u = hashPassword password (salt d).
Proof.
  do 3 eexists. split.
  - apply (post_auth_signup_success d req db name email password token); assumption.
  - repeat split.
Qed.

(** X11. Signing up with an e-mail address that a user already has is
    refused with a field error on "email", code RESOURCE_EXISTS, and no
    row is stored. *)
Theorem signup_with_taken_email
  (d : Draws) (req : Request) (db : Db) (email password : string)
  (Hemail : body req "email" = Some email)
  (Hpassword : body req "password" = Some password)
  (Hvalid : long_enough (body req "name") && isEmail email
            && (2 <=? String.length password)%nat = true)
  (Htaken : email_taken db email = true) :
  post_auth_signup d req db
  = (Some (mkResponse 400
             (field_error_reply "email"
                "User with this email address already exists." "RESOURCE_EXISTS")
             (req_session req)), db).
Proof.
  unfold post_auth_signup, signupUserVal.
  rewrite run_rules_then_validate, signup_accepted.
  2:{ change (body (arriving req)) with (body req).
      rewrite Hemail, Hpassword. exact Hvalid. }
  rewrite run_last.
  rewrite (signupUser_outcome d (arriving req) db email password Hemail Hpassword).
  rewrite Htaken. reflexivity.
Qed.


Lemma signinUser_outcome (d : Draws) (req : Request) (db : Db) (e p : string) :
  body req "email" = Some e ->
  body req "password" = Some p ->
  signinUser d req db =
    (match find (fun u => user_email u =? e) (users db) with
     | None =>
         Fail (ParametricError
                 [parametric "user" "User not found." "RESOURCE_NOT_FOUND"])
     | Some u =>
         match bcrypt_compare p (user_password u) with
         | None =>
             Fail (ParametricError
                     [parametric "password" "Password does not match."
                                 "INVALID_INPUT"])
         | Some false =>
             Fail (ParametricError
                     [parametric "password"
                                 "The credentials you provided are invalid."
                                 "INVALID_CREDENTIALS"])
         | Some true =>
             match encryptSession (mkUserPayloadForJwt (user_id u)) (now d) with
             | Some token =>
                 Send (mkResponse 200 (user_reply u (Some token))
                                  (Some (mkSession (Some token))))
             | None => Fail (RuntimeError "secretOrPrivateKey must have a value")
             end
         end
     end, db).
Proof.
  intros He Hp. unfold signinUser, try_catch_next.
  rewrite He, Hp. unfold bind at 1. rewrite findOne_where1.
  destruct (find _ _) as [u|]; [|reflexivity].
  unfold bind at 1. unfold of_sum, comparePasswords.
  destruct (bcrypt_compare p (user_password u)) as [[|]|]; try reflexivity.
  cbn [ret negb]. unfold bind, signed, rejected, throw, ret.
  destruct (encryptSession _ _); reflexivity.
Qed.

(** X12. Signing in with a well-formed e-mail address and a password of
    two characters or more never writes. An address no user has is
    refused with a field error on "user", code RESOURCE_NOT_FOUND; a
    password that does not match with a field error on "password", code
    INVALID_CREDENTIALS; a password that matches is answered 200 with the
    user and a token of the user's id, which is put in the session. *)
Theorem signin_outcomes
  (d : Draws) (req : Request) (db : Db) (email password : string)
  (Hemail : body req "email" = Some email)
  (Hpassword : body req "password" = Some password)
  (Hvalid : isEmail email && (2 <=? String.length password)%nat = true) :
  (find (fun u => user_email u =? email) (users db) = None ->
   post_auth_signin d req db
   = (Some (mkResponse 400
              (field_error_reply "user" "User not found." "RESOURCE_NOT_FOUND")
              (req_session req)), db))
  /\ (forall u,
        find (fun u => user_email u =? email) (users db) = Some u ->
        bcrypt_compare password (user_password u) = Some false ->
        post_auth_signin d req db
        = (Some (mkResponse 400
                   (field_error_reply "password"
                      "The credentials you provided are invalid."
                      "INVALID_CREDENTIALS")
                   (req_session req)), db))
  /\ (forall u token,
        find (fun u => user_email u =? email) (users db) = Some u ->
        bcrypt_compare password (user_password u) = Some true ->
        encryptSession (mkUserPayloadForJwt (user_id u)) (now d) = Some token ->
        post_auth_signin d req db
        = (Some (mkResponse 200 (user_reply u (Some token))
                            (Some (mkSession (Some token)))), db)).
Proof.
  assert (R : post_auth_signin d req db = run [signinUser d] (arriving req) db).
  { unfold post_auth_signin, signinUserVal.
    rewrite run_rules_then_validate, signin_accepted; [reflexivity|].
    change (body (arriving req)) with (body req).
    rewrite Hemail, Hpassword. exact Hvalid. }
  rewrite R, run_last.
  rewrite (signinUser_outcome d (arriving req) db email password Hemail Hpassword).
  split; [|split].
  - intros ->. reflexivity.
  - intros u -> ->. reflexivity.
  - intros u token -> -> ->. reflexivity.
Qed.

(** X13. A user who has just signed up can sign in: when the hash of the
    password matches the password, signing in with the same e-mail
    address and password, on the datastore the sign-up leaves, replies
    200 with the same user and a token of the same id. *)
Theorem signin_after_signup
  (d d' : Draws) (req : Request) (db : Db)
  (name email password token token' : string)
  (Hname : body req "name" = Some name)
  (Hemail : body req "email" = Some email)
  (Hpassword : body req "password" = Some password)
  (Hlong : (2 <= String.length name <= 255)%nat)
  (Haddress : isEmail email = true /\ (String.length email <= 255)%nat)
  (Hsecret : (2 <= String.length password)%nat)
  (Hfree : email_taken db email = false)
  (Hnew : pk_free user_id (users db) (snowflake d 0) = true
          /\ fits 255 (snowflake d 0) = true)
  (Htoken : encryptSession (mkUserPayloadForJwt (snowflake d 0)) (now d) = Some token)
  (Hmatch : bcrypt_compare password (hashPassword password (salt d)) = Some true)
  (Htoken' : encryptSession (mkUserPayloadForJwt (snowflake d 0)) (now d')
             = Some token') :
  exists u res db',
    post_auth_signup d req db = (Some res, db')
    /\ res_body res = user_reply u (Some token)
    /\ post_auth_signin d' req db'
       = (Some (mkResponse 200 (user_reply u (Some token'))
                           (Some (mkSession (Some token')))), db').
Proof.
  do 3 eexists. split; [|split].
  - apply (post_auth_signup_success d req db name email password token); assumption.
  - reflexivity.
  - assert (R : forall dbx,
               post_auth_signin d' req dbx = run [signinUser d'] (arriving req) dbx).
    { intros dbx. unfold post_auth_signin, signinUserVal.
      rewrite run_rules_then_validate, signin_accepted; [reflexivity|].
      change (body (arriving req)) with (body req).
      rewrite Hemail, Hpassword. unfold accepts_email, long_enough.
      rewrite (proj1 Haddress).
      apply Nat.leb_le. lia. }
    rewrite R, run_last.
    rewrite (signinUser_outcome d' (arriving req) _ email password Hemail Hpassword).
    cbn [users set_users].
    rewrite find_app_new; [|exact Hfree|apply String.eqb_refl].
    cbn [user_password user_id]. unfold hashPassword in Hmatch.
    rewrite Hmatch, Htoken'. reflexivity.
Qed.

End Auth.

(** ** The current user *)

Section Me.
Context {L : Libraries}.

Lemma get_auth_me_outcome (req : Request) (db : Db) :
  get_auth_me req db =
    (Some match caller_id req with
          | None => mkResponse 400 not_signed_in_reply (req_session req)
          | Some id =>
              match find (fun u => user_id u =? id) (users db) with
              | None =>
                  mkResponse 400
                    (field_error_reply "user" "User not found." "RESOURCE_NOT_FOUND")
                    (req_session req)
              | Some u => mkResponse 200 (user_reply u None) (req_session req)
              end
          end, db).
Proof.
  unfold get_auth_me, route.
  rewrite (run_next _ _ _ _ _ _ (currentUser_outcome _ _)), run_last.
  change (token_of (arriving req)) with (token_of req). unfold caller_id.
  destruct (token_of req) as [token|]; [|reflexivity].
  destruct (jwt_verify token JWT_SECRET) as [[[id|] iat]|]; try reflexivity.
  unfold getMe, try_catch_next. cbn [no_currentUser_id req_currentUser with_currentUser
                                      jwt_id currentUser_id].
  destruct (id =? ""); [reflexivity|].
  unfold currentUserId. cbn [req_currentUser with_currentUser currentUser_id].
  unfold bind at 1. cbn [ret]. unfold bind at 1. rewrite findOne_where1.
  destruct (find _ _); reflexivity.
Qed.

(** X14. [GET /auth/me] never writes and always answers. Without a token,
    with a token that does not verify or with a token whose [id] is
    absent or empty, the reply is the general error NOT_SIGNEDIN; with a
    token of an id that no user has, a field error on "user", code
    RESOURCE_NOT_FOUND; otherwise 200 with the user of that id, as id,
    name, e-mail and creation time. *)
Theorem current_user_outcomes (req : Request) (db : Db) :
  exists res,
    get_auth_me req db = (Some res, db)
    /\ res_session res = req_session req
    /\ match caller_id req with
       | None => res_status res = 400%Z /\ res_body res = not_signed_in_reply
       | Some id =>
           match find (fun u => user_id u =? id) (users db) with
           | None =>
               res_status res = 400%Z
               /\ res_body res
                  = field_error_reply "user" "User not found." "RESOURCE_NOT_FOUND"
           | Some u =>
               res_status res = 200%Z /\ res_body res = user_reply u None
               /\ user_id u = id /\ In u (users db)
           end
       end.
Proof.
  rewrite get_auth_me_outcome. eexists. split; [reflexivity|].
  destruct (caller_id req) as [id|]; [|repeat split].
  destruct (find _ _) as [u|] eqn:F; repeat split.
  - apply find_some in F. now apply String.eqb_eq.
  - apply find_some in F. tauto.
Qed.

(** X15. The session a sign-up sets identifies the new user: when the
    token issued verifies to its payload and neither the token nor the
    identifier is empty, [GET /auth/me] with the session of the sign-up
    reply, on the datastore the sign-up leaves, replies 200 with the user
    that signed up. *)
Theorem me_after_signup
  (d : Draws) (req : Request) (db : Db) (name email password token : string)
  (iat : option Z)
  (Hname : body req "name" = Some name)
  (Hemail : body req "email" = Some email)
  (Hpassword : body req "password" = Some password)
  (Hlong : (2 <= String.length name <= 255)%nat)
  (Haddress : isEmail email = true /\ (String.length email <= 255)%nat)
  (Hsecret : (2 <= String.length password)%nat)
  (Hfree : email_taken db email = false)
  (Hnew : pk_free user_id (users db) (snowflake d 0) = true
          /\ fits 255 (snowflake d 0) = true)
  (Htoken : encryptSession (mkUserPayloadForJwt (snowflake d 0)) (now d) = Some token)
  (Hverify : jwt_verify token JWT_SECRET
             = Some (mkJwtPayload (Some (snowflake d 0)) iat))
  (Hfilled : token <> "" /\ snowflake d 0 <> "") :
  exists u res db',
    post_auth_signup d req db = (Some res, db')
    /\ res_body res = user_reply u (Some token)
    /\ get_auth_me (with_session_of req res) db'
       = (Some (mkResponse 200 (user_reply u None) (res_session res)), db').
Proof.
  do 3 eexists. split; [|split].
  - apply (post_auth_signup_success d req db name email password token); assumption.
  - reflexivity.
  - rewrite get_auth_me_outcome. unfold caller_id, token_of, with_session_of.
    cbn [req_session with_session res_session session_jwt].
    destruct Hfilled as [Ht Hi].
    apply String.eqb_neq in Ht. apply String.eqb_neq in Hi.
    rewrite Ht, Hverify. cbn [jwt_id]. rewrite Hi.
    cbn [users set_users].
    rewrite find_app_new; [reflexivity| |apply String.eqb_refl].
    destruct Hnew as [Hpk _]. unfold pk_free in Hpk.
    now apply negb_true_iff in Hpk.
Qed.


End Me.

(** ** What every route keeps *)

Lemma tp_ret {A : Type} (P : Db -> Prop) (a : A) : try_preserves P (ret a).
Proof. intros db r db' H E. inversion E; subst. exact H. Qed.

Lemma tp_throw {A : Type} (P : Db -> Prop) (e : Thrown) :
  try_preserves P (throw (A := A) e).
Proof. intros db r db' H E. inversion E; subst. exact H. Qed.

Lemma tp_query {A : Type} (P : Db -> Prop) (q : Db -> A) : try_preserves P (query q).
Proof. intros db r db' H E. inversion E; subst. exact H. Qed.

Lemma tp_bind {A B : Type} (P : Db -> Prop) (m : Try A) (k : A -> Try B) :
  try_preserves P m -> (forall a, try_preserves P (k a)) ->
  try_preserves P (bind m k).
Proof.
  intros Hm Hk db r db' H E. apply bind_inv in E.
  destruct E as [(e & E & _)|(a & db1 & E & E')].
  - exact (Hm _ _ _ H E).
  - exact (Hk a _ _ _ (Hm _ _ _ H E) E').
Qed.

Lemma tp_deref {A : Type} (P : Db -> Prop) (x : option A) : try_preserves P (deref x).
Proof. destruct x; [apply tp_ret | apply tp_throw]. Qed.

Lemma tp_of_sum {A : Type} (P : Db -> Prop) (r : Thrown + A) :
  try_preserves P (of_sum r).
Proof. destruct r; [apply tp_throw | apply tp_ret]. Qed.

Lemma tp_rejected {A : Type} (P : Db -> Prop) (why : string) :
  try_preserves P (rejected (A := A) why).
Proof. apply tp_throw. Qed.

Lemma tp_for_each {A B : Type} (P : Db -> Prop) (f : A -> Try B) (rows : list A) :
  (forall a, try_preserves P (f a)) -> try_preserves P (for_each f rows).
Proof.
  intros Hf. induction rows as [|a rows IH]; simpl; [apply tp_ret|].
  apply tp_bind; [apply Hf|]. intros b.
  apply tp_bind; [exact IH|]. intros bs. apply tp_ret.
Qed.

Lemma tp_try_catch_next (P : Db -> Prop) (block : Request -> Try Step) :
  (forall req, try_preserves P (block req)) ->
  preserves P (fun req => try_catch_next (block req)).
Proof.
  intros Hb req db step db' H E. unfold try_catch_next in E.
  destruct (block req db) as [[e|s] db1] eqn:B; inversion E; subst;
    exact (Hb _ _ _ _ H B).
Qed.

Lemma run_preserves (P : Db -> Prop) (chain : list Middleware) :
  Forall (preserves P) chain ->
  forall req db, P db -> P (snd (run chain req db)).
Proof.
  induction 1 as [|m chain Hm _ IH]; intros req db H; [exact H|].
  simpl. destruct (m req db) as [[req'|err|res] db'] eqn:E; simpl.
  - apply IH. exact (Hm _ _ _ _ H E).
  - exact (Hm _ _ _ _ H E).
  - exact (Hm _ _ _ _ H E).
Qed.

Lemma nodup_snoc {A : Type} (l : list A) (a : A) :
  NoDup l -> ~ In a l -> NoDup (l ++ [a]).
Proof.
  intros N H. induction N as [|x l Hx N IH]; simpl.
  - constructor; [tauto | constructor].
  - constructor.
    + intros Hin. apply in_app_or in Hin. destruct Hin as [Hin|[->|[]]].
      * exact (Hx Hin).
      * apply H. now left.
    + apply IH. intros Hin. apply H. now right.
Qed.

Lemma pk_free_not_in {A : Type} (pk : A -> string) (rows : list A) (id : string) :
  pk_free pk rows id = true -> ~ In id (map pk rows).
Proof.
  unfold pk_free. intros H Hin. apply negb_true_iff in H.
  apply in_map_iff in Hin. destruct Hin as (r & E & Hr).
  assert (X : existsb (fun r0 => pk r0 =? id) rows = true).
  { apply existsb_exists. exists r. split; [exact Hr|]. now apply String.eqb_eq. }
  congruence.
Qed.

Lemma nodup_map_filter {A : Type} (f : A -> string) (p : A -> bool) (rows : list A) :
  NoDup (map f rows) -> NoDup (map f (filter p rows)).
Proof.
  induction rows as [|r rows IH]; simpl; intros N; [constructor|].
  inversion N as [|x l Hx N']; subst.
  destruct (p r); simpl; [|auto].
  constructor; [|auto].
  intros Hin. apply Hx. apply in_map_iff in Hin. destruct Hin as (y & E & Hy).
  apply filter_In in Hy. apply in_map_iff. exists y. tauto.
Qed.

Section Keeps.
Context {L : Libraries}.

Lemma tp_where_values (P : Db -> Prop) (args : list Arg) :
  try_preserves P (where_values args).
Proof.
  unfold where_values. destruct (_ && _)%bool; [apply tp_throw | apply tp_ret].
Qed.

Lemma tp_findOne_where {A : Type} (P : Db -> Prop) (table : Db -> list A)
  (clause : list ((A -> string) * Arg)) :
  try_preserves P (findOne_where table clause).
Proof.
  unfold findOne_where. apply tp_bind; [apply tp_where_values|].
  intros _. apply tp_query.
Qed.

Lemma tp_findAll_where {A : Type} (P : Db -> Prop) (table : Db -> list A)
  (clause : list ((A -> string) * Arg)) (limit offset : nat) :
  try_preserves P (findAll_where table clause limit offset).
Proof.
  unfold findAll_where. apply tp_bind; [apply tp_where_values|].
  intros _. apply tp_query.
Qed.

Lemma tp_count_where {A : Type} (P : Db -> Prop) (table : Db -> list A)
  (clause : list ((A -> string) * Arg)) :
  try_preserves P (count_where table clause).
Proof.
  unfold count_where. apply tp_bind; [apply tp_where_values|].
  intros _. apply tp_query.
Qed.

Lemma tp_currentUserId (P : Db -> Prop) (req : Request) :
  try_preserves P (currentUserId req).
Proof.
  unfold currentUserId. destruct (req_currentUser req); [apply tp_ret | apply tp_throw].
Qed.

Lemma tp_signed (P : Db -> Prop) (payload : UserPayloadForJwt) (d : Draws) :
  try_preserves P (signed payload d).
Proof.
  unfold signed. destruct (encryptSession _ _); [apply tp_ret | apply tp_throw].
Qed.

Lemma tp_joined_entry (P : Db -> Prop) (mem : Member) :
  try_preserves P (joined_entry mem).
Proof.
  unfold joined_entry.
  repeat first [ apply tp_bind; [|intros ?] | apply tp_ret | apply tp_query
               | apply tp_deref ].
Qed.

Lemma tp_member_entry (P : Db -> Prop) (mem : Member) :
  try_preserves P (member_entry mem).
Proof.
  unfold member_entry.
  repeat first [ apply tp_bind; [|intros ?] | apply tp_ret | apply tp_query
               | apply tp_deref ].
Qed.

(** The inserts and the delete keep the keys unique. *)
Lemma tp_User_create (d : Draws) (id : string) (name email password : Arg) :
  try_preserves keys_unique (User_create d id name email password).
Proof.
  unfold User_create, rejected.
  destruct email as [email|], password as [password|]; try apply tp_throw.
  destruct (negb (isEmail email)); [apply tp_throw|].
  intros db r db' (Nu & Ne & Nr & Nc & Nm) E.
  destruct (pk_free user_id (users db) id) eqn:F; cbn [andb] in E;
    [|inversion E; subst; repeat split; assumption].
  destruct (negb (existsb (fun u => user_email u =? email) (users db))) eqn:T;
    cbn [andb] in E; [|inversion E; subst; repeat split; assumption].
  destruct (fits 255 id && _ && _)%bool;
    inversion E; subst; [|repeat split; assumption].
  unfold keys_unique. cbn [users roles communities members set_users].
  rewrite !map_app. cbn [map user_id user_email].
  repeat split; try assumption.
  - apply nodup_snoc; [exact Nu | now apply pk_free_not_in].
  - apply nodup_snoc; [exact Ne|]. apply (pk_free_not_in user_email). exact T.
Qed.

Lemma tp_Role_create (d : Draws) (id : string) (name : Arg) :
  try_preserves keys_unique (Role_create d id name).
Proof.
  unfold Role_create, rejected. destruct name as [name|]; [|apply tp_throw].
  intros db r db' (Nu & Ne & Nr & Nc & Nm) E.
  destruct (pk_free role_id (roles db) id) eqn:F; cbn [andb] in E;
    [|inversion E; subst; repeat split; assumption].
  destruct (fits 255 id && _)%bool;
    inversion E; subst; [|repeat split; assumption].
  unfold keys_unique. cbn [users roles communities members set_roles].
  rewrite !map_app. cbn [map role_id].
  repeat split; try assumption.
  apply nodup_snoc; [exact Nr | now apply pk_free_not_in].
Qed.

Lemma tp_Community_create (d : Draws) (id name slug : string) (ownerId : Arg) :
  try_preserves keys_unique (Community_create d id name slug ownerId).
Proof.
  unfold Community_create, rejected. destruct ownerId as [ownerId|]; [|apply tp_throw].
  intros db r db' (Nu & Ne & Nr & Nc & Nm) E.
  destruct (pk_free community_id (communities db) id) eqn:F; cbn [andb] in E;
    [|inversion E; subst; repeat split; assumption].
  destruct (fits 255 id && _ && _)%bool;
    inversion E; subst; [|repeat split; assumption].
  unfold keys_unique. cbn [users roles communities members set_communities].
  rewrite !map_app. cbn [map community_id].
  repeat split; try assumption.
  apply nodup_snoc; [exact Nc | now apply pk_free_not_in].
Qed.

Lemma tp_Member_create (d : Draws) (id : string) (userId communityId roleId : Arg) :
  try_preserves keys_unique (Member_create d id userId communityId roleId).
Proof.
  unfold Member_create, rejected.
  destruct userId, communityId, roleId; try apply tp_throw.
  intros db r db' (Nu & Ne & Nr & Nc & Nm) E.
  destruct (pk_free member_id (members db) id) eqn:F; cbn [andb] in E;
    [|inversion E; subst; repeat split; assumption].
  destruct (fits 255 id);
    inversion E; subst; [|repeat split; assumption].
  unfold keys_unique. cbn [users roles communities members set_members].
  rewrite !map_app. cbn [map member_id].
  repeat split; try assumption.
  apply nodup_snoc; [exact Nm | now apply pk_free_not_in].
Qed.

End Keeps.

Section RoutesKeep.
Context {L : Libraries}.

Lemma preserves_run_rules (P : Db -> Prop) (rules : list Chain) :
  preserves P (run_rules rules).
Proof. intros req db step db' H E. inversion E; subst. exact H. Qed.

Lemma preserves_validateRequest (P : Db -> Prop) : preserves P validateRequest.
Proof.
  intros req db step db' H E.
  rewrite validateRequest_outcome in E. inversion E; subst. exact H.
Qed.

Lemma preserves_currentUser (P : Db -> Prop) : preserves P currentUser.
Proof.
  intros req db step db' H E. rewrite currentUser_outcome in E.
  inversion E; subst. exact H.
Qed.

Lemma preserves_isLoggedIn (P : Db -> Prop) : preserves P isLoggedIn.
Proof.
  intros req db step db' H E. rewrite isLoggedIn_outcome in E.
  inversion E; subst. exact H.
Qed.

Lemma preserves_isCommunityAdmin (P : Db -> Prop) : preserves P isCommunityAdmin.
Proof.
  apply tp_try_catch_next. intros req.
  repeat first [ apply tp_deref
               | apply tp_currentUserId
               | apply tp_bind; [|intros ?]
               | apply tp_ret
               | apply tp_throw
               | apply tp_query
               | progress cbv zeta
               | match goal with
                 | |- try_preserves _ (match ?x with _ => _ end) => destruct x
                 end ].
Qed.

Lemma preserves_isCommunityModerator (P : Db -> Prop) :
  preserves P isCommunityModerator.
Proof.
  apply tp_try_catch_next. intros req.
  repeat first [ apply tp_deref
               | apply tp_currentUserId
               | apply tp_where_values
               | apply tp_bind; [|intros ?]
               | apply tp_ret
               | apply tp_throw
               | apply tp_query
               | progress cbv zeta
               | match goal with
                 | |- try_preserves _ (match ?x with _ => _ end) => destruct x
                 end ].
Qed.

Lemma preserves_signoutUser (P : Db -> Prop) : preserves P signoutUser.
Proof.
  apply tp_try_catch_next. intros req.
  destruct (negb _); [apply tp_throw | apply tp_ret].
Qed.

Lemma preserves_signinUser (P : Db -> Prop) (d : Draws) :
  preserves P (signinUser d).
Proof.
  apply tp_try_catch_next. intros req.
  repeat first [ apply tp_findOne_where
               | apply tp_of_sum
               | apply tp_signed
               | apply tp_bind; [|intros ?]
               | apply tp_ret
               | apply tp_throw
               | progress cbv zeta
               | match goal with
                 | |- try_preserves _ (match ?x with _ => _ end) => destruct x
                 end ].
Qed.

Lemma preserves_getMe (P : Db -> Prop) : preserves P getMe.
Proof.
  apply tp_try_catch_next. intros req.
  repeat first [ apply tp_findOne_where
               | apply tp_currentUserId
               | apply tp_bind; [|intros ?]
               | apply tp_ret
               | apply tp_throw
               | progress cbv zeta
               | match goal with
                 | |- try_preserves _ (match ?x with _ => _ end) => destruct x
                 end ].
Qed.

Lemma preserves_getAllRole (P : Db -> Prop) : preserves P getAllRole.
Proof.
  apply tp_try_catch_next. intros req.
  repeat first [ apply tp_bind; [|intros ?]
               | apply tp_ret
               | apply tp_query ].
Qed.

Lemma preserves_getAllCommunities (P : Db -> Prop) : preserves P getAllCommunities.
Proof.
  apply tp_try_catch_next. intros req.
  repeat first [ apply tp_bind; [|intros ?]
               | apply tp_ret
               | apply tp_query ].
Qed.

Lemma preserves_getMyOwnedCommunities (P : Db -> Prop) :
  preserves P getMyOwnedCommunities.
Proof.
  apply tp_try_catch_next. intros req.
  repeat first [ apply tp_count_where
               | apply tp_findAll_where
               | apply tp_currentUserId
               | apply tp_bind; [|intros ?]
               | apply tp_ret ].
Qed.

Lemma preserves_getMyJoinedCommunities (P : Db -> Prop) :
  preserves P getMyJoinedCommunities.
Proof.
  apply tp_try_catch_next. intros req.
  apply tp_bind; [apply tp_currentUserId|]. intros userId.
  apply tp_bind; [apply tp_query|]. intros [|r rs]; [apply tp_throw|].
  repeat first [ apply tp_where_values
               | apply tp_for_each; intros ?; apply tp_joined_entry
               | apply tp_bind; [|intros ?]
               | apply tp_ret
               | apply tp_query ].
Qed.

Lemma preserves_getAllMembers (P : Db -> Prop) : preserves P getAllMembers.
Proof.
  apply tp_try_catch_next. intros req.
  repeat first [ apply tp_count_where
               | apply tp_findAll_where
               | apply tp_for_each; intros ?; apply tp_member_entry
               | apply tp_bind; [|intros ?]
               | apply tp_ret ].
Qed.

Lemma preserves_signupUser (d : Draws) : preserves keys_unique (signupUser d).
Proof.
  apply tp_try_catch_next. intros req.
  repeat first [ apply tp_findOne_where
               | apply tp_signed
               | apply tp_User_create
               | apply tp_bind; [|intros ?]
               | apply tp_ret
               | apply tp_throw
               | progress cbv zeta
               | match goal with
                 | |- try_preserves _ (match ?x with _ => _ end) => destruct x
                 end ].
Qed.

Lemma preserves_createRole (d : Draws) : preserves keys_unique (createRole d).
Proof.
  apply tp_try_catch_next. intros req.
  apply tp_bind; [apply tp_Role_create|]. intros role. apply tp_ret.
Qed.

Lemma preserves_createCommunity (d : Draws) :
  preserves keys_unique (createCommunity d).
Proof.
  apply tp_try_catch_next. intros req.
  repeat first [ apply tp_currentUserId
               | apply tp_rejected
               | apply tp_Community_create
               | apply tp_Role_create
               | apply tp_Member_create
               | apply tp_bind; [|intros ?]
               | apply tp_ret
               | apply tp_throw
               | apply tp_query
               | progress cbv zeta
               | match goal with
                 | |- try_preserves _ (match ?x with _ => _ end) => destruct x
                 end ].
Qed.

Lemma preserves_addMember (d : Draws) : preserves keys_unique (addMember d).
Proof.
  apply tp_try_catch_next. intros req.
  repeat first [ apply tp_findOne_where
               | apply tp_Member_create
               | apply tp_bind; [|intros ?]
               | apply tp_ret
               | apply tp_throw
               | apply tp_query
               | progress cbv zeta
               | match goal with
                 | |- try_preserves _ (match ?x with _ => _ end) => destruct x
                 end ].
Qed.

Lemma preserves_removeMember : preserves keys_unique removeMember.
Proof.
  apply tp_try_catch_next. intros req.
  apply tp_bind; [apply tp_currentUserId|]. intros userId.
  apply tp_bind; [apply tp_query|]. intros rs.
  apply tp_bind; [apply tp_where_values|]. intros _.
  apply tp_bind; [apply tp_query|]. intros cs.
  apply tp_bind; [apply tp_where_values|]. intros _.
  apply tp_bind; [apply tp_query|]. intros [|m ms]; [apply tp_throw|].
  apply tp_bind; [|intros _; apply tp_ret].
  intros db r db' (Nu & Ne & Nr & Nc & Nm) E. inversion E; subst.
  unfold keys_unique. cbn [users roles communities members set_members].
  repeat split; try assumption. now apply nodup_map_filter.
Qed.

Lemma reading_routes_preserve (P : Db -> Prop) (d : Draws) :
  Forall (fun r : Route => forall req db, P db -> P (snd (r req db)))
         (reading_routes d).
Proof.
  unfold reading_routes, post_auth_signout, post_auth_signin, get_auth_me,
    get_role, get_community, get_community_me_owner, get_community_members,
    get_community_me_member, route.
  repeat first [ apply Forall_nil | apply Forall_cons ];
    intros req db; apply run_preserves;
    repeat first
      [ apply Forall_nil | apply Forall_cons
      | apply preserves_run_rules | apply preserves_validateRequest
      | apply preserves_currentUser | apply preserves_isLoggedIn
      | apply preserves_signoutUser | apply preserves_signinUser
      | apply preserves_getMe | apply preserves_getAllRole
      | apply preserves_getAllCommunities
      | apply preserves_getMyOwnedCommunities
      | apply preserves_getMyJoinedCommunities
      | apply preserves_getAllMembers ].
Qed.

(** X17. Signing out, signing in, the current user and the five listings
    never write: whatever the request, and whether they reply with data
    or with an error, the datastore is afterwards what it was. *)
Theorem reading_routes_never_write (d : Draws) :
  Forall (fun r : Route => forall req db, snd (r req db) = db) (reading_routes d).
Proof.
  assert (H : forall db0,
             Forall (fun r : Route => forall req db, db = db0 -> snd (r req db) = db0)
                    (reading_routes d)).
  { intros db0. exact (reading_routes_preserve (fun db => db = db0) d). }
  apply Forall_forall. intros r Hr req db.
  specialize (H db). rewrite Forall_forall in H. exact (H r Hr req db eq_refl).
Qed.

(** X18. No route breaks the uniqueness of keys: if the identifiers of
    the users, roles, communities and members and the e-mail addresses of
    the users are pairwise distinct before a request, they are so after
    it, whichever route serves it and whatever it replies. *)
Theorem routes_keep_keys_unique (d : Draws) (r : Route) (req : Request) (db : Db) :
  In r (all_routes d) -> keys_unique db -> keys_unique (snd (r req db)).
Proof.
  unfold all_routes. intros Hr. apply in_app_or in Hr. destruct Hr as [Hr|Hr].
  - destruct Hr as [<-|[<-|[<-|[<-|[<-|[]]]]]];
      apply run_preserves;
      repeat first
        [ apply Forall_nil | apply Forall_cons
        | apply preserves_run_rules | apply preserves_validateRequest
        | apply preserves_currentUser | apply preserves_isLoggedIn
        | apply preserves_isCommunityAdmin
        | apply preserves_isCommunityModerator
        | apply preserves_signupUser | apply preserves_createRole
        | apply preserves_createCommunity | apply preserves_addMember
        | apply preserves_removeMember ].
  - pose proof (reading_routes_preserve keys_unique d) as H.
    rewrite Forall_forall in H. exact (H r Hr req db).
Qed.

End RoutesKeep.

(** ** Every request is answered *)

Lemma tr_ret (Q : Step -> Prop) (step : Step) : Q step -> try_returns Q (ret step).
Proof. intros H db s db' E. inversion E; subst. exact H. Qed.

Lemma tr_throw (Q : Step -> Prop) (e : Thrown) : try_returns Q (throw e).
Proof. intros db s db' E. inversion E. Qed.

Lemma tr_bind {A : Type} (Q : Step -> Prop) (m : Try A) (k : A -> Try Step) :
  (forall a, try_returns Q (k a)) -> try_returns Q (bind m k).
Proof.
  intros Hk db s db' E. apply bind_inv in E.
  destruct E as [(e & _ & E)|(a & db1 & _ & E)]; [discriminate|].
  exact (Hk _ _ _ _ E).
Qed.

Lemma returns_try_catch_next (Q : Step -> Prop) (block : Request -> Try Step) :
  (forall req, try_returns Q (block req)) ->
  returns Q (fun req => try_catch_next (block req)).
Proof.
  intros Hb req db step db' E. unfold try_catch_next in E.
  destruct (block req db) as [[e|s] db1] eqn:B; inversion E; subst.
  - left. eauto.
  - right. exact (Hb _ _ _ _ B).
Qed.

Lemma replying_ok (req : Request) (content : JsVal) : replying (ok req content).
Proof.
  eexists. split; [reflexivity|]. split; [reflexivity|].
  simpl. destruct content; eexists; reflexivity.
Qed.

Section Answers.
Context {L : Libraries}.

Lemma failure_globalErrorHandler (err : Thrown) (req : Request) :
  failure (globalErrorHandler err req).
Proof. destruct err; (split; [reflexivity|]); eexists; reflexivity. Qed.

Lemma run_replies (gates : list Middleware) (handler : Middleware) :
  Forall (returns passing) gates -> returns replying handler ->
  forall req db,
  exists res, fst (run (gates ++ [handler]) req db) = Some res
              /\ (success res \/ failure res).
Proof.
  intros Hg Hh. induction Hg as [|g gates Hgate _ IH]; intros req db.
  - rewrite app_nil_l, run_last.
    destruct (handler req db) as [step db'] eqn:E.
    destruct (Hh _ _ _ _ E) as [(err & ->)|(res & -> & S)].
    + eexists. split; [reflexivity|]. right. apply failure_globalErrorHandler.
    + eexists. split; [reflexivity|]. now left.
  - rewrite <- app_comm_cons.
    destruct (g req db) as [step db'] eqn:E.
    destruct (Hgate _ _ _ _ E) as [(err & ->)|(req' & ->)].
    + rewrite (run_fail _ _ _ _ _ _ E).
      eexists. split; [reflexivity|]. right. apply failure_globalErrorHandler.
    + rewrite (run_next _ _ _ _ _ _ E). apply IH.
Qed.

Lemma passing_run_rules (rules : list Chain) : returns passing (run_rules rules).
Proof. intros req db step db' E. inversion E; subst. right. eexists. reflexivity. Qed.

Lemma passing_validateRequest : returns passing validateRequest.
Proof.
  intros req db step db' E. rewrite validateRequest_outcome in E.
  inversion E; subst. destruct (req_validation req); [right; eexists; reflexivity|].
  destruct (worded _); left; eexists; reflexivity.
Qed.

Lemma passing_currentUser : returns passing currentUser.
Proof.
  intros req db step db' E. rewrite currentUser_outcome in E.
  inversion E; subst. right. eexists. reflexivity.
Qed.

Lemma passing_isLoggedIn : returns passing isLoggedIn.
Proof.
  intros req db step db' E. rewrite isLoggedIn_outcome in E.
  inversion E; subst. destruct (req_currentUser req);
    [right | left]; eexists; reflexivity.
Qed.

Lemma passing_isCommunityAdmin : returns passing isCommunityAdmin.
Proof.
  apply returns_try_catch_next. intros req.
  repeat first [ apply tr_throw
               | apply tr_ret; eexists; reflexivity
               | apply tr_bind; intros ?
               | progress cbv zeta
               | match goal with
                 | |- try_returns _ (match ?x with _ => _ end) => destruct x
                 end ].
Qed.

Lemma passing_isCommunityModerator : returns passing isCommunityModerator.
Proof.
  apply returns_try_catch_next. intros req.
  repeat first [ apply tr_throw
               | apply tr_ret; eexists; reflexivity
               | apply tr_bind; intros ?
               | progress cbv zeta
               | match goal with
                 | |- try_returns _ (match ?x with _ => _ end) => destruct x
                 end ].
Qed.

Lemma replying_handlers (d : Draws) :
  Forall (returns replying)
    [signupUser d; signoutUser; signinUser d; getMe; createRole d; getAllRole;
     createCommunity d; getAllCommunities; getMyOwnedCommunities;
     getMyJoinedCommunities; getAllMembers; addMember d; removeMember].
Proof.
  repeat first [ apply Forall_nil | apply Forall_cons ];
    apply returns_try_catch_next; intros req;
    repeat first [ apply tr_throw
                 | apply tr_ret; apply replying_ok
                 | apply tr_ret; eexists; split; [reflexivity|];
                   split; [reflexivity|]; eexists; reflexivity
                 | apply tr_bind; intros ?
                 | progress cbv zeta
                 | match goal with
                   | |- try_returns _ (match ?x with _ => _ end) => destruct x
                   end ].
Qed.

(** X19. Every request is answered, and in one of two ways: whichever
    route serves it, the reply has status 200 and [status: true], or
    status 400 and [status: false]. No route leaves a request without a
    reply, and none replies with another status. *)
Theorem every_request_is_answered (d : Draws) (r : Route) (req : Request) (db : Db) :
  In r (all_routes d) ->
  exists res, fst (r req db) = Some res /\ (success res \/ failure res).
Proof.
  assert (G : forall gates,
             Forall (returns passing) gates ->
             forall handler,
             In handler
                [signupUser d; signoutUser; signinUser d; getMe; createRole d;
                 getAllRole; createCommunity d; getAllCommunities;
                 getMyOwnedCommunities; getMyJoinedCommunities; getAllMembers;
                 addMember d; removeMember] ->
             exists res, fst (run (gates ++ [handler]) (arriving req) db) = Some res
                         /\ (success res \/ failure res)).
  { intros gates Hg handler Hh. apply run_replies; [exact Hg|].
    exact (proj1 (Forall_forall _ _) (replying_handlers d) handler Hh). }
  intros Hr.
  destruct Hr as [<-|[<-|[<-|[<-|[<-|[<-|[<-|[<-|[<-|[<-|[<-|[<-|[<-|[]]]]]]]]]]]]]].
  - apply (G [signupUserVal; validateRequest]); [|simpl; tauto].
    repeat first [ apply Forall_nil | apply Forall_cons | apply passing_run_rules
                 | apply passing_validateRequest ].
  - apply (G [createRoleVal; validateRequest]); [|simpl; tauto].
    repeat first [ apply Forall_nil | apply Forall_cons | apply passing_run_rules
                 | apply passing_validateRequest ].
  - apply (G [currentUser; isLoggedIn; createCommunityVal; validateRequest]);
      [|simpl; tauto].
    repeat first [ apply Forall_nil | apply Forall_cons | apply passing_run_rules
                 | apply passing_validateRequest | apply passing_currentUser
                 | apply passing_isLoggedIn ].
  - apply (G [addMemberVal; validateRequest; currentUser; isLoggedIn;
              isCommunityAdmin]); [|simpl; tauto].
    repeat first [ apply Forall_nil | apply Forall_cons | apply passing_run_rules
                 | apply passing_validateRequest | apply passing_currentUser
                 | apply passing_isLoggedIn | apply passing_isCommunityAdmin ].
  - apply (G [deleteMemberVal; validateRequest; currentUser; isLoggedIn;
              isCommunityModerator]); [|simpl; tauto].
    repeat first [ apply Forall_nil | apply Forall_cons | apply passing_run_rules
                 | apply passing_validateRequest | apply passing_currentUser
                 | apply passing_isLoggedIn | apply passing_isCommunityModerator ].
  - apply (G []); [apply Forall_nil | simpl; tauto].
  - apply (G [signinUserVal; validateRequest]); [|simpl; tauto].
    repeat first [ apply Forall_nil | apply Forall_cons | apply passing_run_rules
                 | apply passing_validateRequest ].
  - apply (G [currentUser]); [|simpl; tauto].
    repeat first [ apply Forall_nil | apply Forall_cons | apply passing_currentUser ].
  - apply (G []); [apply Forall_nil | simpl; tauto].
  - apply (G []); [apply Forall_nil | simpl; tauto].
  - apply (G [currentUser; isLoggedIn]); [|simpl; tauto].
    repeat first [ apply Forall_nil | apply Forall_cons | apply passing_currentUser
                 | apply passing_isLoggedIn ].
  - apply (G [getAllMembersVal; validateRequest]); [|simpl; tauto].
    repeat first [ apply Forall_nil | apply Forall_cons | apply passing_run_rules
                 | apply passing_validateRequest ].
  - apply (G [currentUser; isLoggedIn]); [|simpl; tauto].
    repeat first [ apply Forall_nil | apply Forall_cons | apply passing_currentUser
                 | apply passing_isLoggedIn ].
Qed.

End Answers.

(** ** Who gets through *)

Section Gates.
Context {L : Libraries}.

Lemma anonymous_stops (rest : list Middleware) (req : Request) (db : Db) :
  signed_in req = false ->
  run (currentUser :: isLoggedIn :: rest) (arriving req) db
  = (Some (mkResponse 400 not_allowed_reply (req_session req)), db).
Proof.
  intros H. rewrite (run_next _ _ _ _ _ _ (currentUser_outcome _ _)).
  rewrite arriving_token. unfold signed_in in H.
  assert (E : match token_of req with
              | Some token =>
                  match jwt_verify token JWT_SECRET with
                  | Some payload =>
                      with_currentUser (arriving req) (mkUserPayload (jwt_id payload))
                  | None => arriving req
                  end
              | None => arriving req
              end = arriving req).
  { destruct (token_of req) as [token|]; [|reflexivity].
    destruct (jwt_verify token JWT_SECRET); [discriminate | reflexivity]. }
  rewrite E.
  assert (G : isLoggedIn (arriving req) db = (Fail notAllowed, db))
    by apply isLoggedIn_outcome.
  rewrite (run_fail _ _ _ _ _ _ G). reflexivity.
Qed.

Lemma deleteMemberVal_valid (req : Request) (db : Db) :
  present (req_params_id req) = true ->
  deleteMemberVal (arriving req) db = (Next (arriving req), db).
Proof.
  intros H. unfold deleteMemberVal, run_rules. simpl.
  unfold run_chain, field_value. simpl.
  change (req_params_id (arriving req)) with (req_params_id req).
  destruct (req_params_id req) as [id|]; [|discriminate].
  simpl in H. simpl. rewrite H. reflexivity.
Qed.

(** X20. A caller whose session holds no token that verifies is turned
    away from every protected route with the general error
    NOT_ALLOWED_ACCESS, and nothing is written: from creating a community
    and from the listings of owned and joined communities whatever else
    the request holds, from adding and removing a member once the fields
    of the request are valid (these two validate first). *)
Theorem anonymous_callers_are_turned_away (d : Draws) (req : Request) (db : Db) :
  signed_in req = false ->
  let turned_away :=
    (Some (mkResponse 400 not_allowed_reply (req_session req)), db) in
  post_community d req db = turned_away
  /\ get_community_me_owner req db = turned_away
  /\ get_community_me_member req db = turned_away
  /\ (present (body req "community") && present (body req "user")
      && present (body req "role") = true ->
      post_member d req db = turned_away)
  /\ (present (req_params_id req) = true -> delete_member req db = turned_away).
Proof.
  intros H turned_away. subst turned_away.
  split; [exact (anonymous_stops _ req db H)|].
  split; [exact (anonymous_stops _ req db H)|].
  split; [exact (anonymous_stops _ req db H)|].
  split; intros V.
  - unfold post_member, route.
    rewrite (run_next _ _ _ _ _ _ (addMemberVal_valid _ _ V)).
    rewrite (run_next _ _ _ _ _ _ (validateRequest_clean (arriving req) db eq_refl)).
    exact (anonymous_stops _ req db H).
  - unfold delete_member, route.
    rewrite (run_next _ _ _ _ _ _ (deleteMemberVal_valid _ _ V)).
    rewrite (run_next _ _ _ _ _ _ (validateRequest_clean (arriving req) db eq_refl)).
    exact (anonymous_stops _ req db H).
Qed.

(** The start of [POST /member] for the owner of the community. *)
Lemma post_member_by_owner (d : Draws) (req : Request) (db : Db)
  (token : string) (payload : JwtPayload) (caller user community role : string)
  (comm : Community) (owner : User) :
  body req "user" = Some user ->
  body req "community" = Some community ->
  body req "role" = Some role ->
  user <> "" /\ community <> "" /\ role <> "" ->
  token_of req = Some token ->
  jwt_verify token JWT_SECRET = Some payload ->
  jwt_id payload = Some caller ->
  findByPk user_id (users db) (Some caller) <> None ->
  findByPk community_id (communities db) (Some community) = Some comm ->
  getOwner db comm = Some owner ->
  user_id owner = caller ->
  post_member d req db
  = run [addMember d]
        (with_currentUser (arriving req) (mkUserPayload (Some caller))) db.
Proof.
  intros Huser Hcommunity Hrole (A & B & C) Htoken Hverify Hcaller Hknown Hcomm
    Howner Hown.
  assert (Hvalid : present (body req "community") && present (body req "user")
                   && present (body req "role") = true).
  { rewrite Huser, Hcommunity, Hrole. now rewrite !present_some. }
  unfold post_member, route.
  rewrite (to_gate _ _ _ _ _ _ (addMemberVal_valid _ _ Hvalid) Htoken Hverify).
  rewrite Hcaller.
  set (req1 := with_currentUser (arriving req) (mkUserPayload (Some caller))).
  assert (Gate : isCommunityAdmin req1 db = (Next req1, db)).
  { rewrite (isCommunityAdmin_outcome req1 db (Some caller) eq_refl).
    change (body req1 "community") with (body req "community").
    rewrite Hcommunity, Hcomm.
    destruct (findByPk user_id (users db) (Some caller)); [|congruence].
    rewrite Howner, Hown, col_eq_true. reflexivity. }
  now rewrite (run_next _ _ _ _ _ _ Gate).
Qed.

(** X21. The owner of a community adds a member with a request whose
    fields are valid: if no role has the given id the reply is the field
    error RESOURCE_NOT_FOUND on [role]; if the role exists and no user
    has the given id, the field error RESOURCE_NOT_FOUND on [user]. The
    role is looked up first, and in both cases nothing is written. *)
Theorem add_member_needs_role_and_user
  (d : Draws) (req : Request) (db : Db)
  (token : string) (payload : JwtPayload) (caller user community role : string)
  (comm : Community) (owner : User)
  (Huser : body req "user" = Some user)
  (Hcommunity : body req "community" = Some community)
  (Hrole : body req "role" = Some role)
  (Hfilled : user <> "" /\ community <> "" /\ role <> "")
  (Htoken : token_of req = Some token)
  (Hverify : jwt_verify token JWT_SECRET = Some payload)
  (Hcaller : jwt_id payload = Some caller)
  (Hknown : findByPk user_id (users db) (Some caller) <> None)
  (Hcomm : findByPk community_id (communities db) (Some community) = Some comm)
  (Howner : getOwner db comm = Some owner)
  (Hown : user_id owner = caller) :
  (findByPk role_id (roles db) (Some role) = None ->
   post_member d req db =
     (Some (mkResponse 400
              (field_error_reply "role" "Role not found." "RESOURCE_NOT_FOUND")
              (req_session req)), db))
  /\ (findByPk role_id (roles db) (Some role) <> None ->
      findByPk user_id (users db) (Some user) = None ->
      post_member d req db =
        (Some (mkResponse 400
                 (field_error_reply "user" "User not found." "RESOURCE_NOT_FOUND")
                 (req_session req)), db)).
Proof.
  rewrite (post_member_by_owner d req db token payload caller user community role
             comm owner Huser Hcommunity Hrole Hfilled Htoken Hverify Hcaller
             Hknown Hcomm Howner Hown).
  rewrite run_last. unfold addMember, try_catch_next.
  set (req1 := with_currentUser (arriving req) (mkUserPayload (Some caller))).
  change (body req1) with (body req). rewrite Huser, Hrole.
  cbn [bind ret query]. split.
  - intros Hr. rewrite Hr. reflexivity.
  - intros Hr Hu. destruct (findByPk role_id (roles db) (Some role)); [|congruence].
    cbn [bind ret query]. rewrite Hu. reflexivity.
Qed.

Lemma tr_bind_throws {A : Type} (Q : Step -> Prop) (m : Try A) (k : A -> Try Step) :
  (forall db r db', m db = (r, db') -> exists e, r = inl e) ->
  try_returns Q (bind m k).
Proof.
  intros Hm db s db' E. apply bind_inv in E.
  destruct E as [(e & _ & E)|(a & db1 & E & _)]; [discriminate|].
  destruct (Hm _ _ _ E) as (e & X). discriminate.
Qed.

(** Under a query layer that refuses [undefined] in a [where] clause, the
    moderator gate lets no one through. *)
Lemma isCommunityModerator_strict :
  where_undefined_throws = true -> returns (fun _ => False) isCommunityModerator.
Proof.
  intros W. apply returns_try_catch_next. intros req.
  apply tr_bind; intros userId. apply tr_bind; intros [user|]; [|apply tr_throw].
  apply tr_bind; intros [comm|]; [|apply tr_throw].
  apply tr_bind; intros commOwner. apply tr_bind; intros role.
  cbv zeta. apply tr_bind; intros role'.
  apply tr_bind_throws. intros db r db'. unfold where_values. rewrite W.
  assert (E : match body req "community" with
              | Some c => id_of_string c
              | None => None
              end = None) by (destruct (body req "community"); reflexivity).
  rewrite E. cbn [existsb orb andb].
  intros X. inversion X. eauto.
Qed.

Lemma run_blocked (P : Db -> Prop) (gates : list Middleware) (g : Middleware)
  (rest : list Middleware) :
  Forall (returns passing) gates -> Forall (preserves P) gates ->
  preserves P g -> returns (fun _ => False) g ->
  forall req db, P db ->
  exists res, fst (run (gates ++ g :: rest) req db) = Some res
              /\ failure res /\ P (snd (run (gates ++ g :: rest) req db)).
Proof.
  intros Hg Hp Pg Bg. induction Hg as [|m gates Hm _ IH]; intros req db H.
  - rewrite app_nil_l. destruct (g req db) as [step db'] eqn:E.
    destruct (Bg _ _ _ _ E) as [(err & ->)|[]].
    rewrite (run_fail _ _ _ _ _ _ E). eexists. split; [reflexivity|].
    split; [apply failure_globalErrorHandler|]. exact (Pg _ _ _ _ H E).
  - rewrite <- app_comm_cons. inversion Hp as [|? ? Pm Hp']; subst.
    destruct (m req db) as [step db'] eqn:E.
    destruct (Hm _ _ _ _ E) as [(err & ->)|(req' & ->)].
    + rewrite (run_fail _ _ _ _ _ _ E). eexists. split; [reflexivity|].
      split; [apply failure_globalErrorHandler|]. exact (Pm _ _ _ _ H E).
    + rewrite (run_next _ _ _ _ _ _ E). apply IH; [exact Hp'|].
      exact (Pm _ _ _ _ H E).
Qed.

(** X22. Under a query layer that refuses an [undefined] value in a
    [where] clause, [DELETE /member/:id] removes nothing, whoever calls
    it: every request is answered with an error (status 400) and the
    datastore is what it was. The membership lookup of the moderator
    gate is built from [community.id], which is [undefined], and the gate
    comes before the handler. *)
Theorem delete_member_never_removes (req : Request) (db : Db) :
  where_undefined_throws = true ->
  exists res, delete_member req db = (Some res, db) /\ failure res.
Proof.
  intros W.
  destruct (run_blocked (fun x => x = db)
              [deleteMemberVal; validateRequest; currentUser; isLoggedIn]
              isCommunityModerator [removeMember]) with (req := arriving req) (db := db)
    as (res & E & F & K).
  - repeat first [ apply Forall_nil | apply Forall_cons | apply passing_run_rules
                 | apply passing_validateRequest | apply passing_currentUser
                 | apply passing_isLoggedIn ].
  - repeat first [ apply Forall_nil | apply Forall_cons | apply preserves_run_rules
                 | apply preserves_validateRequest | apply preserves_currentUser
                 | apply preserves_isLoggedIn ].
  - apply preserves_isCommunityModerator.
  - exact (isCommunityModerator_strict W).
  - reflexivity.
  - exists res. split; [|exact F]. unfold delete_member, route.
    cbn [app] in E, K.
    destruct (run _ (arriving req) db) as [o db'].
    cbn [fst snd] in E, K. now subst.
Qed.

End Gates.

(** ** Removing a member *)

Lemma existsb_filter {A : Type} (p f : A -> bool) (l : list A) :
  existsb f (filter p l) = existsb (fun x => p x && f x) l.
Proof.
  induction l as [|a l IH]; [reflexivity|]. simpl.
  destruct (p a); simpl; now rewrite IH.
Qed.

Lemma existsb_same {A : Type} (f g : A -> bool) (l : list A) :
  (forall a, f a = g a) -> existsb f l = existsb g l.
Proof. intros E. induction l as [|a l IH]; simpl; [reflexivity|]. now rewrite E, IH. Qed.

Lemma nodup_map_inj {A : Type} (f : A -> string) (l : list A) (a b : A) :
  NoDup (map f l) -> In a l -> In b l -> f a = f b -> a = b.
Proof.
  induction l as [|x l IH]; simpl; intros N Ha Hb E; [contradiction|].
  inversion N as [|? ? Hx N']; subst.
  destruct Ha as [->|Ha], Hb as [->|Hb]; [reflexivity| | |now apply IH].
  - exfalso. apply Hx. rewrite E. now apply in_map.
  - exfalso. apply Hx. rewrite <- E. now apply in_map.
Qed.

(** Destroying the rows found by a [where] clause, one by one and by
    primary key, removes the rows of the clause when keys are unique. *)
Lemma destroy_found (p : Member -> bool) (rows : list Member) :
  NoDup (map member_id rows) ->
  filter (fun m => negb (existsb (fun mm => member_id m =? member_id mm)
                                 (filter p rows))) rows
  = filter (fun m => negb (p m)) rows.
Proof.
  intros N. apply filter_ext_in. intros m Hm. f_equal.
  rewrite existsb_filter. destruct (p m) eqn:Pm.
  - apply existsb_exists. exists m. split; [exact Hm|].
    now rewrite Pm, String.eqb_refl.
  - destruct (existsb _ rows) eqn:X; [|reflexivity].
    apply existsb_exists in X. destruct X as (mm & Hmm & X).
    apply andb_true_iff in X. destruct X as [Pmm E].
    apply String.eqb_eq in E.
    rewrite (nodup_map_inj member_id rows m mm N Hm Hmm E) in Pm. congruence.
Qed.

Lemma bind_returns {A B : Type} (m : Try A) (k : A -> Try B) (db db1 : Db) (a : A) :
  m db = (inr a, db1) -> bind m k db = k a db1.
Proof. intros E. unfold bind. now rewrite E. Qed.

Lemma bind_throws {A B : Type} (m : Try A) (k : A -> Try B) (db db1 : Db)
  (e : Thrown) :
  m db = (inl e, db1) -> bind m k db = (inl e, db1).
Proof. intros E. unfold bind. now rewrite E. Qed.

Section Remove.
Context {L : Libraries}.

Lemma where_values_given (values : list string) (db : Db) :
  where_values (map Some values) db = (inr tt, db).
Proof.
  unfold where_values.
  match goal with
  | |- context [existsb ?f ?l] => assert (E : existsb f l = false)
  end.
  { induction values as [|v values IH]; [reflexivity|]. simpl. exact IH. }
  rewrite E, andb_false_r. reflexivity.
Qed.

Lemma removeMember_targets (db : Db) (caller id : string) (m : Member) :
  col_eq (member_userId m) (Some id)
  && existsb (fun cm => member_communityId m =? member_communityId cm)
       (filter (fun cm =>
                  col_eq (member_userId cm) (Some caller)
                  && existsb (fun rl => member_roleId cm =? role_id rl)
                       (filter (fun r => (role_name r =? "Community Admin")
                                         || (role_name r =? "Community Moderator"))
                               (roles db)))
               (members db))
  = targeted db caller id m.
Proof.
  unfold targeted, manages, managing_role, col_eq. f_equal.
  rewrite existsb_filter. apply existsb_same. intros cm.
  rewrite existsb_filter.
  rewrite (existsb_same _ (fun r => (role_id r =? member_roleId cm)
                                    && ((role_name r =? "Community Admin")
                                        || (role_name r =? "Community Moderator")))).
  2:{ intros r. rewrite (String.eqb_sym (member_roleId cm)). apply andb_comm. }
  rewrite (String.eqb_sym (member_communityId m)).
  destruct (member_userId cm =? caller), (member_communityId cm =? _),
    (existsb _ (roles db)); reflexivity.
Qed.

(** The handler of [DELETE /member/:id], for a resolved caller. *)
Lemma removeMember_outcome (req : Request) (db : Db) (caller id : string) :
  req_currentUser req = Some (mkUserPayload (Some caller)) ->
  req_params_id req = Some id ->
  removeMember req db =
    match filter (targeted db caller id) (members db) with
    | [] =>
        (Fail (NonParametricError
                 [nonParametric "Member not found." "RESOURCE_NOT_FOUND"]), db)
    | found =>
        (Send (mkResponse 200 (JObj [("status", JBool true)]) (req_session req)),
         set_members db
           (filter (fun m => negb (existsb (fun mm => member_id m =? member_id mm)
                                           found))
                   (members db)))
    end.
Proof.
  intros Hc Hi. unfold removeMember, try_catch_next, currentUserId.
  rewrite Hc, Hi. cbn [bind ret query currentUser_id].
  assert (W : forall v dbx, where_values [Some v] dbx = (inr tt, dbx))
    by (intros v dbx; apply (where_values_given [v])).
  rewrite (bind_returns _ _ _ _ _ (W caller db)). cbn [bind ret query].
  rewrite (bind_returns _ _ _ _ _ (W id db)). cbn [bind ret query].
  rewrite (filter_ext _ _ (removeMember_targets db caller id)).
  destruct (filter (targeted db caller id) (members db)); reflexivity.
Qed.

(** The handler on a table of members with unique ids. *)
Lemma removeMember_unique_ids (req : Request) (db : Db) (caller id : string) :
  req_currentUser req = Some (mkUserPayload (Some caller)) ->
  req_params_id req = Some id ->
  NoDup (map member_id (members db)) ->
  removeMember req db =
    if existsb (targeted db caller id) (members db)
    then (Send (mkResponse 200 (JObj [("status", JBool true)]) (req_session req)),
          set_members db
            (filter (fun m => negb (targeted db caller id m)) (members db)))
    else (Fail (NonParametricError
                  [nonParametric "Member not found." "RESOURCE_NOT_FOUND"]), db).
Proof.
  intros Hc Hi N. rewrite (removeMember_outcome req db caller id Hc Hi).
  rewrite <- (destroy_found (targeted db caller id) (members db) N).
  destruct (filter (targeted db caller id) (members db)) as [|m ms] eqn:F.
  - destruct (existsb _ _) eqn:X; [|reflexivity].
    apply existsb_exists in X. destruct X as (m & Hm & T).
    assert (In m (filter (targeted db caller id) (members db)))
      by (apply filter_In; tauto).
    rewrite F in H. destruct H.
  - assert (X : existsb (targeted db caller id) (members db) = true).
    { apply existsb_exists. exists m.
      apply filter_In. rewrite F. now left. }
    rewrite X. reflexivity.
Qed.

(** X23. The handler of [DELETE /member/:id], for a resolved caller and
    a table of members with unique ids: it removes the rows of user [id]
    in every community where the caller holds a role named Community
    Admin or Community Moderator, and replies 200 with [status: true];
    when there is no such row it fails with the general error
    RESOURCE_NOT_FOUND and writes nothing. Every other row stays, and the
    community named in the body of the request plays no part. *)
Theorem removeMember_removes_the_managed_rows
  (req : Request) (db : Db) (caller id : string) :
  req_currentUser req = Some (mkUserPayload (Some caller)) ->
  req_params_id req = Some id ->
  NoDup (map member_id (members db)) ->
  removeMember req db =
    (if existsb (targeted db caller id) (members db)
     then (Send (mkResponse 200 (JObj [("status", JBool true)]) (req_session req)),
           set_members db
             (filter (fun m => negb (targeted db caller id m)) (members db)))
     else (Fail (NonParametricError
                   [nonParametric "Member not found." "RESOURCE_NOT_FOUND"]), db))
  /\ forall m, In m (members db) -> targeted db caller id m = false ->
                In m (members (snd (removeMember req db))).
Proof.
  intros Hc Hi N. split; [exact (removeMember_unique_ids req db caller id Hc Hi N)|].
  intros m Hm T. rewrite (removeMember_unique_ids req db caller id Hc Hi N).
  destruct (existsb _ _); cbn [snd members set_members]; [|exact Hm].
  apply filter_In. split; [exact Hm|]. now rewrite T.
Qed.

Lemma isCommunityModerator_owner (req : Request) (db : Db) (caller : string)
  (comm : Community) (owner : User) (role : Role) :
  where_undefined_throws = false ->
  req_currentUser req = Some (mkUserPayload (Some caller)) ->
  findByPk user_id (users db) (Some caller) <> None ->
  findByPk community_id (communities db) (body req "community") = Some comm ->
  getOwner db comm = Some owner ->
  user_id owner = caller ->
  findOne (fun r => role_name r =? "Community Moderator") (roles db) = Some role ->
  isCommunityModerator req db = (Next req, db).
Proof.
  intros W Hc Hu Hcomm Hown Hid Hrole.
  unfold isCommunityModerator, try_catch_next, currentUserId.
  rewrite Hc. cbn [bind ret query currentUser_id].
  destruct (findByPk user_id (users db) (Some caller)) as [user|]; [|congruence].
  cbn [bind ret query]. rewrite Hcomm. cbn [bind ret query]. rewrite Hown, Hrole.
  cbn [bind ret query deref].
  unfold where_values at 1. rewrite W. cbn [andb bind ret query].
  rewrite Hid, col_eq_true. reflexivity.
Qed.

(** X30. Under a query layer that lets an [undefined] value of a [where]
    clause through, the owner of the community named in the body gets
    past the moderator gate of [DELETE /member/:id] (a role named
    Community Moderator has to exist), and the route then does what its
    handler does: it removes the rows of user [id] in the communities
    where the owner holds a managing role, which need not include the
    community named, or replies that no member was found. *)
Theorem owner_removes_through_the_route
  (req : Request) (db : Db) (token : string) (payload : JwtPayload)
  (caller id community : string) (comm : Community) (owner : User) (role : Role)
  (Hlenient : where_undefined_throws = false)
  (Hid : req_params_id req = Some id)
  (Hfilled : id <> "")
  (Htoken : token_of req = Some token)
  (Hverify : jwt_verify token JWT_SECRET = Some payload)
  (Hcaller : jwt_id payload = Some caller)
  (Hknown : findByPk user_id (users db) (Some caller) <> None)
  (Hcommunity : body req "community" = Some community)
  (Hcomm : findByPk community_id (communities db) (Some community) = Some comm)
  (Howner : getOwner db comm = Some owner)
  (Hown : user_id owner = caller)
  (Hrole : findOne (fun r => role_name r =? "Community Moderator") (roles db)
           = Some role)
  (Hkeys : NoDup (map member_id (members db))) :
  delete_member req db =
    if existsb (targeted db caller id) (members db)
    then (Some (mkResponse 200 (JObj [("status", JBool true)]) (req_session req)),
          set_members db
            (filter (fun m => negb (targeted db caller id m)) (members db)))
    else (Some (mkResponse 400
                  (general_error_reply "Member not found." "RESOURCE_NOT_FOUND")
                  (req_session req)), db).
Proof.
  assert (V : present (req_params_id req) = true)
    by (rewrite Hid; now apply present_some).
  unfold delete_member, route.
  rewrite (to_gate _ _ _ _ _ _ (deleteMemberVal_valid _ _ V) Htoken Hverify).
  rewrite Hcaller.
  set (req1 := with_currentUser (arriving req) (mkUserPayload (Some caller))).
  assert (G : isCommunityModerator req1 db = (Next req1, db)).
  { apply (isCommunityModerator_owner req1 db caller comm owner role);
      try assumption; try reflexivity.
    change (body req1 "community") with (body req "community").
    now rewrite Hcommunity. }
  rewrite (run_next _ _ _ _ _ _ G), run_last.
  rewrite (removeMember_unique_ids req1 db caller id eq_refl Hid Hkeys).
  destruct (existsb _ _); reflexivity.
Qed.

End Remove.

(** ** The listings of one caller, of one community *)




Section Mine.
Context {L : Libraries}.

(** The start of the routes of a signed-in caller. *)
Lemma signed_in_reaches (handler : Middleware) (req : Request) (db : Db)
  (token : string) (payload : JwtPayload) :
  token_of req = Some token ->
  jwt_verify token JWT_SECRET = Some payload ->
  run [currentUser; isLoggedIn; handler] (arriving req) db
  = run [handler]
        (with_currentUser (arriving req) (mkUserPayload (jwt_id payload))) db.
Proof.
  intros Ht Hp. rewrite (run_next _ _ _ _ _ _ (currentUser_outcome _ _)).
  rewrite arriving_token, Ht, Hp.
  erewrite run_next; [reflexivity|]. rewrite isLoggedIn_outcome. reflexivity.
Qed.







(** X25. The listing of the communities the caller has joined, when no
    role is named Community Member or Community Moderator: the route
    replies with two field errors on [role], both RESOURCE_NOT_FOUND, the
    second of which names the Community Admin role, and writes nothing. *)
Theorem joined_listing_without_roles (req : Request) (db : Db)
  (token : string) (payload : JwtPayload) :
  token_of req = Some token ->
  jwt_verify token JWT_SECRET = Some payload ->
  (forall r, In r (roles db) ->
             role_name r <> "Community Member"
             /\ role_name r <> "Community Moderator") ->
  get_community_me_member req db =
    (Some (mkResponse 400
             (errors_reply
                [parametric "role" "Community Member role not found."
                            "RESOURCE_NOT_FOUND";
                 parametric "role" "Community Admin role not found."
                            "RESOURCE_NOT_FOUND"])
             (req_session req)), db).
Proof.
  intros Ht Hp Hr. unfold get_community_me_member, route.
  rewrite (signed_in_reaches _ _ _ _ _ Ht Hp), run_last.
  unfold getMyJoinedCommunities, try_catch_next, currentUserId.
  cbn [req_currentUser with_currentUser currentUser_id bind ret query].
  assert (E : filter (fun r => (role_name r =? "Community Member")
                               || (role_name r =? "Community Moderator"))
                     (roles db) = []).
  { induction (roles db) as [|r rs IH]; [reflexivity|]. cbn [filter].
    destruct (Hr r (or_introl eq_refl)) as [A B].
    apply String.eqb_neq in A, B. rewrite A, B. cbn [orb].
    apply IH. intros r' Hr'. apply Hr. now right. }
  rewrite E. reflexivity.
Qed.






End Mine.

(** ** Creating a community, a role *)

Section Creating.
Context {L : Libraries}.

Lemma Community_create_fresh (d : Draws) (id name slug owner : string) (db : Db) :
  new_key community_id (communities db) id ->
  fits 128 name = true -> fits 255 slug = true ->
  let c := mkCommunity id name slug owner (now d) (now d) in
  Community_create d id name slug (Some owner) db
  = (inr c, set_communities db (communities db ++ [c])).
Proof.
  intros [F1 F2] F3 F4 c. unfold Community_create. now rewrite F1, F2, F3, F4.
Qed.

Lemma Role_create_fresh (d : Draws) (id name : string) (db : Db) :
  new_key role_id (roles db) id -> fits 255 name = true ->
  let r := mkRole id name (now d) (now d) in
  Role_create d id (Some name) db = (inr r, set_roles db (roles db ++ [r])).
Proof. intros [F1 F2] F3 r. unfold Role_create. now rewrite F1, F2, F3. Qed.

Lemma Member_create_fresh (d : Draws) (id user community role : string) (db : Db) :
  new_key member_id (members db) id ->
  let m := mkMember id community user role (now d) (now d) in
  Member_create d id (Some user) (Some community) (Some role) db
  = (inr m, set_members db (members db ++ [m])).
Proof. intros [F1 F2] m. unfold Member_create. now rewrite F1, F2. Qed.

(** The start of [POST /community] for a signed-in caller and a name of
    two characters or more. *)
Lemma post_community_reaches (d : Draws) (req : Request) (db : Db)
  (token : string) (payload : JwtPayload) (name : string) :
  token_of req = Some token ->
  jwt_verify token JWT_SECRET = Some payload ->
  body req "name" = Some name ->
  (2 <= String.length name)%nat ->
  post_community d req db
  = run [createCommunity d]
        (with_currentUser (arriving req) (mkUserPayload (jwt_id payload))) db.
Proof.
  intros Ht Hp Hn Hl. unfold post_community, route.
  rewrite (run_next _ _ _ _ _ _ (currentUser_outcome _ _)).
  rewrite arriving_token, Ht, Hp.
  set (req1 := with_currentUser (arriving req) (mkUserPayload (jwt_id payload))).
  assert (G : isLoggedIn req1 db = (Next req1, db))
    by (rewrite isLoggedIn_outcome; reflexivity).
  rewrite (run_next _ _ _ _ _ _ G).
  destruct (createCommunityVal_outcome req1 db) as (errs & Hval & Herrs).
  assert (E : errs = []) by (apply Herrs; exists name; split; assumption).
  subst errs. rewrite (run_next _ _ _ _ _ _ Hval).
  change (with_validation req1 (req_validation req1 ++ [])) with req1.
  now rewrite (run_next _ _ _ _ _ _ (validateRequest_clean req1 db eq_refl)).
Qed.

(** X28. A signed-in user creates a community under a valid name: the
    community is stored with the caller as owner and the slug of the
    name, and the caller is made a member of it under the role named
    Community Admin. When a role of that name exists it is used and the
    table of roles is left alone; when none exists, one is created first.
    The identifiers are drawn in that order and have to be new. *)
Theorem community_creator_becomes_admin
  (d : Draws) (req : Request) (db : Db)
  (token : string) (payload : JwtPayload) (caller name : string)
  (Htoken : token_of req = Some token)
  (Hverify : jwt_verify token JWT_SECRET = Some payload)
  (Hcaller : jwt_id payload = Some caller)
  (Hknown : findByPk user_id (users db) (Some caller) <> None)
  (Hname : body req "name" = Some name)
  (Hlen : (2 <= String.length name <= 128)%nat)
  (Hnew : new_key community_id (communities db) (snowflake d 0)) :
  let c := mkCommunity (snowflake d 0) name (slug_of name) caller (now d) (now d) in
  let joins id role := mkMember id (snowflake d 0) caller role (now d) (now d) in
  (forall admin,
     admin_role db = Some admin ->
     new_key member_id (members db) (snowflake d 1) ->
     post_community d req db =
       (Some (mkResponse 200 (community_reply c) (req_session req)),
        mkDb (users db) (roles db) (communities db ++ [c])
             (members db ++ [joins (snowflake d 1) (role_id admin)])))
  /\ (admin_role db = None ->
      new_key role_id (roles db) (snowflake d 1) ->
      new_key member_id (members db) (snowflake d 2) ->
      post_community d req db =
        (Some (mkResponse 200 (community_reply c) (req_session req)),
         mkDb (users db)
              (roles db ++ [mkRole (snowflake d 1) "Community Admin" (now d) (now d)])
              (communities db ++ [c])
              (members db ++ [joins (snowflake d 2) (snowflake d 1)]))).
Proof.
  intros c joins.
  rewrite (post_community_reaches d req db token payload name Htoken Hverify Hname
             (proj1 Hlen)).
  rewrite Hcaller, run_last.
  unfold createCommunity, try_catch_next, currentUserId.
  cbn [req_currentUser with_currentUser currentUser_id bind ret query].
  destruct (findByPk user_id (users db) (Some caller)); [|congruence].
  change (body (with_currentUser (arriving req) _)) with (body req).
  rewrite Hname.
  assert (F1 : fits 128 name = true) by (apply Nat.leb_le; lia).
  assert (F2 : fits 255 (slug_of name) = true).
  { apply Nat.leb_le.
    pose proof (proj2 (proj2 (proj2 (slug_of_spec name)))). lia. }
  rewrite (bind_returns _ _ _ _ _
             (Community_create_fresh d _ name (slug_of name) caller db Hnew F1 F2)).
  fold c. cbn [bind ret query roles set_communities].
  unfold admin_role, findOne. split.
  - intros admin Ha Hm. rewrite Ha. cbn [bind ret fst snd].
    rewrite (bind_returns _ _ _ _ _
               (Member_create_fresh d (snowflake d 1) caller (community_id c)
                  (role_id admin) (set_communities db (communities db ++ [c])) Hm)).
    reflexivity.
  - intros Ha Hr Hm. rewrite Ha.
    rewrite (bind_returns _ _ _ _ _
               (bind_returns _ _ _ _ _
                  (Role_create_fresh d (snowflake d 1) "Community Admin"
                     (set_communities db (communities db ++ [c])) Hr eq_refl))).
    cbn [ret fst snd].
    rewrite (bind_returns _ _ _ _ _
               (Member_create_fresh d (snowflake d 2) caller (community_id c)
                  (snowflake d 1)
                  (set_roles (set_communities db (communities db ++ [c])) _) Hm)).
    reflexivity.
Qed.

Lemma post_role_creates (d : Draws) (req : Request) (db : Db) (name : string) :
  body req "name" = Some name ->
  (2 <= String.length name <= 255)%nat ->
  new_key role_id (roles db) (snowflake d 0) ->
  let r := mkRole (snowflake d 0) name (now d) (now d) in
  post_role d req db =
    (Some (mkResponse 200 (role_reply r) (req_session req)),
     set_roles db (roles db ++ [r])).
Proof.
  intros Hn Hl Hk r. unfold post_role, createRoleVal.
  rewrite run_rules_then_validate.
  pose proof (createRole_failures (arriving req)) as F. cbv zeta in F.
  change (body (arriving req) "name") with (body req "name") in F.
  rewrite Hn in F.
  replace (2 <=? String.length name)%nat with true in F
    by (symmetry; apply Nat.leb_le; lia).
  rewrite F, run_last. unfold createRole, try_catch_next.
  change (body (arriving req) "name") with (body req "name"). rewrite Hn.
  assert (F3 : fits 255 name = true) by (apply Nat.leb_le; lia).
  rewrite (bind_returns _ _ _ _ _ (Role_create_fresh d _ name db Hk F3)).
  reflexivity.
Qed.

(** X29. Nothing keeps two roles from having one name: a request with a
    valid name creates a role whether or not a role of that name exists,
    and the same request sent again, with another identifier drawn,
    creates a second role of that name. *)
Theorem role_names_are_not_unique
  (d1 d2 : Draws) (req : Request) (db : Db) (name : string)
  (Hname : body req "name" = Some name)
  (Hlen : (2 <= String.length name <= 255)%nat)
  (Hnew1 : new_key role_id (roles db) (snowflake d1 0))
  (Hnew2 : new_key role_id (roles db) (snowflake d2 0))
  (Hother : snowflake d1 0 <> snowflake d2 0) :
  let r1 := mkRole (snowflake d1 0) name (now d1) (now d1) in
  let r2 := mkRole (snowflake d2 0) name (now d2) (now d2) in
  let db1 := set_roles db (roles db ++ [r1]) in
  post_role d1 req db =
    (Some (mkResponse 200 (role_reply r1) (req_session req)), db1)
  /\ post_role d2 req db1 =
       (Some (mkResponse 200 (role_reply r2) (req_session req)),
        set_roles db (roles db ++ [r1; r2])).
Proof.
  intros r1 r2 db1. split.
  - exact (post_role_creates d1 req db name Hname Hlen Hnew1).
  - assert (K : new_key role_id (roles db1) (snowflake d2 0)).
    { destruct Hnew2 as [P F]. split; [|exact F].
      unfold pk_free in *. subst db1. cbn [roles set_roles].
      rewrite existsb_app. apply negb_true_iff in P. rewrite P.
      cbn [existsb role_id r1 orb]. apply String.eqb_neq in Hother.
      now rewrite Hother. }
    rewrite (post_role_creates d2 req db1 name Hname Hlen K).
    subst db1. unfold set_roles. cbn [roles users communities members].
    now rewrite <- app_assoc.
Qed.

End Creating.

(** ** The statements at work on the example data *)

Lemma signup_stores_the_hash_witness :
  exists u res db',
    post_auth_signup (L := Reference.RefLib) Example.draws
      MoreExamples.cat_signs_up Example.db = (Some res, db')
    /\ res_status res = 200%Z
    /\ res_body res = user_reply u (Some MoreExamples.cat_token)
    /\ res_session res = Some (mkSession (Some MoreExamples.cat_token))
    /\ users db' = (users Example.db ++ [u])%list
    /\ (roles db', communities db', members db')
       = (roles Example.db, communities Example.db, members Example.db)
    /\ (user_id u, user_name u, user_email u) = ("900", "Cat", "cat@example.org")
    /\ user_password u = "salt$3414800362".
Proof.
  apply (signup_stores_the_hash (L := Reference.RefLib) Example.draws
           MoreExamples.cat_signs_up Example.db "Cat" "cat@example.org" "pw-cat"
           MoreExamples.cat_token);
    try reflexivity; try (simpl; lia); split; try reflexivity; simpl; lia.
Defined.

Lemma signup_with_taken_email_witness :
  let req := Example.request
               [("name", "Ann"); ("email", "ann@example.org"); ("password", "pw")]
               None None in
  post_auth_signup (L := Reference.RefLib) Example.draws req Example.db
  = (Some (mkResponse 400
             (field_error_reply "email"
                "User with this email address already exists." "RESOURCE_EXISTS")
             (req_session req)), Example.db).
Proof.
  intros req.
  apply (signup_with_taken_email (L := Reference.RefLib) Example.draws req
           Example.db "ann@example.org" "pw"); reflexivity.
Defined.

Lemma signin_outcomes_witness :
  let req := Example.request
               [("email", "ann@example.org"); ("password", "pw-ann")] None None in
  post_auth_signin (L := Reference.RefLib) Example.draws req Example.db
  = (Some (mkResponse 400
             (field_error_reply "password"
                "The credentials you provided are invalid." "INVALID_CREDENTIALS")
             (req_session req)), Example.db).
Proof.
  intros req.
  refine (proj1 (proj2 (signin_outcomes (L := Reference.RefLib) Example.draws req
                          Example.db "ann@example.org" "pw-ann" _ _ _))
                Example.ann _ _); reflexivity.
Defined.

Lemma signin_after_signup_witness :
  exists u res db',
    post_auth_signup (L := Reference.RefLib) Example.draws
      MoreExamples.cat_signs_up Example.db = (Some res, db')
    /\ res_body res = user_reply u (Some MoreExamples.cat_token)
    /\ post_auth_signin (L := Reference.RefLib) MoreExamples.later
         MoreExamples.cat_signs_up db'
       = (Some (mkResponse 200 (user_reply u (Some MoreExamples.cat_token_later))
                  (Some (mkSession (Some MoreExamples.cat_token_later)))), db').
Proof.
  apply (signin_after_signup (L := Reference.RefLib) Example.draws MoreExamples.later
           MoreExamples.cat_signs_up Example.db "Cat" "cat@example.org" "pw-cat"
           MoreExamples.cat_token MoreExamples.cat_token_later);
    try reflexivity; try (simpl; lia); split; try reflexivity; simpl; lia.
Defined.

Lemma me_after_signup_witness :
  exists u res db',
    post_auth_signup (L := Reference.RefLib) Example.draws
      MoreExamples.cat_signs_up Example.db = (Some res, db')
    /\ res_body res = user_reply u (Some MoreExamples.cat_token)
    /\ get_auth_me (L := Reference.RefLib)
         (with_session_of MoreExamples.cat_signs_up res) db'
       = (Some (mkResponse 200 (user_reply u None) (res_session res)), db').
Proof.
  apply (me_after_signup (L := Reference.RefLib) Example.draws
           MoreExamples.cat_signs_up Example.db "Cat" "cat@example.org" "pw-cat"
           MoreExamples.cat_token (Some 1000%Z));
    try reflexivity; try (simpl; lia);
    split; try reflexivity; try discriminate; simpl; lia.
Defined.

Lemma routes_keep_keys_unique_witness :
  let req := Example.request [("name", "Community Moderator")] None None in
  keys_unique Example.db
  /\ keys_unique (snd (post_role (L := Reference.RefLib) Example.draws req Example.db)).
Proof.
  intros req.
  assert (K : keys_unique Example.db).
  { repeat split; repeat constructor; simpl; intuition discriminate. }
  split; [exact K|].
  apply (routes_keep_keys_unique (L := Reference.RefLib) Example.draws
           (post_role Example.draws) req Example.db); [|exact K].
  right. left. reflexivity.
Defined.

Lemma every_request_is_answered_witness :
  let req := Example.request [("community", "c1")] (Some "u2")
                             (Some Example.bob_token) in
  exists res,
    fst (delete_member (L := Reference.RefLib) req Example.db) = Some res
    /\ (success res \/ failure res).
Proof.
  intros req.
  apply (every_request_is_answered (L := Reference.RefLib) Example.draws
           delete_member req Example.db).
  do 4 right. left. reflexivity.
Defined.

Lemma anonymous_callers_are_turned_away_witness :
  let req := Example.request [("name", "Go club")] None
                             (Some Example.forged_token) in
  signed_in (L := Reference.RefLib) req = false
  /\ post_community (L := Reference.RefLib) Example.draws req Example.db
     = (Some (mkResponse 400 not_allowed_reply (req_session req)), Example.db).
Proof.
  intros req.
  assert (H : signed_in (L := Reference.RefLib) req = false) by reflexivity.
  split; [exact H|].
  exact (proj1 (anonymous_callers_are_turned_away (L := Reference.RefLib)
                  Example.draws req Example.db H)).
Defined.

Lemma add_member_needs_role_and_user_witness :
  let req := Example.request [("community", "c1"); ("user", "u9"); ("role", "r2")]
                             None (Some Example.ann_token) in
  post_member (L := Reference.RefLib) Example.draws req Example.db
  = (Some (mkResponse 400
             (field_error_reply "user" "User not found." "RESOURCE_NOT_FOUND")
             (req_session req)), Example.db).
Proof.
  intros req.
  refine (proj2 (add_member_needs_role_and_user (L := Reference.RefLib)
                   Example.draws req Example.db Example.ann_token
                   (mkJwtPayload (Some "u1") (Some 1700%Z)) "u1" "u9" "c1" "r2"
                   Example.chess Example.ann _ _ _ _ _ _ _ _ _ _ _) _ _);
    try reflexivity; try discriminate.
  repeat split; discriminate.
Defined.

Lemma delete_member_never_removes_witness :
  let req := Example.request [("community", "c1")] (Some "u2")
                             (Some Example.ann_token) in
  exists res,
    delete_member (L := Reference.RefLib) req Example.db = (Some res, Example.db)
    /\ failure res.
Proof.
  intros req.
  apply (delete_member_never_removes (L := Reference.RefLib) req Example.db).
  reflexivity.
Defined.

Lemma removeMember_removes_the_managed_rows_witness :
  let req := with_currentUser
               (Example.request [] (Some "u2") (Some Example.bob_token))
               (mkUserPayload (Some "u2")) in
  removeMember (L := Reference.RefLib) req Example.db
  = (Send (mkResponse 200 (JObj [("status", JBool true)]) (req_session req)),
     set_members Example.db []).
Proof.
  intros req.
  refine (proj1 (removeMember_removes_the_managed_rows (L := Reference.RefLib) req
                   Example.db "u2" "u2" _ _ _)); try reflexivity.
  repeat constructor. simpl. tauto.
Defined.

Lemma owner_removes_through_the_route_witness :
  let req := Example.request [("community", "c1")] (Some "u2")
                             (Some Example.ann_token) in
  delete_member (L := LenientLib) req Example.db
  = (Some (mkResponse 400
             (general_error_reply "Member not found." "RESOURCE_NOT_FOUND")
             (req_session req)), Example.db).
Proof.
  intros req.
  apply (owner_removes_through_the_route (L := LenientLib) req Example.db
           Example.ann_token (mkJwtPayload (Some "u1") (Some 1700%Z))
           "u1" "u2" "c1" Example.chess Example.ann Example.moderator);
    try reflexivity; try discriminate.
  repeat constructor. simpl. tauto.
Defined.


Lemma joined_listing_without_roles_witness :
  let req := Example.request [] None (Some Example.bob_token) in
  get_community_me_member (L := Reference.RefLib) req MoreExamples.without_roles
  = (Some (mkResponse 400
             (errors_reply
                [parametric "role" "Community Member role not found."
                            "RESOURCE_NOT_FOUND";
                 parametric "role" "Community Admin role not found."
                            "RESOURCE_NOT_FOUND"])
             (req_session req)), MoreExamples.without_roles).
Proof.
  intros req.
  apply (joined_listing_without_roles (L := Reference.RefLib) req
           MoreExamples.without_roles Example.bob_token
           (mkJwtPayload (Some "u2") (Some 1700%Z))); try reflexivity.
  intros r [].
Defined.



Lemma community_creator_becomes_admin_witness :
  let req := Example.request [("name", "Go club")] None (Some Example.ann_token) in
  post_community (L := Reference.RefLib) Example.draws req Example.db
  = (Some (mkResponse 200
             (community_reply (mkCommunity "900" "Go club" "go-club" "u1" 1000 1000))
             (req_session req)),
     mkDb (users Example.db)
          (roles Example.db ++ [mkRole "901" "Community Admin" 1000 1000])
          (communities Example.db
           ++ [mkCommunity "900" "Go club" "go-club" "u1" 1000 1000])
          (members Example.db ++ [mkMember "902" "900" "u1" "901" 1000 1000])).
Proof.
  intros req.
  refine (proj2 (community_creator_becomes_admin (L := Reference.RefLib)
                   Example.draws req Example.db Example.ann_token
                   (mkJwtPayload (Some "u1") (Some 1700%Z)) "u1" "Go club"
                   _ _ _ _ _ _ _) _ _ _);
    try reflexivity; try discriminate; try (simpl; lia); split; reflexivity.
Defined.

Lemma role_names_are_not_unique_witness :
  let req := Example.request [("name", "Community Moderator")] None None in
  let r1 := mkRole "900" "Community Moderator" 1000 1000 in
  let r2 := mkRole "910" "Community Moderator" 2000 2000 in
  post_role (L := Reference.RefLib) MoreExamples.later req
    (set_roles Example.db (roles Example.db ++ [r1]))
  = (Some (mkResponse 200 (role_reply r2) (req_session req)),
     set_roles Example.db (roles Example.db ++ [r1; r2])).
Proof.
  intros req r1 r2.
  apply (role_names_are_not_unique (L := Reference.RefLib) Example.draws
           MoreExamples.later req Example.db "Community Moderator");
    try reflexivity; try discriminate; try (simpl; lia); split; reflexivity.
Defined.
